(** * blugnu/http: the request execution engine and the mock transport

    A shallow embedding of [barrel.go] (client.do, client.parseRequestHeaders,
    client.Do), of the request options of package [request], and of
    [mockClient.go], [mockRequest.go] and [errors.go], with the properties
    of the specification proved, or refuted, over it.

    Conventions of the embedding:
    - Go [int] and [uint] are the 64-bit types; values are held in [Z] and
      conversions wrap around explicitly ([uint_of_int], [int_of_uint]);
    - a [map[string]T] is a [gmap string T]; a nil map is the empty map
      (reading and deleting behave alike on both);
    - a pointer that may be nil is an [option]; dereferencing nil, indexing
      out of range and an explicit [panic] are the [Panic] outcome of
      [result];
    - mutation through a pointer is explicit state passing: a function that
      receives [*http.Request] returns the updated request. *)

From Stdlib Require Import ZArith NArith Ascii String List Bool Lia.
From Stdlib.Strings Require Import Byte.
From stdpp Require Import base option list gmap strings fin_maps.
Import ListNotations.

#[local] Set Warnings "-register-all".
Local Open Scope string_scope.
Local Open Scope list_scope.
Local Open Scope Z_scope.
Local Notation "a +++ b" := (String.append a b) (at level 60, right associativity).

(** ** The Go runtime and the standard library, as far as the code uses it *)

Module Go.

Definition nl : string := String (ascii_of_nat 10) EmptyString.

(** The values of interface [error] built by this package:
    - [errorString]: [errors.New] and [fmt.Errorf] without [%w]. Go compares
      these by address; [ptr] names the allocation (the package variable
      of a sentinel, empty for a temporary);
    - [wrapError]: [fmt.Errorf] with one or more [%w] operands;
    - [joinError]: [errors.Join];
    - [ErrorWithContext]: the error type of github.com/blugnu/errorcontext;
    - [MockExpectationsError]: errors.go; it has no [Unwrap] method. *)
Inductive error : Type :=
| errorString (ptr : string) (s : string)
| wrapError (msg : string) (errs : list error)
| joinError (errs : list error)
| ErrorWithContext (err : error)
| MockExpectationsError (name : string) (errors : list error).

Inductive panicValue : Type :=
| runtimeError (msg : string)
| panicError (e : error).

(** The outcome of a call that may panic. *)
Inductive result (A : Type) : Type :=
| Ok (a : A)
| Panic (v : panicValue).
Arguments Ok {A} a.
Arguments Panic {A} v.

Definition bind {A B} (m : result A) (f : A -> result B) : result B :=
  match m with
  | Ok a => f a
  | Panic v => Panic v
  end.

Definition nilDereference : panicValue :=
  runtimeError "invalid memory address or nil pointer dereference".
Definition indexOutOfRange : panicValue :=
  runtimeError "index out of range".

(** [s[0]] on a slice. *)
Definition first {A} (s : list A) : result A :=
  match s with
  | x :: _ => Ok x
  | [] => Panic indexOutOfRange
  end.

(** *** Integers *)

Definition two64 : Z := 2 ^ 64.
Definition minInt : Z := - 2 ^ 63.
Definition maxInt : Z := 2 ^ 63 - 1.
Definition maxUint : Z := 2 ^ 64 - 1.

(** The conversion [uint(i)]. *)
Definition uint_of_int (i : Z) : Z := i mod two64.
(** The conversion [int(n)]. *)
Definition int_of_uint (n : Z) : Z :=
  if n <=? maxInt then n else n - two64.

Definition digit (d : Z) : ascii := ascii_of_nat (48 + Z.to_nat d).

Fixpoint utoa (fuel : nat) (n : Z) (acc : string) : string :=
  match fuel with
  | O => acc
  | S fuel' =>
      let acc' := String (digit (n mod 10)) acc in
      if n / 10 =? 0 then acc' else utoa fuel' (n / 10) acc'
  end.

(** [strconv.Itoa]. A number has no more decimal digits than bits. *)
Definition Itoa (i : Z) : string :=
  if i <? 0
  then "-" +++ utoa (S (Z.to_nat (Z.log2 (- i)))) (- i) ""
  else utoa (S (Z.to_nat (Z.log2 i))) i "".

Definition isDigit (c : ascii) : bool :=
  let n := Z.of_nat (nat_of_ascii c) in (48 <=? n) && (n <=? 57).
Definition digitValue (c : ascii) : Z := Z.of_nat (nat_of_ascii c) - 48.

Fixpoint digits (s : string) (acc : Z) : option Z :=
  match s with
  | EmptyString => Some acc
  | String c s' =>
      if isDigit c then digits s' (10 * acc + digitValue c) else None
  end.

Definition numError : error :=
  errorString "" "strconv.Atoi: invalid syntax or value out of range".

(** [strconv.Atoi]: an optional sign, then one or more decimal digits, the
    value within [int]. The text of the [*strconv.NumError] is not
    modelled. *)
Definition Atoi (s : string) : Z + error :=
  let '(neg, ds) :=
    match s with
    | String "-" s' => (true, s')
    | String "+" s' => (false, s')
    | _ => (false, s)
    end in
  match ds with
  | EmptyString => inr numError
  | _ =>
      match digits ds 0 with
      | None => inr numError
      | Some n =>
          let i := if neg : bool then - n else n in
          if (minInt <=? i) && (i <=? maxInt) then inl i else inr numError
      end
  end.

(** *** Errors *)

Fixpoint Error (e : error) : string :=
  match e with
  | errorString _ s => s
  | wrapError msg _ => msg
  | joinError errs => String.concat nl (List.map Error errs)
  | ErrorWithContext err => Error err
  | MockExpectationsError name errors =>
      let errs :=
        fold_left (fun errs err => errs +++ ("   " +++ Error err +++ nl))
                  errors "" in
      name +++ ": expectations not met: [" +++ nl +++ errs +++ "]"
  end.

(** [==] on two error values. *)
Fixpoint error_eqb (a b : error) : bool :=
  let fix all2 (l k : list error) : bool :=
    match l, k with
    | [], [] => true
    | x :: l', y :: k' => error_eqb x y && all2 l' k'
    | _, _ => false
    end in
  match a, b with
  | errorString p s, errorString q t => String.eqb p q && String.eqb s t
  | wrapError m l, wrapError n k => String.eqb m n && all2 l k
  | joinError l, joinError k => all2 l k
  | ErrorWithContext x, ErrorWithContext y => error_eqb x y
  | MockExpectationsError m l, MockExpectationsError n k =>
      String.eqb m n && all2 l k
  | _, _ => false
  end.

(** [errors.Is]: the error itself, or anything reached through [Unwrap]. *)
Fixpoint Is (err target : error) : bool :=
  error_eqb err target ||
  match err with
  | wrapError _ errs => existsb (fun e => Is e target) errs
  | joinError errs => existsb (fun e => Is e target) errs
  | ErrorWithContext e => Is e target
  | errorString _ _ | MockExpectationsError _ _ => false
  end.

(** [errors.Join]: nil operands are dropped, and the result is nil when
    nothing is left. *)
Definition Join (errs : list (option error)) : option error :=
  match omap id errs with
  | [] => None
  | es => Some (joinError es)
  end.

(** *** Formatting *)

(** An operand of [fmt.Sprintf] or [fmt.Errorf]. *)
Inductive operand : Type :=
| str (s : string)
| int (i : Z)
| err (e : error).

Definition render (a : operand) : string :=
  match a with
  | str s => s
  | int i => Itoa i
  | err e => Error e
  end.

Definition isVerb (v : ascii) : bool :=
  (Ascii.eqb v "s" || Ascii.eqb v "d" || Ascii.eqb v "w")%bool.

(** [fmt.Sprintf] for the verbs [%s], [%d] and [%w], each of which consumes
    the next operand. *)
Fixpoint Sprintf (format : string) (args : list operand) : string :=
  match format with
  | EmptyString => ""
  | String c tail =>
      match tail with
      | String v rest =>
          if (Ascii.eqb c "%" && isVerb v)%bool
          then match args with
               | a :: args' => render a +++ Sprintf rest args'
               | [] => "%!" +++ String v "(MISSING)" +++ Sprintf rest []
               end
          else String c (Sprintf tail args)
      | EmptyString => String c ""
      end
  end.

Definition wrapOperands (args : list operand) : list error :=
  omap (fun a => match a with err e => Some e | _ => None end) args.

(** [fmt.Errorf]. Every error operand in the code is formatted with [%w]. *)
Definition Errorf (format : string) (args : list operand) : error :=
  match wrapOperands args with
  | [] => errorString "" (Sprintf format args)
  | errs => wrapError (Sprintf format args) errs
  end.

(** [errors.New] for a package-level variable. *)
Definition New (var text : string) : error := errorString var text.

(** *** encoding/json, for a slice of integers *)

(** A slice of integers: nil, or its elements. *)
Definition slice : Type := option (list Z).

Definition elements (s : slice) : list Z := default [] s.

(** The built-in [append(s, xs...)]. *)
Definition append (s : slice) (xs : list Z) : slice :=
  match s, xs with
  | None, [] => None
  | _, _ => Some (elements s ++ xs)%list
  end.

(** [json.Marshal] of a [[]int]. *)
Definition Marshal (s : slice) : string :=
  match s with
  | None => "null"
  | Some l => "[" +++ String.concat "," (List.map Itoa l) +++ "]"
  end.

(** The states of the scanner, restricted to the documents that decode
    into a slice of integers without error: [null], or an array whose
    elements are integer literals or [null]. Every other document, valid
    JSON or not, makes [json.Unmarshal] return an error (a
    [*json.SyntaxError] or a [*json.UnmarshalTypeError]), and is
    [scanError] here. *)
Inductive scan : Type :=
| scanBegin
| scanNull (top : bool) (seen : nat)
| scanOpen
| scanElem
| scanNeg
| scanZero (neg : bool)
| scanInt (neg : bool) (n : Z)
| scanAfter
| scanEndArray
| scanEndNull
| scanError.

(** An element of the array: [null], or a sign and a magnitude. *)
Definition token : Type := option (bool * Z).

Definition isSpace (c : ascii) : bool :=
  (Ascii.eqb c " " || Ascii.eqb c (ascii_of_nat 9)
   || Ascii.eqb c (ascii_of_nat 13) || Ascii.eqb c (ascii_of_nat 10))%bool.

Definition beginElement (c : ascii) : scan :=
  if Ascii.eqb c "-" then scanNeg
  else if Ascii.eqb c "0" then scanZero false
  else if isDigit c then scanInt false (digitValue c)
  else if Ascii.eqb c "n" then scanNull false 1
  else scanError.

Definition endElement (t : token) (acc : list token) (c : ascii)
  : scan * list token :=
  if isSpace c then (scanAfter, t :: acc)
  else if Ascii.eqb c "," then (scanElem, t :: acc)
  else if Ascii.eqb c "]" then (scanEndArray, t :: acc)
  else (scanError, acc).

Definition step (st : scan) (acc : list token) (c : ascii)
  : scan * list token :=
  match st with
  | scanBegin =>
      if isSpace c then (scanBegin, acc)
      else if Ascii.eqb c "[" then (scanOpen, acc)
      else if Ascii.eqb c "n" then (scanNull true 1, acc)
      else (scanError, acc)
  | scanNull top 1%nat =>
      if Ascii.eqb c "u" then (scanNull top 2, acc) else (scanError, acc)
  | scanNull top 2%nat =>
      if Ascii.eqb c "l" then (scanNull top 3, acc) else (scanError, acc)
  | scanNull top _ =>
      if Ascii.eqb c "l"
      then if top then (scanEndNull, acc) else (scanAfter, None :: acc)
      else (scanError, acc)
  | scanOpen =>
      if isSpace c then (scanOpen, acc)
      else if Ascii.eqb c "]" then (scanEndArray, acc)
      else (beginElement c, acc)
  | scanElem =>
      if isSpace c then (scanElem, acc) else (beginElement c, acc)
  | scanNeg =>
      if Ascii.eqb c "0" then (scanZero true, acc)
      else if isDigit c then (scanInt true (digitValue c), acc)
      else (scanError, acc)
  | scanZero neg => endElement (Some (neg, 0)) acc c
  | scanInt neg n =>
      if isDigit c then (scanInt neg (10 * n + digitValue c), acc)
      else endElement (Some (neg, n)) acc c
  | scanAfter =>
      if isSpace c then (scanAfter, acc)
      else if Ascii.eqb c "," then (scanElem, acc)
      else if Ascii.eqb c "]" then (scanEndArray, acc)
      else (scanError, acc)
  | scanEndArray =>
      if isSpace c then (scanEndArray, acc) else (scanError, acc)
  | scanEndNull =>
      if isSpace c then (scanEndNull, acc) else (scanError, acc)
  | scanError => (scanError, acc)
  end.

Fixpoint scanAll (data : string) (st : scan) (acc : list token)
  : scan * list token :=
  match data with
  | EmptyString => (st, acc)
  | String c data' =>
      let '(st', acc') := step st acc c in scanAll data' st' acc'
  end.

(** Storing the elements into the slice the caller passed: element [i] is
    decoded into the element already at index [i] (the zero value beyond
    the length), and [null] leaves that element as it is. [conv] is
    [strconv.ParseInt] or [strconv.ParseUint] with the overflow check of
    the element type. *)
Fixpoint storeAll (conv : bool -> Z -> option Z) (old : list Z)
         (elems : list token) : option (list Z) :=
  match elems with
  | [] => Some []
  | t :: elems' =>
      match match t with
            | None => Some (hd 0 old)
            | Some (neg, n) => conv neg n
            end, storeAll conv (tl old) elems' with
      | Some v, Some rest => Some (v :: rest)
      | _, _ => None
      end
  end.

Definition convInt (neg : bool) (n : Z) : option Z :=
  let v := if neg then - n else n in
  if (minInt <=? v) && (v <=? maxInt) then Some v else None.

Definition convUint (neg : bool) (n : Z) : option Z :=
  if neg then None else if n <=? maxUint then Some n else None.

Definition jsonError : error :=
  errorString "" "json: invalid document, or a value of the wrong type".

(** [json.Unmarshal(data, &s)] for [s] a slice of integers. The slice
    left behind by a failed call is not modelled: no caller reads it. *)
Definition Unmarshal (conv : bool -> Z -> option Z) (s : slice)
           (data : string) : slice + error :=
  match scanAll data scanBegin [] with
  | (scanEndNull, _) => inl None
  | (scanEndArray, acc) =>
      match storeAll conv (elements s) (rev acc) with
      | Some l => inl (Some l)
      | None => inr jsonError
      end
  | _ => inr jsonError
  end.

End Go.

Import Go.

(** ** net/http: requests, responses and bodies *)

(** An [io.ReadCloser] used as a body: the sentinel [http.NoBody], or a
    stream. [Reader data None] is [io.NopCloser(bytes.NewReader(data))];
    [Reader data (Some e)] is a stream that delivers [data] and then fails
    with [e]. A nil body is [None] in the field that holds it. *)
Inductive body : Type :=
| NoBody
| Reader (data : list byte) (err : option error).

(** [io.ReadAll], the initial value of the package variable [ioReadAll]:
    what the call returns. The call consumes the stream; what is left of
    the stream is [drained]. *)
Definition ioReadAll (r : option body) : result (list byte * option error) :=
  match r with
  | None => Panic nilDereference
  | Some NoBody => Ok ([], None)
  | Some (Reader data e) => Ok (data, e)
  end.

(** The stream after [io.ReadAll] has read it: its bytes have been
    delivered and are gone, so that a [bytes.Reader] read again gives no
    bytes and no error; a stream that failed is taken to fail again. The
    sentinel [http.NoBody] has no bytes to lose. *)
Definition drained (r : body) : body :=
  match r with
  | NoBody => NoBody
  | Reader _ e => Reader [] e
  end.

(** [http.Header]. *)
Abbreviation header := (gmap string (list string)).

(** [http.Request], as built by [http.NewRequest]: the URL (held as its
    [String()]) and the header map are not nil; the body is nil for a
    request without one. *)
Module Request.
Record t : Type := mk {
  Method : string;
  URL : string;
  Header : header;
  Body : option body;
  ContentLength : Z
}.
Definition setHeader (rq : t) (h : header) : t :=
  mk (Method rq) (URL rq) h (Body rq) (ContentLength rq).
End Request.

Module Response.
Record t : Type := mk {
  Status : string;
  StatusCode : Z;
  Header : header;
  Body : option body;
  ContentLength : Z
}.
Definition setBody (r : t) (b : body) : t :=
  mk (Status r) (StatusCode r) (Header r) (Some b) (ContentLength r).
Definition setContentLength (r : t) (n : Z) : t :=
  mk (Status r) (StatusCode r) (Header r) (Body r) n.
(** The response once [io.ReadAll] has read the stream that its [Body]
    field points to. *)
Definition drain (r : t) : t :=
  mk (Status r) (StatusCode r) (Header r)
     match Body r with
     | Some b => Some (drained b)
     | None => None
     end
     (ContentLength r).
End Response.

Definition StatusOK : Z := 200.
Definition StatusUnauthorized : Z := 401.
Definition StatusNotFound : Z := 404.

(** ** Package request: the options that write the directive headers *)

Module request.

Definition MaxRetriesHeader : string := "X-Blugnu-Http-Max-Retries".
Definition AcceptStatusHeader : string := "X-Blugnu-Http-Accept-Status".
Definition ResponseBodyRequiredHeader : string :=
  "X-Blugnu-Http-Response-Body-Required".
Definition StreamResponseHeader : string := "X-Blugnu-Http-Stream-Response".

Definition ErrInvalidJSON : error := New "request.ErrInvalidJSON" "invalid json".

(** A request option: the request after the call, and the error returned;
    [Panic] when the call panics. *)
Definition option_result : Type := result (Request.t * option error).

Definition AcceptStatus (statusCodes : list Z) (rq : Request.t)
  : option_result :=
  let handle (e : error) : error :=
    Errorf "request.AcceptStatus: %w" [err e] in
  let store (acc : slice) : option_result :=
    let acc := append acc statusCodes in
    let h := Marshal acc in
    Ok (Request.setHeader rq
          (<[AcceptStatusHeader := [h]]> (Request.Header rq)), None) in
  let acc : slice := Some [StatusOK] in
  match Request.Header rq !! AcceptStatusHeader with
  | Some h =>
      bind (first h) (fun h0 =>
        match Unmarshal convInt acc h0 with
        | inr e =>
            Ok (rq, Some (handle (Errorf "%w: %w" [err ErrInvalidJSON; err e])))
        | inl acc => store acc
        end)
  | None => store acc
  end.

Definition MaxRetries (n : Z) (rq : Request.t) : option_result :=
  Ok (Request.setHeader rq
        (<[MaxRetriesHeader := [Itoa (int_of_uint n)]]> (Request.Header rq)),
      None).

Definition ResponseBodyRequired (rq : Request.t) : option_result :=
  Ok (Request.setHeader rq
        (<[ResponseBodyRequiredHeader := ["true"]]> (Request.Header rq)),
      None).

(** [StreamResponse] returns a function without a result. *)
Definition StreamResponse (r : Request.t) : Request.t :=
  Request.setHeader r
    (<[StreamResponseHeader := ["true"]]> (Request.Header r)).

End request.

(** ** github.com/blugnu/errorcontext

    An external module. Its errors carry the context and unwrap to the
    error they were made from; [Wrap] wraps every error it is given. *)
Module errorcontext.

Definition Errorf (format : string) (args : list operand) : error :=
  ErrorWithContext (Go.Errorf format args).

Definition Wrap (e : error) (errs : list error) : error :=
  match errs with
  | [] => ErrorWithContext e
  | _ => ErrorWithContext
           (wrapError (Error e +++ ": " +++ Error (joinError errs))
                      (e :: errs))
  end.

End errorcontext.

(** ** Package http: errors.go *)

Definition ErrInitialisingClient : error :=
  New "ErrInitialisingClient" "error initialising client".
Definition ErrInitialisingRequest : error :=
  New "ErrInitialisingRequest" "error initialising request".
Definition ErrInvalidJSON : error := New "ErrInvalidJSON" "invalid json".
Definition ErrInvalidRequestHeader : error :=
  New "ErrInvalidRequestHeader" "invalid request headers".
Definition ErrInvalidURL : error := New "ErrInvalidURL" "invalid url".
Definition ErrMaxRetriesExceeded : error :=
  New "ErrMaxRetriesExceeded" "http retries exceeded".
Definition ErrNoResponseBody : error :=
  New "ErrNoResponseBody" "response body was empty".
Definition ErrReadingResponseBody : error :=
  New "ErrReadingResponseBody" "error reading response body".
Definition ErrUnexpectedStatusCode : error :=
  New "ErrUnexpectedStatusCode" "unexpected status code".
Definition ErrCannotChangeExpectations : error :=
  New "ErrCannotChangeExpectations" "expectations cannot be changed".
Definition ErrUnexpectedRequest : error :=
  New "ErrUnexpectedRequest" "unexpected request".

(** ** Package http: the execution engine (barrel.go) *)

(** What a call of a [Do] method returns: the response pointer, nil when
    [None], and the error. *)
Definition response_error : Type := option Response.t * option error.

(** The four directives read from the reserved headers. *)
Record directives : Type := mkDirectives {
  retries : Z;
  acceptableStatusCodes : slice;
  responseBodyRequired : bool;
  streamResponse : bool
}.

Definition reserved : list string :=
  [ request.MaxRetriesHeader; request.AcceptStatusHeader;
    request.ResponseBodyRequiredHeader; request.StreamResponseHeader ].

Section Engine.

(** The wrapped [ClientInterface] is an object with a state of its own of
    type [T]; a call of its [Do] takes the state and the request and gives
    the next state and what it returns. It reads the request and does not
    write to it. *)
Context {T : Type}.

Record client : Type := mkClient {
  name : string;
  url : string;
  wrapped : T -> Request.t -> T * response_error;
  maxRetries : Z
}.

(** The loop of [client.do], entered with [n] retries left. *)
Fixpoint do_loop (c : client) (rq : Request.t) (retries : Z)
         (accept : slice) (n : nat) (st : T) : T * result response_error :=
  let '(st, (r, e)) := wrapped c st rq in
  match e with
  | Some e =>
      if retries =? 0 then (st, Ok (r, Some e))
      else match n with
           | O => (st, Ok (r, Some (errorcontext.Wrap ErrMaxRetriesExceeded [e])))
           | S n => do_loop c rq retries accept n st
           end
  | None =>
      match r with
      | None => (st, Panic nilDereference)
      | Some r' =>
          if existsb (fun sc => uint_of_int (Response.StatusCode r') =? sc)
                     (elements accept)
          then (st, Ok (r, None))
          else (st, Ok (r, Some (errorcontext.Errorf "%w: %s"
                                   [err ErrUnexpectedStatusCode;
                                    str (Response.Status r')])))
      end
  end.

Definition do (c : client) (rq : Request.t) (retries : Z) (accept : slice)
           (st : T) : T * result response_error :=
  do_loop c rq retries accept (Z.to_nat retries) st.

(** The body of the closure [parse] of [parseRequestHeaders], given the
    values found under the header, if any: [fn] is called with the first
    of them. The result is the value [fn] stored, if it ran and stored
    one, and the error. *)
Definition parsed {A} (values : option (list string)) (hdr : string)
           (fn : string -> A + error) : result (option A * option error) :=
  match values with
  | Some s =>
      bind (first s) (fun s0 =>
        match fn s0 with
        | inl a => Ok (Some a, None)
        | inr e =>
            Ok (None, Some (errorcontext.Errorf "%w: %s: %w"
                              [err ErrInvalidRequestHeader; str hdr; err e]))
        end)
  | None => Ok (None, None)
  end.

(** The closure [parse]: the deferred [delete] runs when the closure is
    left, by return or by panic. *)
Definition parse {A} (h : header) (hdr : string) (fn : string -> A + error)
  : header * result (option A * option error) :=
  (delete hdr h, parsed (h !! hdr) hdr fn).

Definition parseMaxRetries (s : string) : Z + error :=
  match Atoi s with
  | inr e => inr e
  | inl i => inl (uint_of_int i)
  end.

Definition parseAcceptStatus (s : string) : slice + error :=
  match Unmarshal convUint (Some [StatusOK]) s with
  | inr e => inr (Go.Errorf "%w: %w" [err ErrInvalidJSON; err e])
  | inl codes => inl codes
  end.

Definition parseFlag (s : string) : bool + error := inl (String.eqb s "true").

(** [client.parseRequestHeaders]: the request with the headers deleted,
    and the directives or the joined error. The Go function also returns
    directive values next to a non-nil error; its caller drops them, and
    they are not part of the result here. *)
Definition parseRequestHeaders (c : client) (rq : Request.t)
  : Request.t * result (directives + error) :=
  let h := Request.Header rq in
  let '(h, r1) := parse h request.MaxRetriesHeader parseMaxRetries in
  match r1 with
  | Panic v => (Request.setHeader rq h, Panic v)
  | Ok (v1, e1) =>
  let '(h, r2) := parse h request.AcceptStatusHeader parseAcceptStatus in
  match r2 with
  | Panic v => (Request.setHeader rq h, Panic v)
  | Ok (v2, e2) =>
  let '(h, r3) := parse h request.ResponseBodyRequiredHeader parseFlag in
  match r3 with
  | Panic v => (Request.setHeader rq h, Panic v)
  | Ok (v3, e3) =>
  let '(h, r4) := parse h request.StreamResponseHeader parseFlag in
  match r4 with
  | Panic v => (Request.setHeader rq h, Panic v)
  | Ok (v4, e4) =>
      (Request.setHeader rq h,
       Ok match Join [e1; e2; e3; e4] with
          | Some e => inr e
          | None =>
              inl {| retries := default (maxRetries c) v1;
                     acceptableStatusCodes := default (Some [StatusOK]) v2;
                     responseBodyRequired := default false v3;
                     streamResponse := default false v4 |}
          end)
  end end end end.

(** [client.Do]: the state of the wrapped client and the request after
    the call, and what the call returns. Reading the body consumes the
    stream that the wrapped client returned ([Response.drain]); the body
    of the response is then replaced, by [http.NoBody] and, when bytes
    were read, by a reader over those bytes. *)
Definition Do (c : client) (st : T) (rq : Request.t)
  : T * Request.t * result response_error :=
  let '(rq, parsed) := parseRequestHeaders c rq in
  let handle (r : option Response.t) (e : error) : response_error :=
    (r, Some (errorcontext.Errorf "%s: %s %s: %w"
                [str (name c); str (Request.Method rq);
                 str (Request.URL rq); err e])) in
  match parsed with
  | Panic v => (st, rq, Panic v)
  | Ok (inr e) => (st, rq, Ok (handle None e))
  | Ok (inl d) =>
      let '(st, done) :=
        do c rq (retries d) (acceptableStatusCodes d) st in
      (st, rq,
       match done with
       | Panic v => Panic v
       | Ok (r, Some e) => Ok (handle r e)
       | Ok (r, None) =>
           if streamResponse d then Ok (r, None)
           else
             match r with
             | None => Panic nilDereference
             | Some r =>
                 bind (ioReadAll (Response.Body r)) (fun '(body, e) =>
                   let r := Response.drain r in
                   let r := Response.setContentLength r 0 in
                   let r := Response.setBody r NoBody in
                   match e with
                   | Some e =>
                       Ok (handle (Some r)
                             (errorcontext.Errorf "response.Body: %w" [err e]))
                   | None =>
                       if (Z.of_nat (length body) =? 0)
                          && responseBodyRequired d
                       then Ok (handle (Some r) ErrNoResponseBody)
                       else if Z.of_nat (length body) =? 0
                       then Ok (Some r, None)
                       else
                         let r := Response.setContentLength r
                                    (Z.of_nat (length body)) in
                         let r := Response.setBody r (Reader body None) in
                         Ok (Some r, None)
                   end)
             end
       end)
  end.

End Engine.

Arguments client : clear implicits.


(** ** Package http: the mock client (mockResponse.go, mockRequest.go,
    mockClient.go) *)

Module mockResponse.
Record t : Type := mk {
  body : list byte;
  headers : option (gmap string string);
  statusCode : option Z;
  Err : option error
}.
End mockResponse.

Definition newline : byte := "010"%byte.

(** [bytes.Split(s, []byte("\n"))]. *)
Fixpoint splitLines (s : list byte) : list (list byte) :=
  match s with
  | [] => [[]]
  | b :: s' =>
      if Byte.eqb b newline then [] :: splitLines s'
      else match splitLines s' with
           | line :: lines => (b :: line) :: lines
           | [] => [[b]]
           end
  end.

Definition bytes_eqb (a b : list byte) : bool :=
  String.eqb (string_of_list_byte a) (string_of_list_byte b).

Module MockRequest.

(** The field [client], a pointer back to the mock client, is read by no
    method and is left out. A nil [headers] map is the empty map. *)
Record t : Type := mk {
  index : Z;
  method : option string;
  body : option (list byte);
  url : string;
  headers : gmap string (option string);
  actual : option Request.t;
  isExpected : bool;
  Response : option mockResponse.t
}.

Definition checkMethodExpectation (rq : t) (actual : Request.t) : list string :=
  match method rq with
  | Some m =>
      if negb (String.eqb m (Request.Method actual))
      then [ Sprintf "expected method: %s" [str m];
             Sprintf "   got         : %s" [str (Request.Method actual)] ]
      else []
  | None => []
  end.

Definition checkURLExpectation (rq : t) (actual : Request.t) : list string :=
  let u := if String.eqb (url rq) "" then "<not specified>" else url rq in
  if negb (String.eqb (url rq) (Request.URL actual))
  then [ Sprintf "expected url: %s" [str u];
         Sprintf "   got      : %s" [str (Request.URL actual)] ]
  else [].

(** The dump of the headers of the actual request; [av[0]] panics on a
    header without values. *)
Fixpoint dumpHeaders (hs : list (string * list string)) : result (list string) :=
  match hs with
  | [] => Ok []
  | (k, av) :: hs' =>
      bind (first av) (fun av0 =>
      bind (dumpHeaders hs') (fun rpt =>
      Ok (Sprintf "             %s: %s" [str k; str av0] :: rpt)))
  end.

Definition checkHeader (actual : Request.t) (k : string) (v : option string)
  : result (list string) :=
  bind match Request.Header actual !! k with
       | Some av => bind (first av) (fun av0 => Ok (true, av0))
       | None => Ok (false, "")
       end (fun '(present, avs) =>
  match present, v with
  | false, None =>
      bind (dumpHeaders (map_to_list (Request.Header actual))) (fun dump =>
      Ok ([Sprintf "header not set: %s" [str k]; "           got: ["]
            ++ dump ++ ["           ]"])%list)
  | false, Some v =>
      bind (dumpHeaders (map_to_list (Request.Header actual))) (fun dump =>
      Ok ([Sprintf "header not set: %s: %s" [str k; str v];
           "           got: ["] ++ dump ++ ["           ]"])%list)
  | true, Some v =>
      if negb (String.eqb avs v)
      then Ok [ Sprintf "expected header: %s: %s" [str k; str v];
                Sprintf "   got         : %s: %s" [str k; str avs] ]
      else Ok []
  | true, None => Ok []
  end).

Fixpoint checkHeaders (actual : Request.t) (hs : list (string * option string))
  : result (list string) :=
  match hs with
  | [] => Ok []
  | (k, v) :: hs' =>
      bind (checkHeader actual k v) (fun rpt =>
      bind (checkHeaders actual hs') (fun rpt' => Ok (rpt ++ rpt')%list))
  end.

(** Go does not fix the order in which [range] visits a map; here it is
    the order of [map_to_list]. The order decides the order of the lines
    of the report, and which of several panics is raised, and nothing
    else. *)
Definition checkHeadersExpectation (rq : t) (actual : Request.t)
  : result (list string) :=
  checkHeaders actual (map_to_list (headers rq)).

Definition checkBodyExpectation (rq : t) (actual : Request.t)
  : result (list string) :=
  match body rq with
  | None => Ok []
  | Some expected =>
      bind (ioReadAll (Request.Body actual)) (fun '(actual, _) =>
      if bytes_eqb expected actual then Ok []
      else if Z.of_nat (length expected) =? 0
      then Ok [ "expected: <no body>";
                Sprintf "   got  : %d bytes" [int (Z.of_nat (length actual))] ]
      else if Z.of_nat (length actual) =? 0
      then Ok [ Sprintf "expected: %d bytes" [int (Z.of_nat (length expected))];
                "   got  : <no body>" ]
      else
        let line (b : list byte) : string :=
          Sprintf "         |%s" [str (string_of_list_byte b)] in
        Ok ([ "request body differs from expected"; "   got   :_________" ]
              ++ List.map line (splitLines actual)
              ++ [ "   wanted:_________" ]
              ++ List.map line (splitLines expected))%list)
  end.

Definition checkExpectations (rq : t) : result (list string) :=
  match isExpected rq, actual rq with
  | false, None => Ok []
  | false, Some a =>
      Ok [ Sprintf "  got: %s %s" [str (Request.Method a); str (Request.URL a)] ]
  | true, None => Ok [ "  got: <no request>" ]
  | true, Some a =>
      bind (checkHeadersExpectation rq a) (fun hs =>
      bind (checkBodyExpectation rq a) (fun b =>
      Ok (checkMethodExpectation rq a ++ checkURLExpectation rq a
            ++ hs ++ b)%list))
  end.

Definition WillNotBeCalled (rq : t) : t :=
  mk (index rq) (method rq) (body rq) (url rq) (headers rq) (actual rq)
     false (Response rq).

Definition setResponse (rq : t) (r : mockResponse.t) : t :=
  mk (index rq) (method rq) (body rq) (url rq) (headers rq) (actual rq)
     (isExpected rq) (Some r).

Definition WillRespond (rq : t) : t :=
  setResponse rq (mockResponse.mk [] (Some ∅) None None).

Definition WillReturnError (e : error) (rq : t) : t :=
  setResponse rq (mockResponse.mk [] None None (Some e)).

Definition WithBody (b : list byte) (rq : t) : t :=
  mk (index rq) (method rq) (Some b) (url rq) (headers rq) (actual rq)
     (isExpected rq) (Response rq).

Definition WithNonCanonicalHeader (k : string) (v : list string) (rq : t) : t :=
  mk (index rq) (method rq) (body rq) (url rq)
     (<[k := match v with kv :: _ => Some kv | [] => None end]> (headers rq))
     (actual rq) (isExpected rq) (Response rq).

Definition setActual (rq : t) (a : Request.t) : t :=
  mk (index rq) (method rq) (body rq) (url rq) (headers rq) (Some a)
     (isExpected rq) (Response rq).

End MockRequest.

Definition firstExpectedRequest : Z := 0.
Definition noExpectedRequests : Z := -1.

Module mockClient.

(** The expectations are held by pointer in Go: the [*MockRequest] that
    [Expect] returns is the element of [expectations] at its [index], and
    a method called on it changes that element ([configure]). *)
Record t : Type := mk {
  name : string;
  hostname : string;
  expectations : list MockRequest.t;
  unexpected : list Request.t;
  next : Z
}.

(** The mock client made by [NewMockClient]. *)
Definition new (name : string) : t :=
  mk name "mock://hostname" [] [] noExpectedRequests.

Definition configure (i : Z) (f : MockRequest.t -> MockRequest.t) (mock : t) : t :=
  mk (name mock) (hostname mock)
     (alter f (Z.to_nat i) (expectations mock))
     (unexpected mock) (next mock).

Section External.

(** [url.JoinPath] of net/url, for one path element. *)
Variable JoinPath : string -> string -> string + error.

(** The package variable [writeBody]: the error of writing these bytes
    to the response writer ([rw.Write] until a test replaces it). *)
Variable writeBody : list byte -> option error.

(** The [httptest.ResponseRecorder]: the [Result()] of a recorder whose
    handler has set these headers, then called [WriteHeader] with this
    status code, if any, then written these bytes, if any. [WriteHeader]
    panics on a code outside 100..999. *)
Variable recorded :
  gmap string string -> option Z -> list byte -> result Response.t.

Definition defaultResponse (expected : MockRequest.t) : result response_error :=
  match MockRequest.Response expected with
  | None =>
      bind (recorded ∅ (Some StatusOK) []) (fun response =>
      Ok (Some (Response.setBody response NoBody), None))
  | Some r =>
      bind (recorded (default ∅ (mockResponse.headers r))
                     (mockResponse.statusCode r)
                     (mockResponse.body r)) (fun response =>
      let bodyerr :=
        if 0 <? Z.of_nat (length (mockResponse.body r))
        then writeBody (mockResponse.body r) else None in
      match bodyerr with
      | Some e => Ok (None, Some e)
      | None =>
          let response :=
            if Z.of_nat (length (mockResponse.body r)) =? 0
            then Response.setBody response NoBody else response in
          Ok (Some response, mockResponse.Err r)
      end)
  end.

(** [mockClient.Do]: the mock client after the call and what the call
    returns. The expectation at [next] takes the request as its [actual]
    and [next] advances before the response is made, so both changes
    stand when [defaultResponse] panics. A negative [next] other than
    [noExpectedRequests] passes the test of the [if] and indexes out of
    range. *)
Definition Do (mock : t) (rq : Request.t) : t * result response_error :=
  let record (mock : t) : t * result response_error :=
    (mk (name mock) (hostname mock) (expectations mock)
        (unexpected mock ++ [rq])%list (next mock),
     Ok (None, Some ErrUnexpectedRequest)) in
  if negb (next mock =? noExpectedRequests)
     && (next mock <? Z.of_nat (length (expectations mock)))
  then
    if next mock <? 0 then (mock, Panic indexOutOfRange)
    else
      match expectations mock !! Z.to_nat (next mock) with
      | None => (mock, Panic indexOutOfRange)
      | Some expected =>
          let expected := MockRequest.setActual expected rq in
          let mock :=
            mk (name mock) (hostname mock)
               (<[Z.to_nat (next mock) := expected]> (expectations mock))
               (unexpected mock) (next mock + 1) in
          if negb (MockRequest.isExpected expected)
          then record mock
          else (mock, defaultResponse expected)
      end
  else record mock.

Definition anyMethod (rq : MockRequest.t) : string :=
  match MockRequest.method rq with
  | Some m => m
  | None => "<ANY METHOD>"
  end.

(** The error that opens the report of a failed expectation. *)
Definition expecting (rq : MockRequest.t) : error :=
  Errorf "request #%d: expecting: %s %s"
    [int (MockRequest.index rq + 1); str (anyMethod rq);
     str (MockRequest.url rq)].

(** The error for the unexpected request at index [ix], with [n]
    expectations. *)
Definition notExpected (n ix : Z) (rq : Request.t) : error :=
  Errorf "request #%d: unexpected: %s %s"
    [int (n + ix + 1); str (Request.Method rq); str (Request.URL rq)].

Definition detail (s : string) : error := Errorf "   %s" [str s].

(** The first loop of [ExpectationsWereMet]. *)
Fixpoint failed (rqs : list MockRequest.t) : result (list error) :=
  match rqs with
  | [] => Ok []
  | rq :: rqs' =>
      bind (MockRequest.checkExpectations rq) (fun rpt =>
      bind (failed rqs') (fun errs =>
      Ok (if 0 <? Z.of_nat (length rpt)
          then expecting rq :: List.map detail rpt ++ errs
          else errs)))
  end.

(** The second loop, entered at index [ix]. *)
Fixpoint surplus (n : Z) (ix : Z) (rqs : list Request.t) : list error :=
  match rqs with
  | [] => []
  | rq :: rqs' => notExpected n ix rq :: surplus n (ix + 1) rqs'
  end.

(** [mockClient.ExpectationsWereMet]. Reading the body of an actual
    request consumes it; the consumed state is not kept, so the model
    describes the first call. *)
Definition ExpectationsWereMet (mock : t) : result (option error) :=
  bind (failed (expectations mock)) (fun errs =>
  let errs :=
    (errs ++ surplus (Z.of_nat (length (expectations mock))) 0
                     (unexpected mock))%list in
  if 0 <? Z.of_nat (length errs)
  then Ok (Some (MockExpectationsError (name mock) errs))
  else Ok None).

(** [mockClient.Expect]: the mock client with the new expectation and
    the index at which the returned [*MockRequest] lives. *)
Definition Expect (mock : t) (method path : string) : result (t * Z) :=
  if 0 <? next mock
  then
    let msg := "requests have already been made" in
    Panic (panicError (Errorf "%s: %w: %s"
             [str (name mock); err ErrCannotChangeExpectations; str msg]))
  else
    match JoinPath (hostname mock) path with
    | inr e =>
        let msg :=
          Sprintf "client url (%s) and/or request path (%s) are invalid"
            [str (hostname mock); str path] in
        Panic (panicError (Errorf "%w: %s: %w"
                 [err ErrInvalidURL; str msg; err e]))
    | inl fqu =>
        let rq :=
          MockRequest.mk (Z.of_nat (length (expectations mock)))
            (Some method) None fqu ∅ None true None in
        let expectations := (expectations mock ++ [rq])%list in
        Ok (mk (name mock) (hostname mock) expectations (unexpected mock)
               (if Z.of_nat (length expectations) =? 1 then 0 else next mock),
            MockRequest.index rq)
    end.

Definition ExpectDelete (mock : t) (path : string) := Expect mock "DELETE" path.
Definition ExpectGet (mock : t) (path : string) := Expect mock "GET" path.
Definition ExpectPatch (mock : t) (path : string) := Expect mock "PATCH" path.
Definition ExpectPost (mock : t) (path : string) := Expect mock "POST" path.
Definition ExpectPut (mock : t) (path : string) := Expect mock "PUT" path.

Definition Reset (mock : t) : t :=
  mk (name mock) (hostname mock) [] [] noExpectedRequests.

End External.

End mockClient.

(** ** Observing the wrapped client *)

(** A wrapped client that keeps the requests it is given, in order, next to
    its own state, as [fakeClient] does in client_test.go. *)
Definition recording {T : Type} (w : T -> Request.t -> T * response_error)
  : T * list Request.t -> Request.t -> (T * list Request.t) * response_error :=
  fun '(st, log) rq =>
    let '(st', out) := w st rq in ((st', log ++ [rq])%list, out).

Definition observed {T : Type} (c : client T) : client (T * list Request.t) :=
  mkClient (name c) (url c) (recording (wrapped c)) (maxRetries c).

(** The wrapped client fails every call. *)
Definition alwaysFails {T : Type} (w : T -> Request.t -> T * response_error) : Prop :=
  forall st rq, is_Some (snd (snd (w st rq))).

(** The state of the wrapped client after [k] calls with [rq]. *)
Definition after {T : Type} (w : T -> Request.t -> T * response_error)
           (rq : Request.t) (k : nat) (st : T) : T :=
  Nat.iter k (fun st => fst (w st rq)) st.

(** No reserved header is left on the request. *)
Definition stripped (rq : Request.t) : Prop :=
  Forall (fun k => Request.Header rq !! k = None) reserved.

(** The status codes a response may have, as a set. *)
Definition statusSet (accept : slice) : gset Z := list_to_set (elements accept).

Definition setAccept (d : directives) (accept : slice) : directives :=
  mkDirectives (retries d) accept (responseBodyRequired d) (streamResponse d).

(** The header map without the reserved headers. *)
Definition strip (h : header) : header :=
  delete request.StreamResponseHeader
    (delete request.ResponseBodyRequiredHeader
       (delete request.AcceptStatusHeader
          (delete request.MaxRetriesHeader h))).

(** Every reserved header that is set has a value. *)
Definition valued (h : header) : Prop :=
  Forall (fun k => h !! k <> Some []) reserved.

(** What [parseRequestHeaders] returns, from the values under the four
    reserved headers. *)
Definition directivesFrom (maxRetries : Z) (o1 o2 o3 o4 : option (list string))
  : result (directives + error) :=
  bind (parsed o1 request.MaxRetriesHeader parseMaxRetries) (fun '(v1, e1) =>
  bind (parsed o2 request.AcceptStatusHeader parseAcceptStatus) (fun '(v2, e2) =>
  bind (parsed o3 request.ResponseBodyRequiredHeader parseFlag) (fun '(v3, e3) =>
  bind (parsed o4 request.StreamResponseHeader parseFlag) (fun '(v4, e4) =>
  Ok match Join [e1; e2; e3; e4] with
     | Some e => inr e
     | None =>
         inl {| retries := default maxRetries v1;
                acceptableStatusCodes := default (Some [StatusOK]) v2;
                responseBodyRequired := default false v3;
                streamResponse := default false v4 |}
     end)))).

(** An actual request that the checks of an expectation can read: its
    body is not nil when a body is expected, and each of its headers has a
    value. *)
Definition readable (rq : MockRequest.t) : Prop :=
  match MockRequest.actual rq with
  | None => True
  | Some a =>
      (MockRequest.body rq = None \/ Request.Body a <> None)
      /\ forall k vs, Request.Header a !! k = Some vs -> vs <> []
  end.

(** The mock client keeps [next] at [noExpectedRequests] or above. *)
Definition cursorValid (mock : mockClient.t) : Prop :=
  noExpectedRequests <= mockClient.next mock.

Section Reachable.

Variable JoinPath : string -> string -> string + error.
Variable writeBody : list byte -> option error.
Variable recorded :
  gmap string string -> option Z -> list byte -> result Response.t.

(** The mock clients that a test can get to: from [NewMockClient], by
    requests, by [Expect] when it returns, by any method of an
    expectation, and by [Reset]. *)
Inductive reachable : mockClient.t -> Prop :=
| reachable_new (name : string) : reachable (mockClient.new name)
| reachable_Do (mock : mockClient.t) (rq : Request.t) :
    reachable mock ->
    reachable (fst (mockClient.Do writeBody recorded mock rq))
| reachable_Expect (mock mock' : mockClient.t) (method path : string) (i : Z) :
    reachable mock ->
    mockClient.Expect JoinPath mock method path = Ok (mock', i) ->
    reachable mock'
| reachable_configure (mock : mockClient.t) (i : Z)
                      (f : MockRequest.t -> MockRequest.t) :
    reachable mock -> reachable (mockClient.configure i f mock)
| reachable_Reset (mock : mockClient.t) :
    reachable mock -> reachable (mockClient.Reset mock).

End Reachable.

(** ** Instances for the examples *)

(** [fakeClient] of client_test.go, without its log: it fails with its
    error when it has one, and otherwise answers with its status code and
    body as the recorder of net/http/httptest builds them (the status text
    and the sniffed content type are left out). *)
Record fakeClient : Type := mkFake {
  fakeBody : option (list byte);
  fakeStatusCode : Z;
  fakeError : option error
}.

Definition fakeDo (fake : fakeClient) (rq : Request.t) : fakeClient * response_error :=
  match fakeError fake with
  | Some e => (fake, (None, Some e))
  | None =>
      let code := if fakeStatusCode fake =? 0 then StatusOK else fakeStatusCode fake in
      (fake, (Some (Response.mk (Itoa code) code ∅
                      (Some (Reader (default [] (fakeBody fake)) None)) (-1)),
              None))
  end.

(** A stand-in for [url.JoinPath]: right when the base has no trailing
    slash and the path is a clean relative path with nothing to escape. *)
Definition joinPath (base path : string) : string + error :=
  inl (base +++ "/" +++ path).

(** [rw.Write] on a recorder does not fail. *)
Definition rwWrite (d : list byte) : option error := None.

(** A stand-in for the recorder (no status text, no sniffed content type,
    content length unknown). *)
Definition recorder (hs : gmap string string) (code : option Z) (b : list byte)
  : result Response.t :=
  let code := default StatusOK code in
  if (code <? 100) || (999 <? code)
  then Panic (runtimeError "invalid WriteHeader code")
  else Ok (Response.mk (Itoa code) code ((fun v => [v]) <$> hs)
             (Some (Reader b None)) (-1)).

(** A wrapped client that fails every call with [e] and counts the calls. *)
Definition failWith (e : error) (calls : nat) (rq : Request.t)
  : nat * response_error :=
  (S calls, (None, Some e)).

Definition bytes (s : string) : list byte := list_byte_of_string s.

Definition newRequest (method url : string) : Request.t :=
  Request.mk method url ∅ None 0.

Definition permanentFailure : error := errorString "" "permanent failure".

(** A client with two retries whose wrapped client always fails. *)
Definition retryClient : client nat :=
  mkClient "api" "http://host" (failWith permanentFailure) 2.

(** A client over [fakeClient], without retries. *)
Definition fakeClientOf : client fakeClient := mkClient "api" "http://host" fakeDo 0.

Definition bareRequest : Request.t := newRequest "GET" "http://host/path".

(** A request that asks for one retry. *)
Definition retryRequest : Request.t :=
  Request.setHeader bareRequest {[ request.MaxRetriesHeader := ["1"] ]}.

(** A request that asks both for streaming and for a response body. *)
Definition streamRequest : Request.t :=
  Request.setHeader bareRequest
    {[ request.StreamResponseHeader := ["true"];
       request.ResponseBodyRequiredHeader := ["true"] ]}.

(** A mock client with one expectation, marked as not expected. *)
Definition refusingMock : mockClient.t :=
  mockClient.mk "mock" "mock://hostname"
    [ MockRequest.mk 0 (Some "GET") None "mock://hostname/path" ∅ None false None ]
    [] 0.

(** What [fakeDo] answers for a body [b] and no status code. *)
Definition fakeResponse (b : list byte) : Response.t :=
  Response.mk "200" 200 ∅ (Some (Reader b None)) (-1).

(** The outcome of [Do] on a client over [fakeClient], with the number of
    requests the fake has seen. *)
Definition run (fake : fakeClient) (maxRetries : Z) (rq : Request.t)
  : nat * Request.t * result response_error :=
  let '((_, log), rq', out) :=
    Do (observed (mkClient "" "" fakeDo maxRetries)) (fake, []) rq in
  (length log, rq', out).

Definition withHeader (k v : string) : Request.t :=
  Request.setHeader (newRequest "" "") {[ k := [v] ]}.

Definition errorIs (out : result response_error) (target : error) : bool :=
  match out with
  | Ok (_, Some e) => Is e target
  | _ => false
  end.

Definition response (out : result response_error) : option Response.t :=
  match out with
  | Ok (r, _) => r
  | Panic _ => None
  end.

(** The example of the specification: two retries, a wrapped client that
    fails twice and then answers 404 with a body, and 404 accepted. *)
Definition failsTwice (calls : nat) (rq : Request.t) : nat * response_error :=
  (S calls,
   if (calls <? 2)%nat then (None, Some permanentFailure)
   else (Some (Response.mk "404" 404 ∅
                 (Some (Reader (bytes "not found") None)) (-1)),
         None)).

(** ** Package http: making clients and requests (barrel.go, and the
    client options) *)

(** A [*url.URL], as far as the client options read it: what [IsAbs()]
    and [String()] return. *)
Record netURL : Type := mkURL {
  IsAbs : bool;
  URLString : string
}.

(** The argument of the option [URL], of type [any]: a string, a
    [*url.URL], nil when [None], or a value of another type. *)
Inductive anyURL : Type :=
| ofString (s : string)
| ofURL (u : option netURL)
| ofOther.

Section Construction.

Context {T : Type}.

(** [url.Parse] of net/url. *)
Variable urlParse : string -> netURL + error.

(** [http.DefaultClient]. *)
Variable DefaultClient : T -> Request.t -> T * response_error.

(** [url.JoinPath] of net/url, for one path element. *)
Variable JoinPath : string -> string -> string + error.

(** [http.NewRequestWithContext] with a nil body. *)
Variable NewRequestWithContext : string -> string -> Request.t + error.

(** A client option: the client after the call and the error returned;
    [Panic] when the call panics. *)
Definition ClientOption : Type :=
  client T -> result (client T * option error).

Definition MaxRetries (n : Z) : ClientOption :=
  fun c => Ok (mkClient (name c) (url c) (wrapped c) n, None).

Definition URL (u : anyURL) : ClientOption :=
  fun c =>
    let absolute (u : option netURL) : result (client T * option error) :=
      match u with
      | None => Panic nilDereference
      | Some u =>
          if negb (IsAbs u)
          then Ok (c, Some (Go.Errorf "http: URL option: %w: URL must be absolute"
                              [err ErrInvalidURL]))
          else Ok (mkClient (name c) (URLString u) (wrapped c) (maxRetries c),
                   None)
      end in
    match u with
    | ofString s =>
        match urlParse s with
        | inr e =>
            Ok (c, Some (Go.Errorf "http: URL option: %w: %w"
                           [err ErrInvalidURL; err e]))
        | inl u => absolute (Some u)
        end
    | ofURL u => absolute u
    | ofOther =>
        Ok (c, Some (Go.Errorf
                       "http: URL option: %w: must be a string or *url.URL"
                       [err ErrInvalidURL]))
    end.

Definition Using (httpClient : T -> Request.t -> T * response_error)
  : ClientOption :=
  fun c => Ok (mkClient (name c) (url c) httpClient (maxRetries c), None).

(** The loop of [NewClient]: every option is applied, and the errors are
    collected. *)
Fixpoint applied (opts : list ClientOption) (w : client T)
         (errs : list error) : result (client T * list error) :=
  match opts with
  | [] => Ok (w, errs)
  | opt :: opts' =>
      bind (opt w) (fun '(w, e) =>
        applied opts' w match e with
                        | Some e => (errs ++ [e])%list
                        | None => errs
                        end)
  end.

(** [NewClient]: the client, or the error. No element of [errs] is nil,
    so [errors.Join] keeps them all. *)
Definition NewClient (name : string) (opts : list ClientOption)
  : result (client T + error) :=
  let w := mkClient name "" DefaultClient 0 in
  bind (applied opts w []) (fun '(w, errs) =>
    if 0 <? Z.of_nat (length errs)
    then Ok (inr (Go.Errorf "%w: %w"
                    [err ErrInitialisingClient; err (joinError errs)]))
    else Ok (inl w)).

Definition RequestOption : Type := Request.t -> request.option_result.

(** The loop of [NewRequest]: it is left at the first option that returns
    an error. *)
Fixpoint configured (opts : list RequestOption) (rq : Request.t)
  : result (Request.t + error) :=
  match opts with
  | [] => Ok (inl rq)
  | opt :: opts' =>
      bind (opt rq) (fun '(rq, e) =>
        match e with
        | Some e => Ok (inr (errorcontext.Errorf "NewRequest: %w" [err e]))
        | None => configured opts' rq
        end)
  end.

(** [client.NewRequest]: the request, or the error. *)
Definition NewRequest (c : client T) (method path : string)
           (opts : list RequestOption) : result (Request.t + error) :=
  match JoinPath (url c) path with
  | inr e =>
      Ok (inr (errorcontext.Errorf "NewRequest: %w: %w"
                 [err ErrInvalidURL; err e]))
  | inl u =>
      match NewRequestWithContext method u with
      | inr e =>
          Ok (inr (errorcontext.Errorf "NewRequest: %w: %w"
                     [err ErrInitialisingRequest; err e]))
      | inl rq => configured opts rq
      end
  end.

(** [client.execute]: the state of the wrapped client after the call, and
    what the call returns. *)
Definition execute (c : client T) (st : T) (method path : string)
           (opts : list RequestOption) : T * result response_error :=
  match NewRequest c method path opts with
  | Panic v => (st, Panic v)
  | Ok (inr e) =>
      (st, Ok (None, Some (errorcontext.Errorf "%s: %s: %w"
                             [str (name c); str method; err e])))
  | Ok (inl rq) => let '(st, _, out) := Do c st rq in (st, out)
  end.

Definition Delete (c : client T) (st : T) (path : string)
           (opts : list RequestOption) := execute c st "DELETE" path opts.
Definition Get (c : client T) (st : T) (path : string)
           (opts : list RequestOption) := execute c st "GET" path opts.
Definition Patch (c : client T) (st : T) (path : string)
           (opts : list RequestOption) := execute c st "PATCH" path opts.
Definition Post (c : client T) (st : T) (path : string)
           (opts : list RequestOption) := execute c st "POST" path opts.
Definition Put (c : client T) (st : T) (path : string)
           (opts : list RequestOption) := execute c st "PUT" path opts.

End Construction.

(** A client with two retries over [failsTwice]. *)
Definition flakyClient : client nat :=
  mkClient "api" "http://host" failsTwice 2.

(** The answer of [failsTwice] from its third call on. *)
Definition notFound : Response.t :=
  Response.mk "404" 404 ∅ (Some (Reader (bytes "not found") None)) (-1).

Definition readFailure : error := errorString "" "read failure".

(** A response whose body delivers some bytes and then fails. *)
Definition brokenResponse : Response.t :=
  Response.mk "200" 200 ∅
    (Some (Reader (bytes "partial") (Some readFailure))) (-1).

(** A client whose wrapped client answers with [brokenResponse]. *)
Definition brokenClient : client nat :=
  mkClient "api" "http://host"
    (fun calls rq => (S calls, (Some brokenResponse, None))) 0.

(** A request that carries the accept-status header for 200 and 404, and
    a second value under it. *)
Definition acceptingRequest : Request.t :=
  Request.setHeader bareRequest
    {[ request.AcceptStatusHeader := ["[200,404]"; "[500]"] ]}.

(** The expectation that [ExpectGet] makes at index [i]. *)
Definition expectedGet (i : Z) (path : string) : MockRequest.t :=
  MockRequest.mk i (Some "GET") None ("mock://hostname/" +++ path) ∅ None
    true None.

(** A mock client with two expectations and no request made. *)
Definition twoExpectations : mockClient.t :=
  mockClient.mk "mock" "mock://hostname"
    [ expectedGet 0 "a"; expectedGet 1 "b" ] [] 0.

Definition getRequest (path : string) : Request.t :=
  newRequest "GET" ("mock://hostname/" +++ path).

(** What [recorder] gives for no headers, no status code and no body. *)
Definition emptyResponse : Response.t :=
  Response.mk "200" 200 ∅ (Some (Reader [] None)) (-1).

(** A stand-in for [url.Parse]: every text is an absolute URL. *)
Definition parseAbsolute (s : string) : netURL + error := inl (mkURL true s).

(** A stand-in for [http.NewRequestWithContext]: no method or url is
    refused. *)
Definition newRequestWithContext (method url : string) : Request.t + error :=
  inl (newRequest method url).

(** A request option that fails, as in the tests of [NewRequest]. *)
Definition failingOption (e : error) : RequestOption :=
  fun rq => Ok (rq, Some e).

(** The error of the option [URL] for a value that is neither a string
    nor a [*url.URL]. *)
Definition notAURL : error :=
  Go.Errorf "http: URL option: %w: must be a string or *url.URL"
    [err ErrInvalidURL].

(** ** Definitions for the further properties *)

(** The state of the scanner after the literal of [x]. *)
Definition afterLiteral (x : Z) : scan :=
  if x =? 0 then scanZero false else scanInt (x <? 0) (Z.abs x).

(** The token of [x]. *)
Definition literal (x : Z) : token := Some (x <? 0, Z.abs x).

Definition setRetries (d : directives) (n : Z) : directives :=
  mkDirectives n (acceptableStatusCodes d) (responseBodyRequired d)
               (streamResponse d).

(** The values of Go's [int]. *)
Definition isInt (x : Z) : Prop := minInt <= x <= maxInt.

(** The mock client after the requests [rqs], made in this order. A call
    has changed the mock client before it makes its response, so the
    state is this one also when making a response panics. *)
Definition served (writeBody : list byte -> option error)
           (recorded : gmap string string -> option Z -> list byte
                       -> result Response.t)
           (mock : mockClient.t) (rqs : list Request.t) : mockClient.t :=
  foldl (fun mock rq => fst (mockClient.Do writeBody recorded mock rq))
        mock rqs.

(** * Properties *)

(** ** Errors *)

Section ErrorInduction.

Variable P : error -> Prop.
Hypothesis HerrorString : forall ptr s, P (errorString ptr s).
Hypothesis HwrapError : forall msg errs, Forall P errs -> P (wrapError msg errs).
Hypothesis HjoinError : forall errs, Forall P errs -> P (joinError errs).
Hypothesis HErrorWithContext : forall e, P e -> P (ErrorWithContext e).
Hypothesis HMockExpectationsError :
  forall name errs, Forall P errs -> P (MockExpectationsError name errs).

Lemma error_nested_ind (e : error) : P e.
Proof.
  revert e. fix IH 1. intros [ptr s | msg errs | errs | e | name errs].
  - apply HerrorString.
  - apply HwrapError. induction errs as [| x l IHl]; constructor; auto.
  - apply HjoinError. induction errs as [| x l IHl]; constructor; auto.
  - apply HErrorWithContext, IH.
  - apply HMockExpectationsError.
    induction errs as [| x l IHl]; constructor; auto.
Qed.

End ErrorInduction.

Lemma error_eqb_refl (e : error) : error_eqb e e = true.
Proof.
  induction e as [ptr s | msg errs IH | errs IH | e IH | name errs IH]
    using error_nested_ind; simpl; rewrite ?String.eqb_refl; simpl; try done.
  all: induction IH as [| x l Hx _ IHl]; [done |].
  all: by rewrite Hx, IHl.
Qed.

Lemma Is_refl (e : error) : Is e e = true.
Proof. destruct e; cbn [Is]; by rewrite error_eqb_refl. Qed.

Lemma Is_wrapError (msg : string) (errs : list error) (e target : error) :
  In e errs -> Is e target = true -> Is (wrapError msg errs) target = true.
Proof.
  intros Hin His. cbn [Is]. apply orb_true_iff. right.
  apply existsb_exists. by exists e.
Qed.

Lemma Is_ErrorWithContext (e target : error) :
  Is e target = true -> Is (ErrorWithContext e) target = true.
Proof. intros His. cbn [Is]. rewrite His. apply orb_true_r. Qed.

Lemma Is_Errorf (format : string) (args : list operand) (e target : error) :
  In (err e) args -> Is e target = true ->
  Is (Go.Errorf format args) target = true.
Proof.
  intros Hin His. unfold Go.Errorf.
  assert (Hw : In e (wrapOperands args)).
  { unfold wrapOperands. apply list_elem_of_In, list_elem_of_omap.
    exists (err e). split; [by apply list_elem_of_In | done]. }
  destruct (wrapOperands args) as [| x l] eqn:E; [done |].
  by apply Is_wrapError with e.
Qed.

Lemma Is_errorcontext_Errorf (format : string) (args : list operand)
      (e target : error) :
  In (err e) args -> Is e target = true ->
  Is (errorcontext.Errorf format args) target = true.
Proof. intros. apply Is_ErrorWithContext. by apply Is_Errorf with e. Qed.

Lemma Is_errorcontext_Wrap (e : error) (errs : list error) (x target : error) :
  In x (e :: errs) -> Is x target = true ->
  Is (errorcontext.Wrap e errs) target = true.
Proof.
  intros Hin His. unfold errorcontext.Wrap. destruct errs as [| y l].
  - destruct Hin as [-> | []]. by apply Is_ErrorWithContext.
  - apply Is_ErrorWithContext. by apply Is_wrapError with x.
Qed.

(** ** The directive headers *)

Ltac distinct_headers :=
  let H := fresh in intros H; vm_compute in H; discriminate H.

Lemma parsed_first_only {A} (v : string) (rest : list string) (hdr : string)
      (fn : string -> A + error) :
  parsed (Some (v :: rest)) hdr fn = parsed (Some [v]) hdr fn.
Proof. reflexivity. Qed.

Lemma parsed_Panic {A} (o : option (list string)) (hdr : string)
      (fn : string -> A + error) (v : panicValue) :
  parsed o hdr fn = Panic v -> o = Some [].
Proof.
  destruct o as [[| s0 s] |]; [done | | done].
  simpl. by destruct (fn s0).
Qed.

Lemma parsed_valued {A} (o : option (list string)) (hdr : string)
      (fn : string -> A + error) :
  o <> Some [] -> exists x, parsed o hdr fn = Ok x.
Proof.
  intros Ho. destruct (parsed o hdr fn) as [x | v] eqn:E; [by exists x |].
  by apply parsed_Panic in E.
Qed.

Lemma directivesFrom_Panic (mr : Z) (o1 o2 o3 o4 : option (list string))
      (v : panicValue) :
  directivesFrom mr o1 o2 o3 o4 = Panic v ->
  o1 = Some [] \/ o2 = Some [] \/ o3 = Some [] \/ o4 = Some [].
Proof.
  unfold directivesFrom. intros H.
  destruct (parsed o1 _ _) as [[v1 e1] |] eqn:E1;
    [| apply parsed_Panic in E1; tauto].
  destruct (parsed o2 _ _) as [[v2 e2] |] eqn:E2;
    [| apply parsed_Panic in E2; tauto].
  destruct (parsed o3 _ _) as [[v3 e3] |] eqn:E3;
    [| apply parsed_Panic in E3; tauto].
  destruct (parsed o4 _ _) as [[v4 e4] |] eqn:E4;
    [| apply parsed_Panic in E4; tauto].
  done.
Qed.

Section DirectiveProperties.

Context {T : Type}.
Implicit Types (c : client T) (rq : Request.t) (h : header).

(** The outcome of [parseRequestHeaders] depends on the request through
    the values under the four reserved headers only. *)
Lemma parseRequestHeaders_outcome c rq :
  snd (parseRequestHeaders c rq)
  = directivesFrom (maxRetries c)
      (Request.Header rq !! request.MaxRetriesHeader)
      (Request.Header rq !! request.AcceptStatusHeader)
      (Request.Header rq !! request.ResponseBodyRequiredHeader)
      (Request.Header rq !! request.StreamResponseHeader).
Proof.
  unfold parseRequestHeaders, directivesFrom, parse.
  rewrite !lookup_delete_ne by distinct_headers.
  destruct (parsed _ request.MaxRetriesHeader _) as [[v1 e1] |]; [| done].
  destruct (parsed _ request.AcceptStatusHeader _) as [[v2 e2] |]; [| done].
  destruct (parsed _ request.ResponseBodyRequiredHeader _) as [[v3 e3] |];
    [| done].
  by destruct (parsed _ request.StreamResponseHeader _) as [[v4 e4] |].
Qed.

(** When it returns, the four headers have been deleted, and nothing
    else has changed. *)
Lemma parseRequestHeaders_request c rq x :
  snd (parseRequestHeaders c rq) = Ok x ->
  fst (parseRequestHeaders c rq)
  = Request.setHeader rq (strip (Request.Header rq)).
Proof.
  unfold parseRequestHeaders, parse, strip.
  destruct (parsed _ request.MaxRetriesHeader _) as [[v1 e1] |]; [| done].
  destruct (parsed _ request.AcceptStatusHeader _) as [[v2 e2] |]; [| done].
  destruct (parsed _ request.ResponseBodyRequiredHeader _) as [[v3 e3] |];
    [| done].
  by destruct (parsed _ request.StreamResponseHeader _) as [[v4 e4] |].
Qed.

(** It panics on a reserved header without values, and on nothing else. *)
Lemma parseRequestHeaders_Panic c rq v :
  snd (parseRequestHeaders c rq) = Panic v ->
  Exists (fun k => Request.Header rq !! k = Some []) reserved.
Proof.
  rewrite parseRequestHeaders_outcome. intros H.
  unfold reserved. rewrite !Exists_cons.
  apply directivesFrom_Panic in H. tauto.
Qed.

Lemma parseRequestHeaders_valued c rq :
  valued (Request.Header rq) ->
  exists x, parseRequestHeaders c rq
            = (Request.setHeader rq (strip (Request.Header rq)), Ok x).
Proof.
  intros Hvalued.
  destruct (parseRequestHeaders c rq) as [rq' [x | v]] eqn:E.
  - exists x. f_equal.
    change rq' with (fst (rq', @Ok (directives + error) x)).
    rewrite <- E. apply parseRequestHeaders_request with x. by rewrite E.
  - exfalso. assert (H : snd (parseRequestHeaders c rq) = Panic v) by by rewrite E.
    apply parseRequestHeaders_Panic, Exists_exists in H as (k & Hk & Hempty).
    unfold valued in Hvalued. rewrite Forall_forall in Hvalued.
    by apply (Hvalued k).
Qed.

Lemma strip_reserved h k : k ∈ reserved -> strip h !! k = None.
Proof.
  unfold reserved, strip. rewrite !elem_of_cons, elem_of_nil.
  intros [-> | [-> | [-> | [-> | []]]]];
    rewrite ?lookup_delete_eq; try done;
    repeat (rewrite lookup_delete_ne by distinct_headers;
            rewrite ?lookup_delete_eq; try done).
Qed.

Lemma strip_stripped rq : stripped (Request.setHeader rq (strip (Request.Header rq))).
Proof.
  unfold stripped. apply Forall_forall. intros k Hk.
  destruct rq; simpl. by apply strip_reserved.
Qed.

Lemma strip_insert h k vs : k ∈ reserved -> strip (<[k := vs]> h) = strip h.
Proof.
  intros Hk. apply map_eq. intros i.
  destruct (decide (i ∈ reserved)) as [Hi | Hi].
  - by rewrite !strip_reserved.
  - assert (Hne : k <> i) by (intros ->; contradiction).
    unfold reserved in Hi. rewrite !elem_of_cons, elem_of_nil in Hi.
    unfold strip. rewrite !lookup_delete_ne by (intros <-; tauto).
    by rewrite lookup_insert_ne.
Qed.

End DirectiveProperties.

(** ** The execution engine *)

Section EngineProperties.

Context {T : Type}.
Implicit Types (c : client T) (st : T) (rq : Request.t) (log : list Request.t).

Lemma parseRequestHeaders_observed c rq :
  parseRequestHeaders (observed c) rq = parseRequestHeaders c rq.
Proof. reflexivity. Qed.

Lemma after_S c rq n st :
  after (wrapped c) rq (S n) st
  = after (wrapped c) rq n (fst (wrapped c st rq)).
Proof.
  unfold after. induction n as [| n IH]; [done |].
  change (Nat.iter (S (S n)) ?f ?x) with (f (Nat.iter (S n) f x)).
  by rewrite IH.
Qed.

(** Every call of the loop hands the same request to the wrapped client. *)
Lemma do_loop_log c rq retries accept n st log :
  exists st' k out,
    do_loop (observed c) rq retries accept n (st, log)
    = ((st', log ++ replicate k rq), out).
Proof.
  revert st log. induction n as [| n IH]; intros st log; cbn [do_loop];
    cbn [wrapped observed recording];
    destruct (wrapped c st rq) as [st' [r [e |]]].
  1, 3: destruct (retries =? 0); [by exists st', 1%nat; eexists |].
  - by exists st', 1%nat; eexists.
  - destruct (IH st' (log ++ [rq])) as (st'' & k & out & ->).
    exists st'', (S k), out. by rewrite <- app_assoc.
  - destruct r as [r |]; [| by exists st', 1%nat; eexists].
    destruct (existsb _ _); by exists st', 1%nat; eexists.
  - destruct r as [r |]; [| by exists st', 1%nat; eexists].
    destruct (existsb _ _); by exists st', 1%nat; eexists.
Qed.

(** With retries configured and a wrapped client that always fails, the
    loop entered with [n] retries left makes [n + 1] calls and wraps the
    error of the last one. *)
Lemma do_loop_exhausted c rq retries accept n st log :
  alwaysFails (wrapped c) -> retries <> 0 ->
  exists st' r e,
    wrapped c (after (wrapped c) rq n st) rq = (st', (r, Some e)) /\
    do_loop (observed c) rq retries accept n (st, log)
    = ((st', log ++ replicate (S n) rq),
       Ok (r, Some (errorcontext.Wrap ErrMaxRetriesExceeded [e]))).
Proof.
  intros Hfail Hretries. apply Z.eqb_neq in Hretries.
  revert st log. induction n as [| n IH]; intros st log.
  - unfold after. cbn [do_loop wrapped observed recording Nat.iter].
    pose proof (Hfail st rq) as [e He].
    destruct (wrapped c st rq) as [st' [r e']] eqn:Hw. simpl in He. subst e'.
    rewrite Hretries. by exists st', r, e.
  - rewrite after_S. cbn [do_loop wrapped observed recording].
    pose proof (Hfail st rq) as [e He].
    destruct (wrapped c st rq) as [st' [r e']] eqn:Hw. simpl in He. subst e'.
    rewrite Hretries. cbn [fst].
    destruct (IH st' (log ++ [rq])) as (st'' & r' & e' & Hlast & ->).
    exists st'', r', e'. split; [done |]. by rewrite <- app_assoc.
Qed.

(** A response returned without error by [do] is the response of a call
    of the wrapped client that returned no error, and its status code is
    one of the accepted ones. *)
Lemma do_loop_response c rq retries accept n st st' r :
  do_loop c rq retries accept n st = (st', Ok (Some r, None)) ->
  (exists st0, wrapped c st0 rq = (st', (Some r, None)))
  /\ uint_of_int (Response.StatusCode r) ∈ elements accept.
Proof.
  revert st. induction n as [| n IH]; intros st; cbn [do_loop];
    destruct (wrapped c st rq) as [st1 [r1 [e |]]] eqn:Hw.
  1, 3: destruct (retries =? 0); [done |].
  - done.
  - apply IH.
  - destruct r1 as [r1 |]; [| done].
    destruct (existsb _ _) eqn:Hex; [| done].
    intros [= <- <-]. split; [by exists st |].
    apply existsb_exists in Hex as (sc & Hin & Heq).
    apply Z.eqb_eq in Heq. rewrite Heq. by apply list_elem_of_In.
  - destruct r1 as [r1 |]; [| done].
    destruct (existsb _ _) eqn:Hex; [| done].
    intros [= <- <-]. split; [by exists st |].
    apply existsb_exists in Hex as (sc & Hin & Heq).
    apply Z.eqb_eq in Heq. rewrite Heq. by apply list_elem_of_In.
Qed.

(** The first call succeeding with an accepted status code is enough. *)
Lemma do_first_call c rq retries accept st st' r :
  wrapped c st rq = (st', (Some r, None)) ->
  uint_of_int (Response.StatusCode r) ∈ elements accept ->
  do c rq retries accept st = (st', Ok (Some r, None)).
Proof.
  intros Hw Hin. unfold do.
  assert (Hex : existsb (fun sc => uint_of_int (Response.StatusCode r) =? sc)
                  (elements accept) = true).
  { apply existsb_exists. exists (uint_of_int (Response.StatusCode r)).
    split; [by apply list_elem_of_In | apply Z.eqb_refl]. }
  destruct (Z.to_nat retries); cbn [do_loop]; by rewrite Hw, Hex.
Qed.

(** [retries] comes from the first value of the max-retries header, or
    from the client when the header is absent. *)
Lemma retries_source c rq rq' d :
  parseRequestHeaders c rq = (rq', Ok (inl d)) ->
  match Request.Header rq !! request.MaxRetriesHeader with
  | None => retries d = maxRetries c
  | Some vs => exists v i, head vs = Some v /\ Atoi v = inl i
                           /\ retries d = uint_of_int i
  end.
Proof.
  intros Hparse.
  assert (H : snd (parseRequestHeaders c rq) = Ok (inl d)) by by rewrite Hparse.
  rewrite parseRequestHeaders_outcome in H. unfold directivesFrom in H.
  destruct (Request.Header rq !! request.MaxRetriesHeader) as [[| v vs] |];
    [done | |]; cbn [parsed first bind] in H.
  - unfold parseMaxRetries in H.
    destruct (Atoi v) as [i | e] eqn:Hi; cbn [bind] in H;
      destruct (parsed _ request.AcceptStatusHeader _) as [[v2 e2] |];
      try done; cbn [bind] in H;
      destruct (parsed _ request.ResponseBodyRequiredHeader _) as [[v3 e3] |];
      try done; cbn [bind] in H;
      destruct (parsed _ request.StreamResponseHeader _) as [[v4 e4] |];
      try done; cbn [bind] in H.
    exists v, i. repeat split; [done |].
    destruct (Join _); [done |]. by injection H as <-.
  - destruct (parsed _ request.AcceptStatusHeader _) as [[v2 e2] |];
      try done; cbn [bind] in H;
      destruct (parsed _ request.ResponseBodyRequiredHeader _) as [[v3 e3] |];
      try done; cbn [bind] in H;
      destruct (parsed _ request.StreamResponseHeader _) as [[v4 e4] |];
      try done; cbn [bind] in H.
    destruct (Join _); [done |]. by injection H as <-.
Qed.

End EngineProperties.

(** ** The accept-status header of the example *)

Lemma Marshal_200_404 :
  Marshal (append (Some [StatusOK]) [StatusNotFound]) = "[200,404]".
Proof. reflexivity. Qed.

Lemma Unmarshal_200_404 :
  Unmarshal convInt (Some [StatusOK]) "[200,404]" = inl (Some [200; 404]).
Proof. reflexivity. Qed.

Lemma Marshal_200_404_401 :
  Marshal (append (Some [200; 404]) [StatusUnauthorized]) = "[200,404,401]".
Proof. reflexivity. Qed.

(** ** The claims about the execution engine *)

Section EngineClaims.

Context {T : Type}.
Implicit Types (c : client T) (st : T) (rq : Request.t) (d : directives).

Lemma Do_parsed c st rq rq' d :
  parseRequestHeaders c rq = (rq', Ok (inl d)) ->
  forall st' done,
    do c rq' (retries d) (acceptableStatusCodes d) st = (st', Ok (Some done, None)) ->
    Do c st rq
    = (st', rq',
       if streamResponse d then Ok (Some done, None)
       else
         bind (ioReadAll (Response.Body done)) (fun '(body, e) =>
           let r := Response.setBody (Response.setContentLength done 0) NoBody in
           let handle r e :=
             (r, Some (errorcontext.Errorf "%s: %s %s: %w"
                         [str (name c); str (Request.Method rq');
                          str (Request.URL rq'); err e])) in
           match e with
           | Some e =>
               Ok (handle (Some r)
                     (errorcontext.Errorf "response.Body: %w" [err e]))
           | None =>
               if (Z.of_nat (length body) =? 0) && responseBodyRequired d
               then Ok (handle (Some r) ErrNoResponseBody)
               else if Z.of_nat (length body) =? 0 then Ok (Some r, None)
               else Ok (Some (Response.setBody
                                (Response.setContentLength r
                                   (Z.of_nat (length body)))
                                (Reader body None)), None)
           end)).
Proof.
  intros Hparse st' done Hdo. unfold Do. rewrite Hparse, Hdo.
  destruct (streamResponse d); [done |].
  by destruct (ioReadAll (Response.Body done)) as [[body [e |]] |].
Qed.

(** C1. With an effective max-retries value N >= 1 (the first value of
    the max-retries header, or the client's value when the header is
    absent) and a wrapped client that fails every call, [Do] calls the
    wrapped client exactly N + 1 times, each time with the request
    without its directive headers, and returns an error for which
    [errors.Is] holds of [ErrMaxRetriesExceeded] and of the error of the
    last call. *)
Theorem Do_retries_exceeded c st rq rq' d :
  alwaysFails (wrapped c) ->
  parseRequestHeaders c rq = (rq', Ok (inl d)) ->
  1 <= retries d ->
  exists st' log r e elast,
    Do (observed c) (st, []) rq = ((st', log), rq', Ok (r, Some e))
    /\ log = replicate (Z.to_nat (retries d + 1)) rq'
    /\ Z.of_nat (length log) = retries d + 1
    /\ wrapped c (after (wrapped c) rq' (Z.to_nat (retries d)) st) rq'
       = (st', (r, Some elast))
    /\ Is e ErrMaxRetriesExceeded = true
    /\ Is e elast = true
    /\ match Request.Header rq !! request.MaxRetriesHeader with
       | None => retries d = maxRetries c
       | Some vs => exists v i, head vs = Some v /\ Atoi v = inl i
                                /\ retries d = uint_of_int i
       end.
Proof.
  intros Hfail Hparse HN.
  destruct (do_loop_exhausted c rq' (retries d) (acceptableStatusCodes d)
              (Z.to_nat (retries d)) st [] Hfail ltac:(lia))
    as (st' & r & elast & Hlast & Hloop).
  exists st', (replicate (Z.to_nat (retries d + 1)) rq'), r.
  eexists. exists elast.
  split; [| split; [done | split; [| split; [done | split; [| split]]]]].
  - unfold Do. rewrite parseRequestHeaders_observed, Hparse.
    unfold do. cbn [retries acceptableStatusCodes] in *. rewrite Hloop.
    rewrite Z2Nat.inj_add, Nat.add_1_r by lia. reflexivity.
  - rewrite length_replicate. lia.
  - apply Is_errorcontext_Errorf
      with (errorcontext.Wrap ErrMaxRetriesExceeded [elast]);
      [simpl; tauto |].
    apply Is_errorcontext_Wrap with ErrMaxRetriesExceeded;
      [by left | apply Is_refl].
  - apply Is_errorcontext_Errorf
      with (errorcontext.Wrap ErrMaxRetriesExceeded [elast]);
      [simpl; tauto |].
    apply Is_errorcontext_Wrap with elast;
      [by right; left | apply Is_refl].
  - by apply retries_source with rq'.
Qed.

(** C4. When the stream-response directive is true and the wrapped
    client answers with an accepted status code, [Do] returns the very
    response the wrapped client returned (status, headers, content length
    and body as they were) and no error, whatever the body-required
    directive says. *)
Theorem Do_stream c st rq rq' d st' r :
  parseRequestHeaders c rq = (rq', Ok (inl d)) ->
  streamResponse d = true ->
  do c rq' (retries d) (acceptableStatusCodes d) st = (st', Ok (Some r, None)) ->
  Do c st rq = (st', rq', Ok (Some r, None))
  /\ exists st0, wrapped c st0 rq' = (st', (Some r, None)).
Proof.
  intros Hparse Hstream Hdo. split.
  - rewrite (Do_parsed c st rq rq' d Hparse st' r Hdo). by rewrite Hstream.
  - by apply do_loop_response in Hdo as [? _].
Qed.

(** C5. Without streaming, when the wrapped client answers with an
    accepted status code and a body that reads, without error, as the
    non-empty bytes [B], [Do] returns the response and no error; its
    content length is the length of [B], and its body is a reader of its
    own over [B], which reads back as [B], while the stream that the
    wrapped client had returned has been consumed and has nothing left;
    its status and headers are those of the wrapped client. *)
Theorem Do_materializes c st rq rq' d st' r (B : list byte) :
  parseRequestHeaders c rq = (rq', Ok (inl d)) ->
  streamResponse d = false ->
  do c rq' (retries d) (acceptableStatusCodes d) st = (st', Ok (Some r, None)) ->
  ioReadAll (Response.Body r) = Ok (B, None) ->
  B <> [] ->
  exists r',
    Do c st rq = (st', rq', Ok (Some r', None))
    /\ Response.ContentLength r' = Z.of_nat (length B)
    /\ Response.Body r' = Some (Reader B None)
    /\ ioReadAll (Response.Body r') = Ok (B, None)
    /\ ioReadAll (Response.Body (Response.drain r)) = Ok ([], None)
    /\ Response.Status r' = Response.Status r
    /\ Response.StatusCode r' = Response.StatusCode r
    /\ Response.Header r' = Response.Header r.
Proof.
  intros Hparse Hstream Hdo Hread HB.
  rewrite (Do_parsed c st rq rq' d Hparse st' r Hdo), Hstream, Hread.
  cbn [bind].
  assert (Hlen : (Z.of_nat (length B) =? 0) = false).
  { apply Z.eqb_neq. destruct B; [done | simpl; lia]. }
  rewrite Hlen. cbn [andb]. eexists. split; [reflexivity |].
  repeat split; try done.
  unfold Response.drain. cbn [Response.Body].
  destruct (Response.Body r) as [[| data e] |]; cbn [ioReadAll] in Hread;
    [done | | done].
  by injection Hread as _ ->.
Qed.

(** C9. Without streaming and without the body-required directive, when
    the wrapped client answers with an accepted status code and a body
    that reads, without error, as no bytes at all, [Do] returns the
    response and no error, with content length 0 and [http.NoBody] as
    its body. *)
Theorem Do_empty_body c st rq rq' d st' r :
  parseRequestHeaders c rq = (rq', Ok (inl d)) ->
  streamResponse d = false ->
  responseBodyRequired d = false ->
  do c rq' (retries d) (acceptableStatusCodes d) st = (st', Ok (Some r, None)) ->
  ioReadAll (Response.Body r) = Ok ([], None) ->
  exists r',
    Do c st rq = (st', rq', Ok (Some r', None))
    /\ Response.ContentLength r' = 0
    /\ Response.Body r' = Some NoBody
    /\ Response.Status r' = Response.Status r
    /\ Response.StatusCode r' = Response.StatusCode r
    /\ Response.Header r' = Response.Header r.
Proof.
  intros Hparse Hstream Hrequired Hdo Hread.
  rewrite (Do_parsed c st rq rq' d Hparse st' r Hdo), Hstream, Hread, Hrequired.
  cbn [bind length Z.of_nat Z.eqb andb]. eexists. split; [reflexivity |]. done.
Qed.

(** C6. In every run of [Do], each request handed to the wrapped client
    is without the four reserved headers, and so is the request when [Do]
    is left, whether the directives parsed or not. The one run that
    leaves a reserved header behind is the run that panics on a reserved
    header without values, which never reaches the wrapped client and
    does not return. *)
Theorem Do_strips_directives c st rq :
  exists st' log rq' out,
    Do (observed c) (st, []) rq = ((st', log), rq', out)
    /\ Forall stripped log
    /\ (stripped rq'
        \/ (log = []
            /\ (exists v, out = Panic v)
            /\ Exists (fun k => Request.Header rq !! k = Some []) reserved)).
Proof.
  unfold Do. rewrite parseRequestHeaders_observed.
  destruct (parseRequestHeaders c rq) as [rq' [x | v]] eqn:E.
  - assert (Hrq' : stripped rq').
    { change rq' with (fst (rq', @Ok (directives + error) x)).
      rewrite <- E, (parseRequestHeaders_request c rq x) by by rewrite E.
      apply strip_stripped. }
    destruct x as [d | e].
    + unfold do.
      destruct (do_loop_log c rq' (retries d) (acceptableStatusCodes d)
                  (Z.to_nat (retries d)) st [])
        as (st' & k & out & ->).
      exists st', (replicate k rq'), rq'. eexists.
      split; [reflexivity |]. split; [| by left].
      by apply Forall_replicate.
    + exists st, [], rq'. eexists. split; [reflexivity |].
      split; [constructor | by left].
  - exists st, [], rq', (Panic v). split; [done |].
    split; [constructor |]. right. split; [done |]. split; [by exists v |].
    apply (parseRequestHeaders_Panic c rq v). by rewrite E.
Qed.

(** When a reserved header carries several values, parsing gives what it
    gives for the same request with that header cut down to its first
    value, whatever the other headers hold: the same directives or the
    same error, and the same request left behind, with the header gone
    altogether. The one run in which the header is not deleted is a run
    that panics on another reserved header, one without values, and it
    panics for both requests alike. *)
Lemma parse_later_values_ignored c rq k (v : string) (rest : list string) :
  k ∈ reserved ->
  exists rq1 rq2 out,
    parseRequestHeaders c
      (Request.setHeader rq (<[k := v :: rest]> (Request.Header rq)))
    = (rq1, out)
    /\ parseRequestHeaders c
         (Request.setHeader rq (<[k := [v]]> (Request.Header rq)))
       = (rq2, out)
    /\ ((exists x, out = Ok x /\ rq1 = rq2 /\ Request.Header rq1 !! k = None)
        \/ (exists pv, out = Panic pv
              /\ Exists (fun k' => k' <> k /\ Request.Header rq !! k' = Some [])
                        reserved)).
Proof.
  intros Hk.
  set (multi := Request.setHeader rq (<[k := v :: rest]> (Request.Header rq))).
  set (single := Request.setHeader rq (<[k := [v]]> (Request.Header rq))).
  assert (Hsame : snd (parseRequestHeaders c multi)
                  = snd (parseRequestHeaders c single)).
  { rewrite !parseRequestHeaders_outcome.
    subst multi single. destruct rq as [m u h b n].
    cbn [Request.Header Request.setHeader].
    pose proof Hk as Hk'.
    unfold reserved in Hk'. rewrite !elem_of_cons, elem_of_nil in Hk'.
    destruct Hk' as [-> | [-> | [-> | [-> | []]]]];
      rewrite !lookup_insert_eq;
      rewrite !lookup_insert_ne by distinct_headers; reflexivity. }
  destruct (parseRequestHeaders c multi) as [rq1 out] eqn:Hmulti.
  destruct (parseRequestHeaders c single) as [rq2 out'] eqn:Hsingle.
  cbn [snd] in Hsame. subst out'. exists rq1, rq2, out.
  split; [done |]. split; [done |].
  destruct out as [x | pv].
  - left. exists x. split; [done |].
    assert (H1 : rq1 = Request.setHeader multi (strip (Request.Header multi))).
    { change rq1 with (fst (rq1, @Ok (directives + error) x)).
      rewrite <- Hmulti. apply parseRequestHeaders_request with x.
      by rewrite Hmulti. }
    assert (H2 : rq2 = Request.setHeader single (strip (Request.Header single))).
    { change rq2 with (fst (rq2, @Ok (directives + error) x)).
      rewrite <- Hsingle. apply parseRequestHeaders_request with x.
      by rewrite Hsingle. }
    rewrite H1, H2. subst multi single. destruct rq as [m u h b n].
    cbn [Request.Header Request.setHeader]. rewrite !strip_insert by done.
    split; [done |]. by apply strip_reserved.
  - right. exists pv. split; [done |].
    assert (H : snd (parseRequestHeaders c multi) = Panic pv)
      by by rewrite Hmulti.
    apply parseRequestHeaders_Panic in H.
    apply Exists_exists in H as (k' & Hk' & Hempty).
    apply Exists_exists. exists k'. split; [done |].
    subst multi. destruct rq as [m u h b n].
    cbn [Request.Header Request.setHeader] in *.
    rewrite lookup_insert in Hempty. case_decide; [done |]. split; done.
Qed.

(** C2. On a request without the accept-status header, whose other
    directives the engine reads as [d]: [AcceptStatus] with 404 and then
    with 401 both succeed, the second appending to what the first left
    ([200,404], then [200,404,401]); the engine then reads the request as
    the directives [d] with the codes 200, 404 and 401 accepted, the set
    {200, 401, 404}, and leaves behind the request it leaves behind
    without the options. *)
Theorem AcceptStatus_accumulates c rq rq' d :
  Request.Header rq !! request.AcceptStatusHeader = None ->
  parseRequestHeaders c rq = (rq', Ok (inl d)) ->
  exists rq1 rq2,
    request.AcceptStatus [StatusNotFound] rq = Ok (rq1, None)
    /\ Request.Header rq1 !! request.AcceptStatusHeader = Some ["[200,404]"]
    /\ request.AcceptStatus [StatusUnauthorized] rq1 = Ok (rq2, None)
    /\ Request.Header rq2 !! request.AcceptStatusHeader
       = Some ["[200,404,401]"]
    /\ parseAcceptStatus "[200,404,401]" = inl (Some [200; 404; 401])
    /\ parseRequestHeaders c rq2
       = (rq', Ok (inl (setAccept d (Some [200; 404; 401]))))
    /\ statusSet (acceptableStatusCodes (setAccept d (Some [200; 404; 401])))
       = {[ 200; 401; 404 ]}.
Proof.
  intros Habsent Hparse. destruct rq as [m u h b n].
  cbn [Request.Header] in Habsent.
  exists (Request.mk m u (<[request.AcceptStatusHeader := ["[200,404]"]]> h) b n),
         (Request.mk m u (<[request.AcceptStatusHeader := ["[200,404,401]"]]> h) b n).
  split.
  { unfold request.AcceptStatus. cbn [Request.Header]. rewrite Habsent.
    by rewrite Marshal_200_404. }
  split; [apply lookup_insert_eq |].
  split.
  { unfold request.AcceptStatus. cbn [Request.Header Request.setHeader].
    rewrite lookup_insert_eq. cbn [first bind].
    rewrite Unmarshal_200_404, Marshal_200_404_401.
    by rewrite insert_insert_eq. }
  split; [apply lookup_insert_eq |].
  split; [reflexivity |].
  split; [| unfold statusSet; simpl; set_solver].
  set (rq2 := Request.mk m u
                (<[request.AcceptStatusHeader := ["[200,404,401]"]]> h) b n).
  assert (Hvalued : valued h).
  { unfold valued. rewrite Forall_forall. intros k Hk Hempty.
    assert (H : snd (parseRequestHeaders c (Request.mk m u h b n))
                = Ok (inl d)) by by rewrite Hparse.
    rewrite parseRequestHeaders_outcome in H. cbn [Request.Header] in H.
    unfold reserved in Hk. rewrite !elem_of_cons, elem_of_nil in Hk.
    unfold directivesFrom in H.
    destruct Hk as [-> | [-> | [-> | [-> | []]]]]; rewrite Hempty in H;
      cbn [parsed first bind] in H; try done;
      destruct (parsed _ request.MaxRetriesHeader _) as [[v1 e1] |];
      try done; cbn [bind] in H;
      destruct (parsed _ request.AcceptStatusHeader _) as [[v2 e2] |];
      try done; cbn [bind] in H;
      destruct (parsed _ request.ResponseBodyRequiredHeader _) as [[v3 e3] |];
      try done. }
  destruct (parseRequestHeaders_valued c rq2) as [x Hrq2].
  { subst rq2. cbn [Request.Header]. unfold valued in *.
    rewrite Forall_forall in *. intros k Hk. rewrite lookup_insert.
    case_decide; [done | auto]. }
  rewrite Hrq2. subst rq2. cbn [Request.Header Request.setHeader].
  rewrite strip_insert by (unfold reserved; set_solver).
  assert (Hrq' : rq' = Request.mk m u (strip h) b n).
  { change rq' with (fst (rq', @Ok (directives + error) (inl d))).
    rewrite <- Hparse.
    by rewrite (parseRequestHeaders_request c _ (inl d)) by by rewrite Hparse. }
  rewrite Hrq'. f_equal. f_equal.
  assert (H1 : snd (parseRequestHeaders c (Request.mk m u h b n))
               = Ok (inl d)) by by rewrite Hparse.
  assert (H2 : snd (parseRequestHeaders c
                      (Request.mk m u
                         (<[request.AcceptStatusHeader := ["[200,404,401]"]]> h)
                         b n)) = Ok x) by by rewrite Hrq2.
  rewrite parseRequestHeaders_outcome in H1, H2.
  cbn [Request.Header] in H1, H2.
  rewrite lookup_insert_eq in H2.
  rewrite !lookup_insert_ne in H2 by distinct_headers.
  rewrite Habsent in H1. unfold directivesFrom in H1, H2.
  change (parsed (Some ["[200,404,401]"]) request.AcceptStatusHeader
            parseAcceptStatus)
    with (@Ok (option slice * option error)
            (Some (Some [200; 404; 401]), None)) in H2.
  cbn [parsed] in H1.
  destruct (parsed _ request.MaxRetriesHeader _) as [[v1 e1] |];
    [| done]; cbn [bind] in H1, H2.
  destruct (parsed _ request.ResponseBodyRequiredHeader _) as [[v3 e3] |];
    [| done]; cbn [bind] in H1, H2.
  destruct (parsed _ request.StreamResponseHeader _) as [[v4 e4] |];
    [| done]; cbn [bind] in H1, H2.
  assert (HJ : Join [e1; None; e3; e4] = None).
  { destruct (Join [e1; None; e3; e4]); [done | done]. }
  rewrite HJ in H1, H2. injection H1 as <-. by injection H2 as <-.
Qed.

End EngineClaims.

(** ** The claims about the execution engine, on the examples *)

Lemma Do_retries_exceeded_witness :
  exists st' log r e elast,
    Do (observed retryClient) (0%nat, []) retryRequest
    = ((st', log), bareRequest, Ok (r, Some e))
    /\ log = replicate (Z.to_nat (1 + 1)) bareRequest
    /\ Z.of_nat (length log) = 1 + 1
    /\ wrapped retryClient
         (after (wrapped retryClient) bareRequest (Z.to_nat 1) 0%nat)
         bareRequest
       = (st', (r, Some elast))
    /\ Is e ErrMaxRetriesExceeded = true
    /\ Is e elast = true
    /\ match Request.Header retryRequest !! request.MaxRetriesHeader with
       | None => 1 = maxRetries retryClient
       | Some vs => exists v i, head vs = Some v /\ Atoi v = inl i
                                /\ 1 = uint_of_int i
       end.
Proof.
  apply (Do_retries_exceeded retryClient 0%nat retryRequest bareRequest
           (mkDirectives 1 (Some [StatusOK]) false false)).
  - intros st rq. eexists. reflexivity.
  - vm_compute. reflexivity.
  - simpl. lia.
Defined.

Lemma Do_stream_witness :
  Do fakeClientOf (mkFake (Some (bytes "non-empty")) 0 None) streamRequest
  = (mkFake (Some (bytes "non-empty")) 0 None, bareRequest,
     Ok (Some (fakeResponse (bytes "non-empty")), None))
  /\ exists st0, wrapped fakeClientOf st0 bareRequest
                 = (mkFake (Some (bytes "non-empty")) 0 None,
                    (Some (fakeResponse (bytes "non-empty")), None)).
Proof.
  apply (Do_stream fakeClientOf (mkFake (Some (bytes "non-empty")) 0 None)
           streamRequest bareRequest
           (mkDirectives 0 (Some [StatusOK]) true true)).
  - vm_compute. reflexivity.
  - reflexivity.
  - vm_compute. reflexivity.
Defined.

Lemma Do_materializes_witness :
  exists r',
    Do fakeClientOf (mkFake (Some (bytes "body")) 0 None) bareRequest
    = (mkFake (Some (bytes "body")) 0 None, bareRequest, Ok (Some r', None))
    /\ Response.ContentLength r' = Z.of_nat (length (bytes "body"))
    /\ Response.Body r' = Some (Reader (bytes "body") None)
    /\ ioReadAll (Response.Body r') = Ok (bytes "body", None)
    /\ ioReadAll (Response.Body (Response.drain (fakeResponse (bytes "body"))))
       = Ok ([], None)
    /\ Response.Status r' = Response.Status (fakeResponse (bytes "body"))
    /\ Response.StatusCode r' = Response.StatusCode (fakeResponse (bytes "body"))
    /\ Response.Header r' = Response.Header (fakeResponse (bytes "body")).
Proof.
  apply (Do_materializes fakeClientOf (mkFake (Some (bytes "body")) 0 None)
           bareRequest bareRequest
           (mkDirectives 0 (Some [StatusOK]) false false)).
  - vm_compute. reflexivity.
  - reflexivity.
  - vm_compute. reflexivity.
  - reflexivity.
  - vm_compute. discriminate.
Defined.

Lemma Do_empty_body_witness :
  exists r',
    Do fakeClientOf (mkFake (Some []) 0 None) bareRequest
    = (mkFake (Some []) 0 None, bareRequest, Ok (Some r', None))
    /\ Response.ContentLength r' = 0
    /\ Response.Body r' = Some NoBody
    /\ Response.Status r' = Response.Status (fakeResponse [])
    /\ Response.StatusCode r' = Response.StatusCode (fakeResponse [])
    /\ Response.Header r' = Response.Header (fakeResponse []).
Proof.
  apply (Do_empty_body fakeClientOf (mkFake (Some []) 0 None)
           bareRequest bareRequest
           (mkDirectives 0 (Some [StatusOK]) false false)).
  - vm_compute. reflexivity.
  - reflexivity.
  - reflexivity.
  - vm_compute. reflexivity.
  - reflexivity.
Defined.

Lemma AcceptStatus_accumulates_witness :
  exists rq1 rq2,
    request.AcceptStatus [StatusNotFound] bareRequest = Ok (rq1, None)
    /\ Request.Header rq1 !! request.AcceptStatusHeader = Some ["[200,404]"]
    /\ request.AcceptStatus [StatusUnauthorized] rq1 = Ok (rq2, None)
    /\ Request.Header rq2 !! request.AcceptStatusHeader
       = Some ["[200,404,401]"]
    /\ parseAcceptStatus "[200,404,401]" = inl (Some [200; 404; 401])
    /\ parseRequestHeaders fakeClientOf rq2
       = (bareRequest,
          Ok (inl (mkDirectives 0 (Some [200; 404; 401]) false false)))
    /\ statusSet (Some [200; 404; 401]) = {[ 200; 401; 404 ]}.
Proof.
  apply (AcceptStatus_accumulates fakeClientOf bareRequest bareRequest
           (mkDirectives 0 (Some [StatusOK]) false false)).
  - vm_compute. reflexivity.
  - vm_compute. reflexivity.
Defined.

(** ** The mock client *)

Section MockProperties.

Variable JoinPath : string -> string -> string + error.
Variable writeBody : list byte -> option error.
Variable recorded :
  gmap string string -> option Z -> list byte -> result Response.t.

Implicit Types (mock : mockClient.t) (rq : Request.t).

Local Abbreviation Do := (mockClient.Do writeBody recorded).
Local Abbreviation Expect := (mockClient.Expect JoinPath).

(** [next] stays at [noExpectedRequests] or above. *)
Lemma cursorValid_new (name : string) : cursorValid (mockClient.new name).
Proof. unfold cursorValid. simpl. done. Qed.

Lemma cursorValid_Reset mock : cursorValid (mockClient.Reset mock).
Proof. unfold cursorValid. simpl. done. Qed.

Lemma cursorValid_configure mock i f :
  cursorValid mock -> cursorValid (mockClient.configure i f mock).
Proof. done. Qed.

Lemma cursorValid_Do mock rq :
  cursorValid mock -> cursorValid (fst (Do mock rq)).
Proof.
  unfold cursorValid, mockClient.Do, noExpectedRequests. intros H.
  destruct (negb _ && _); [| done].
  destruct (mockClient.next mock <? 0) eqn:Hneg; [done |].
  destruct (mockClient.expectations mock !! _); [| done].
  destruct (negb _); simpl; lia.
Qed.

Lemma cursorValid_Expect mock method path mock' i :
  cursorValid mock -> Expect mock method path = Ok (mock', i) ->
  cursorValid mock'.
Proof.
  unfold cursorValid, mockClient.Expect, noExpectedRequests. intros H.
  destruct (0 <? mockClient.next mock); [done |].
  destruct (JoinPath _ _); [| done]. intros [= <- _]. simpl.
  destruct (_ =? 1); lia.
Qed.

Lemma reachable_cursorValid mock :
  reachable JoinPath writeBody recorded mock -> cursorValid mock.
Proof.
  induction 1 as [name | mock rq _ IH | mock mock' method path i _ IH HE
                  | mock i f _ IH | mock _ _].
  - apply cursorValid_new.
  - by apply cursorValid_Do.
  - by apply (cursorValid_Expect mock method path mock' i).
  - by apply cursorValid_configure.
  - apply cursorValid_Reset.
Qed.

(** A request that meets an expectation moves the cursor past it. *)
Lemma Do_advances mock rq :
  0 <= mockClient.next mock < Z.of_nat (length (mockClient.expectations mock)) ->
  mockClient.next (fst (Do mock rq)) = mockClient.next mock + 1.
Proof.
  intros [Hlo Hhi]. unfold mockClient.Do, noExpectedRequests.
  assert (Hne : (mockClient.next mock =? -1) = false) by (apply Z.eqb_neq; lia).
  assert (Hlt : (mockClient.next mock <? Z.of_nat (length (mockClient.expectations mock))) = true)
    by (apply Z.ltb_lt; lia).
  assert (Hpos : (mockClient.next mock <? 0) = false) by (apply Z.ltb_ge; lia).
  rewrite Hne, Hlt, Hpos. cbn [negb andb].
  destruct (lookup_lt_is_Some_2 (mockClient.expectations mock)
              (Z.to_nat (mockClient.next mock)) ltac:(lia)) as [expected ->].
  by destruct (negb _).
Qed.

(** [Expect] panics once the cursor has moved. *)
Lemma Expect_panics mock method path :
  0 < mockClient.next mock ->
  exists e, Expect mock method path = Panic (panicError e)
            /\ Is e ErrCannotChangeExpectations = true.
Proof.
  intros Hnext. unfold mockClient.Expect.
  apply Z.ltb_lt in Hnext. rewrite Hnext. eexists. split; [reflexivity |].
  apply Is_Errorf with ErrCannotChangeExpectations;
    [simpl; tauto | apply Is_refl].
Qed.

(** So it panics after a request that met an expectation. *)
Lemma Expect_after_expected_request mock rq method path :
  0 <= mockClient.next mock < Z.of_nat (length (mockClient.expectations mock)) ->
  exists e, Expect (fst (Do mock rq)) method path = Panic (panicError e)
            /\ Is e ErrCannotChangeExpectations = true.
Proof.
  intros H. apply Expect_panics. rewrite Do_advances by done. lia.
Qed.

(** C7. A request that arrives when there are no expectations, or when
    the cursor is past the last one, or when the expectation at the
    cursor is marked as not expected, is appended to the list of
    unexpected requests, once, and [Do] returns no response and
    [ErrUnexpectedRequest]. The mock client is any with a valid cursor,
    as every reachable one has ([reachable_cursorValid]). *)
Theorem Do_records_unexpected mock rq :
  cursorValid mock ->
  (mockClient.expectations mock = []
   \/ Z.of_nat (length (mockClient.expectations mock)) <= mockClient.next mock
   \/ exists expected,
        0 <= mockClient.next mock
        /\ mockClient.expectations mock !! Z.to_nat (mockClient.next mock)
           = Some expected
        /\ MockRequest.isExpected expected = false) ->
  exists mock',
    Do mock rq = (mock', Ok (None, Some ErrUnexpectedRequest))
    /\ mockClient.unexpected mock' = mockClient.unexpected mock ++ [rq]
    /\ length (mockClient.unexpected mock')
       = S (length (mockClient.unexpected mock)).
Proof.
  unfold cursorValid, noExpectedRequests. intros Hvalid Hcase.
  unfold mockClient.Do, noExpectedRequests.
  destruct Hcase as [Hnone | [Hpast | (expected & Hlo & Hat & Hnot)]].
  - rewrite Hnone. change (Z.of_nat (length (@nil MockRequest.t))) with 0.
    destruct (mockClient.next mock =? -1) eqn:Hcur; cbn [negb andb].
    + eexists. split; [reflexivity |]. simpl.
      by rewrite length_app, Nat.add_1_r.
    + apply Z.eqb_neq in Hcur.
      assert (Hlt : (mockClient.next mock <? 0) = false)
        by (apply Z.ltb_ge; lia).
      rewrite Hlt. eexists. split; [reflexivity |]. simpl.
      by rewrite length_app, Nat.add_1_r.
  - assert (Hlt : (mockClient.next mock
                   <? Z.of_nat (length (mockClient.expectations mock))) = false)
      by (apply Z.ltb_ge; lia).
    rewrite Hlt, andb_false_r. eexists. split; [reflexivity |]. simpl.
    by rewrite length_app, Nat.add_1_r.
  - pose proof (lookup_lt_Some _ _ _ Hat) as Hlen.
    assert (Hne : (mockClient.next mock =? -1) = false)
      by (apply Z.eqb_neq; lia).
    assert (Hlt : (mockClient.next mock
                   <? Z.of_nat (length (mockClient.expectations mock))) = true)
      by (apply Z.ltb_lt; lia).
    assert (Hpos : (mockClient.next mock <? 0) = false)
      by (apply Z.ltb_ge; lia).
    rewrite Hne, Hlt, Hpos, Hat. cbn [negb andb MockRequest.setActual
                                       MockRequest.isExpected].
    rewrite Hnot. cbn [negb]. eexists. split; [reflexivity |]. simpl.
    by rewrite length_app, Nat.add_1_r.
Qed.

(** C3, where the code departs from the claim. A mock client without
    expectations records the request it is given and leaves the cursor at
    [noExpectedRequests]; the [Expect] that follows does not panic: it
    returns the new expectation, as on a mock client that has seen no
    request. *)
Theorem Expect_after_unexpected_request (name : string) rq
        (method path fqu : string) :
  JoinPath "mock://hostname" path = inl fqu ->
  exists mock mock',
    Do (mockClient.new name) rq = (mock, Ok (None, Some ErrUnexpectedRequest))
    /\ mockClient.unexpected mock = [rq]
    /\ Expect mock method path = Ok (mock', 0)
    /\ mockClient.expectations mock'
       = [MockRequest.mk 0 (Some method) None fqu ∅ None true None]
    /\ mockClient.next mock' = 0.
Proof.
  intros Hjoin. eexists. eexists.
  split; [reflexivity |]. split; [reflexivity |].
  unfold mockClient.Expect. cbn [mockClient.next mockClient.hostname
    mockClient.new mockClient.expectations mockClient.unexpected
    mockClient.name noExpectedRequests Z.ltb Z.compare].
  rewrite Hjoin. split; [reflexivity |]. split; reflexivity.
Qed.

(** The check of an expectation with an expected body panics on an
    actual request whose [Body] is nil. *)
Lemma checkExpectations_nil_body (expected : MockRequest.t) rq
      (b : list byte) :
  MockRequest.isExpected expected = true ->
  MockRequest.headers expected = ∅ ->
  MockRequest.body expected = Some b ->
  MockRequest.actual expected = Some rq ->
  Request.Body rq = None ->
  MockRequest.checkExpectations expected = Panic nilDereference.
Proof.
  intros Hexpected Hheaders Hb Hactual Hbody.
  unfold MockRequest.checkExpectations. rewrite Hexpected, Hactual.
  unfold MockRequest.checkHeadersExpectation, MockRequest.checkBodyExpectation.
  by rewrite Hheaders, map_to_list_empty, Hb, Hbody.
Qed.

(** C8, where the code departs from the claim. An expectation with an
    expected body, met by a request without a body (a nil [Body], as
    [http.NewRequest] leaves it): the check of the expectation reads the
    nil body, and [ExpectationsWereMet] panics with a nil dereference
    where the claim has it return nil or the composite error. *)
Theorem ExpectationsWereMet_nil_body (name : string) rq
        (method path fqu : string) (expectedBody : list byte) :
  JoinPath "mock://hostname" path = inl fqu ->
  Request.Body rq = None ->
  exists mock1 mock3 out,
    Expect (mockClient.new name) method path = Ok (mock1, 0)
    /\ Do (mockClient.configure 0 (MockRequest.WithBody expectedBody) mock1) rq
       = (mock3, out)
    /\ mockClient.unexpected mock3 = []
    /\ mockClient.ExpectationsWereMet mock3 = Panic nilDereference.
Proof.
  intros Hjoin Hbody. eexists. eexists. eexists.
  split.
  { unfold mockClient.Expect. cbn [mockClient.next mockClient.hostname
      mockClient.new mockClient.expectations mockClient.unexpected
      mockClient.name noExpectedRequests Z.ltb Z.compare].
    rewrite Hjoin. reflexivity. }
  split; [reflexivity |]. split; [reflexivity |].
  unfold mockClient.ExpectationsWereMet. simpl.
  by rewrite (checkExpectations_nil_body _ rq expectedBody).
Qed.

End MockProperties.

(** ** The claims about the mock client, on the examples *)

Lemma Do_records_unexpected_witness :
  exists mock',
    mockClient.Do rwWrite recorder refusingMock bareRequest
    = (mock', Ok (None, Some ErrUnexpectedRequest))
    /\ mockClient.unexpected mock'
       = mockClient.unexpected refusingMock ++ [bareRequest]
    /\ length (mockClient.unexpected mock')
       = S (length (mockClient.unexpected refusingMock)).
Proof.
  apply (Do_records_unexpected rwWrite recorder refusingMock bareRequest).
  - unfold cursorValid. vm_compute. discriminate.
  - right. right. eexists. split; [simpl; lia |]. split; reflexivity.
Defined.

Lemma Expect_after_unexpected_request_witness :
  exists mock mock',
    mockClient.Do rwWrite recorder (mockClient.new "mock") bareRequest
    = (mock, Ok (None, Some ErrUnexpectedRequest))
    /\ mockClient.unexpected mock = [bareRequest]
    /\ mockClient.Expect joinPath mock "GET" "path" = Ok (mock', 0)
    /\ mockClient.expectations mock'
       = [MockRequest.mk 0 (Some "GET") None "mock://hostname/path" ∅ None
            true None]
    /\ mockClient.next mock' = 0.
Proof.
  apply (Expect_after_unexpected_request joinPath rwWrite recorder
           "mock" bareRequest "GET" "path" "mock://hostname/path").
  reflexivity.
Defined.

Lemma ExpectationsWereMet_nil_body_witness :
  exists mock1 mock3 out,
    mockClient.Expect joinPath (mockClient.new "mock") "GET" "path"
    = Ok (mock1, 0)
    /\ mockClient.Do rwWrite recorder
         (mockClient.configure 0 (MockRequest.WithBody (bytes "{}")) mock1)
         bareRequest
       = (mock3, out)
    /\ mockClient.unexpected mock3 = []
    /\ mockClient.ExpectationsWereMet mock3 = Panic nilDereference.
Proof.
  apply (ExpectationsWereMet_nil_body joinPath rwWrite recorder
           "mock" bareRequest "GET" "path" "mock://hostname/path" (bytes "{}")).
  - reflexivity.
  - reflexivity.
Defined.

(** ** Verification of the expectations *)

Lemma dumpHeaders_total (hs : list (string * list string)) :
  Forall (fun kv => snd kv <> []) hs ->
  exists rpt, MockRequest.dumpHeaders hs = Ok rpt.
Proof.
  induction 1 as [| [k av] hs Hav _ [rpt IH]]; [by eexists |].
  cbn [MockRequest.dumpHeaders]. destruct av as [| av0 av]; [done |].
  cbn [first bind]. rewrite IH. by eexists.
Qed.

Lemma checkHeader_total (a : Request.t) (k : string) (v : option string) :
  (forall k vs, Request.Header a !! k = Some vs -> vs <> []) ->
  exists rpt, MockRequest.checkHeader a k v = Ok rpt.
Proof.
  intros Hvalues. unfold MockRequest.checkHeader.
  destruct (Request.Header a !! k) as [[| av0 av] |] eqn:Hk.
  - by apply Hvalues in Hk.
  - cbn [first bind]. destruct v as [v |]; [| by eexists].
    destruct (negb _); by eexists.
  - cbn [bind].
    destruct (dumpHeaders_total (map_to_list (Request.Header a))) as [dump ->].
    { apply Forall_forall. intros [k' vs] Hin.
      apply elem_of_map_to_list in Hin. by apply Hvalues in Hin. }
    destruct v; by eexists.
Qed.

Lemma checkHeaders_total (a : Request.t) (hs : list (string * option string)) :
  (forall k vs, Request.Header a !! k = Some vs -> vs <> []) ->
  exists rpt, MockRequest.checkHeaders a hs = Ok rpt.
Proof.
  intros Hvalues. induction hs as [| [k v] hs [rpt' IH]]; [by eexists |].
  cbn [MockRequest.checkHeaders].
  destruct (checkHeader_total a k v Hvalues) as [rpt ->].
  cbn [bind]. rewrite IH. by eexists.
Qed.

(** The check of an expectation returns when the actual request is
    readable. *)
Lemma checkExpectations_readable (rq : MockRequest.t) :
  readable rq -> exists rpt, MockRequest.checkExpectations rq = Ok rpt.
Proof.
  unfold readable, MockRequest.checkExpectations.
  destruct (MockRequest.isExpected rq), (MockRequest.actual rq) as [a |];
    try by eexists.
  intros [Hbody Hvalues]. unfold MockRequest.checkHeadersExpectation.
  destruct (checkHeaders_total a (map_to_list (MockRequest.headers rq)) Hvalues)
    as [hs ->].
  cbn [bind]. unfold MockRequest.checkBodyExpectation.
  destruct (MockRequest.body rq) as [expected |]; [| by eexists].
  destruct Hbody as [? | Hbody]; [done |].
  destruct (Request.Body a) as [[| data e] |]; [| | done]; cbn [ioReadAll bind].
  - destruct (bytes_eqb _ _); [by eexists |].
    destruct (_ =? 0); [by eexists |]. destruct (_ =? 0); by eexists.
  - destruct (bytes_eqb _ _); [by eexists |].
    destruct (_ =? 0); [by eexists |]. destruct (_ =? 0); by eexists.
Qed.

Lemma failed_reports (rqs : list MockRequest.t) (rpts : list (list string)) :
  Forall2 (fun rq rpt => MockRequest.checkExpectations rq = Ok rpt) rqs rpts ->
  exists errs,
    mockClient.failed rqs = Ok errs
    /\ (errs = [] <-> Forall (fun rpt => rpt = []) rpts)
    /\ forall i rq rpt,
         rqs !! i = Some rq -> rpts !! i = Some rpt -> rpt <> [] ->
         mockClient.expecting rq ∈ errs
         /\ forall s, s ∈ rpt -> mockClient.detail s ∈ errs.
Proof.
  induction 1 as [| rq rpt rqs rpts Hrq _ (errs & IH & Hnil & Hin)].
  - exists []. split; [done |]. split; [by split |]. by intros [].
  - cbn [mockClient.failed]. rewrite Hrq, IH. cbn [bind].
    destruct rpt as [| s0 rpt].
    + exists errs. split; [done |]. split.
      * rewrite Forall_cons, Hnil. tauto.
      * intros [| i] rq' rpt' Hi Hi' Hne; simpl in Hi, Hi'.
        -- by injection Hi' as <-.
        -- by apply (Hin i).
    + eexists. split; [reflexivity |]. split.
      * split; [done |]. by intros [? _]%Forall_cons.
      * intros [| i] rq' rpt' Hi Hi' Hne; simpl in Hi, Hi'.
        -- injection Hi as <-. injection Hi' as <-.
           split; [apply list_elem_of_here |].
           intros s Hs. apply list_elem_of_further, elem_of_app. left.
           by apply (list_elem_of_fmap_2 mockClient.detail).
        -- destruct (Hin i rq' rpt' Hi Hi' Hne) as [He Hd].
           split; [by apply list_elem_of_further, elem_of_app; right |].
           intros s Hs. apply list_elem_of_further, elem_of_app. right. auto.
Qed.

Lemma surplus_reports (n ix : Z) (rqs : list Request.t) (i : nat) (rq : Request.t) :
  rqs !! i = Some rq ->
  mockClient.notExpected n (ix + Z.of_nat i) rq ∈ mockClient.surplus n ix rqs.
Proof.
  revert ix i. induction rqs as [| rq0 rqs IH]; intros ix [| i] Hi; try done;
    simpl in Hi; cbn [mockClient.surplus].
  - injection Hi as <-. rewrite Z.add_0_r. apply list_elem_of_here.
  - apply list_elem_of_further.
    replace (ix + Z.of_nat (S i)) with (ix + 1 + Z.of_nat i) by lia. by apply IH.
Qed.

Lemma surplus_nil (n ix : Z) (rqs : list Request.t) :
  mockClient.surplus n ix rqs = [] <-> rqs = [].
Proof. by destruct rqs. Qed.

(** Where no check panics, [ExpectationsWereMet] is as the specification
    has it: nil exactly when every expectation passes its check and no
    request was unexpected, and otherwise one [MockExpectationsError] that
    lists every failed expectation, by number, method and url, with the
    lines of its report, and every unexpected request. *)
Lemma ExpectationsWereMet_reports (mock : mockClient.t)
      (rpts : list (list string)) :
  Forall2 (fun rq rpt => MockRequest.checkExpectations rq = Ok rpt)
          (mockClient.expectations mock) rpts ->
  exists out,
    mockClient.ExpectationsWereMet mock = Ok out
    /\ (out = None
        <-> Forall (fun rpt => rpt = []) rpts /\ mockClient.unexpected mock = [])
    /\ forall e, out = Some e ->
         exists errs,
           e = MockExpectationsError (mockClient.name mock) errs
           /\ (forall i rq rpt,
                 mockClient.expectations mock !! i = Some rq ->
                 rpts !! i = Some rpt -> rpt <> [] ->
                 mockClient.expecting rq ∈ errs
                 /\ forall s, s ∈ rpt -> mockClient.detail s ∈ errs)
           /\ forall ix rq,
                mockClient.unexpected mock !! ix = Some rq ->
                mockClient.notExpected
                  (Z.of_nat (length (mockClient.expectations mock)))
                  (Z.of_nat ix) rq ∈ errs.
Proof.
  intros Hchecks.
  destruct (failed_reports _ _ Hchecks) as (errs & Hfailed & Hnil & Hin).
  unfold mockClient.ExpectationsWereMet. rewrite Hfailed. cbn [bind].
  set (all := errs ++ mockClient.surplus _ 0 (mockClient.unexpected mock)).
  assert (Hall : all = [] <-> Forall (fun rpt => rpt = []) rpts
                              /\ mockClient.unexpected mock = []).
  { subst all. rewrite app_nil, Hnil, surplus_nil. tauto. }
  destruct all as [| e0 all'] eqn:Eall.
  - exists None. split; [done |]. split; [| done].
    split; [intros _; by apply Hall | done].
  - eexists. split; [reflexivity |]. split.
    + split; [done |]. intros H. by apply Hall in H.
    + intros e [= <-]. exists (e0 :: all'). split; [done |]. split.
      * intros i rq rpt Hi Hi' Hne.
        destruct (Hin i rq rpt Hi Hi' Hne) as [He Hd].
        rewrite <- Eall. subst all. split; [apply elem_of_app; by left |].
        intros s Hs. apply elem_of_app. left. auto.
      * intros ix rq Hix. rewrite <- Eall. subst all. apply elem_of_app. right.
        by apply (surplus_reports _ 0 _ ix rq).
Qed.

(** No check panics when every actual request is readable. *)
Lemma ExpectationsWereMet_returns (mock : mockClient.t) :
  Forall readable (mockClient.expectations mock) ->
  exists out, mockClient.ExpectationsWereMet mock = Ok out.
Proof.
  intros Hreadable.
  assert (H : exists rpts,
             Forall2 (fun rq rpt => MockRequest.checkExpectations rq = Ok rpt)
                     (mockClient.expectations mock) rpts).
  { induction Hreadable as [| rq rqs Hrq _ [rpts IH]]; [by exists [] |].
    destruct (checkExpectations_readable rq Hrq) as [rpt Hrpt].
    exists (rpt :: rpts). by constructor. }
  destruct H as [rpts H].
  destruct (ExpectationsWereMet_reports mock rpts H) as (out & -> & _).
  by exists out.
Qed.

(** ** The tests of the repository, on the embedding *)

(** acceptStatus_test.go *)
Example AcceptStatus_no_header :
  request.AcceptStatus [StatusNotFound] (newRequest "" "")
  = Ok (withHeader request.AcceptStatusHeader "[200,404]", None).
Proof. reflexivity. Qed.

Example AcceptStatus_existing_header :
  request.AcceptStatus [StatusNotFound]
    (withHeader request.AcceptStatusHeader "[200,401]")
  = Ok (withHeader request.AcceptStatusHeader "[200,401,404]", None).
Proof. reflexivity. Qed.

Example AcceptStatus_malformed :
  exists e,
    request.AcceptStatus [StatusNotFound]
      (withHeader request.AcceptStatusHeader "this is not valid")
    = Ok (withHeader request.AcceptStatusHeader "this is not valid", Some e)
    /\ Is e request.ErrInvalidJSON = true.
Proof. eexists. split; reflexivity. Qed.

(** maxRetries_test.go *)
Example MaxRetries_existing_header :
  request.MaxRetries 3 (withHeader request.MaxRetriesHeader "10")
  = Ok (withHeader request.MaxRetriesHeader "3", None).
Proof. reflexivity. Qed.

(** client_test.go, TestDo *)
Example Do_wrapped_client_error :
  let out := run (mkFake None 0 (Some permanentFailure)) 0 (newRequest "GET" "") in
  errorIs (snd out) permanentFailure = true /\ response (snd out) = None.
Proof. split; reflexivity. Qed.

Example Do_empty_response_body :
  run (mkFake (Some []) 0 None) 0 (newRequest "GET" "")
  = (1%nat, newRequest "GET" "",
     Ok (Some (Response.mk "200" 200 ∅ (Some NoBody) 0), None)).
Proof. reflexivity. Qed.

Example Do_non_empty_response_body :
  run (mkFake (Some (bytes "body")) 0 None) 0 (newRequest "GET" "")
  = (1%nat, newRequest "GET" "",
     Ok (Some (Response.mk "200" 200 ∅ (Some (Reader (bytes "body") None)) 4),
         None)).
Proof. reflexivity. Qed.

Example Do_retries_configured_on_client :
  let out := run (mkFake None 0 (Some permanentFailure)) 2 (newRequest "" "") in
  fst (fst out) = 3%nat
  /\ errorIs (snd out) permanentFailure = true
  /\ response (snd out) = None.
Proof. repeat split; reflexivity. Qed.

Example Do_retries_request_overrides_client :
  let out := run (mkFake None 0 (Some permanentFailure)) 2
                 (withHeader request.MaxRetriesHeader "1") in
  fst (fst out) = 2%nat
  /\ errorIs (snd out) permanentFailure = true
  /\ response (snd out) = None.
Proof. repeat split; reflexivity. Qed.

Example Do_retries_invalid_request_header :
  let out := run (mkFake None 0 None) 0
                 (withHeader request.MaxRetriesHeader "invalid") in
  fst (fst out) = 0%nat
  /\ errorIs (snd out) ErrInvalidRequestHeader = true
  /\ response (snd out) = None.
Proof. repeat split; reflexivity. Qed.

Example Do_acceptable_status :
  run (mkFake None StatusNotFound None) 0
      (withHeader request.AcceptStatusHeader "[200,404]")
  = (1%nat, newRequest "" "",
     Ok (Some (Response.mk "404" 404 ∅ (Some NoBody) 0), None)).
Proof. reflexivity. Qed.

Example Do_unacceptable_status :
  let out := run (mkFake None StatusUnauthorized None) 0
                 (withHeader request.AcceptStatusHeader "[200,404]") in
  errorIs (snd out) ErrUnexpectedStatusCode = true
  /\ Response.StatusCode <$> response (snd out) = Some StatusUnauthorized
  /\ snd (fst out) = newRequest "" "".
Proof. repeat split; reflexivity. Qed.

Example Do_malformed_accept_status :
  let out := run (mkFake None StatusUnauthorized None) 0
                 (withHeader request.AcceptStatusHeader "this is not json") in
  errorIs (snd out) ErrInvalidJSON = true /\ response (snd out) = None.
Proof. split; reflexivity. Qed.

Example Do_response_body_required_present :
  let out := run (mkFake (Some (bytes "body")) 0 None) 0
                 (withHeader request.ResponseBodyRequiredHeader "") in
  Response.ContentLength <$> response (snd out) = Some 4
  /\ errorIs (snd out) ErrNoResponseBody = false.
Proof. split; reflexivity. Qed.

Example Do_response_body_required_empty :
  let out := run (mkFake (Some []) 0 None) 0
                 (withHeader request.ResponseBodyRequiredHeader "true") in
  errorIs (snd out) ErrNoResponseBody = true
  /\ response (snd out) = Some (Response.mk "200" 200 ∅ (Some NoBody) 0).
Proof. split; reflexivity. Qed.

Example Do_stream_response :
  run (mkFake (Some (bytes "non-empty")) 0 None) 0
      (withHeader request.StreamResponseHeader "true")
  = (1%nat, newRequest "" "",
     Ok (Some (fakeResponse (bytes "non-empty")), None)).
Proof. reflexivity. Qed.

(** The example of the specification. *)
Example Do_fails_twice_then_not_found :
  Do (mkClient "api" "" failsTwice 2) 0%nat
     (withHeader request.AcceptStatusHeader "[200,404]")
  = (3%nat, newRequest "" "",
     Ok (Some (Response.mk "404" 404 ∅
                 (Some (Reader (bytes "not found") None)) 9),
         None)).
Proof. reflexivity. Qed.

(** errors_test.go *)
Example MockExpectationsError_Error :
  Error (MockExpectationsError "foo"
           [errorString "" "first error"; errorString "" "second error"])
  = "foo: expectations not met: [" +++ nl
    +++ "   first error" +++ nl
    +++ "   second error" +++ nl
    +++ "]".
Proof. reflexivity. Qed.

(** mockClient_test.go *)
Example ExpectationsWereMet_no_requests_expected_requests_made :
  mockClient.ExpectationsWereMet
    (mockClient.mk "foo" "" [] [newRequest "GET" "http://hostname/path"]
       noExpectedRequests)
  = Ok (Some (MockExpectationsError "foo"
                [errorString "" "request #1: unexpected: GET http://hostname/path"])).
Proof. reflexivity. Qed.

Example ExpectationsWereMet_one_expected_one_unexpected :
  mockClient.ExpectationsWereMet
    (mockClient.mk "foo" ""
       [MockRequest.mk 0 None None "" ∅ None false None]
       [newRequest "GET" "http://hostname/path"] 0)
  = Ok (Some (MockExpectationsError "foo"
                [errorString "" "request #2: unexpected: GET http://hostname/path"])).
Proof. reflexivity. Qed.

Example ExpectationsWereMet_expected_request_is_made :
  mockClient.ExpectationsWereMet
    (mockClient.mk "" ""
       [MockRequest.mk 0 None None "http://hostname/path" ∅
          (Some (newRequest "GET" "http://hostname/path")) true None]
       [] 0)
  = Ok None.
Proof. reflexivity. Qed.

Example ExpectationsWereMet_unexpected_method :
  mockClient.ExpectationsWereMet
    (mockClient.mk "foo" ""
       [MockRequest.mk 0 (Some "POST") None "http://hostname/path" ∅
          (Some (newRequest "GET" "http://hostname/path")) true None]
       [] 0)
  = Ok (Some (MockExpectationsError "foo"
                [errorString "" "request #1: expecting: POST http://hostname/path";
                 errorString "" "   expected method: POST";
                 errorString "" "      got         : GET"])).
Proof. reflexivity. Qed.

Example Expect_initialises_expected_request :
  mockClient.Expect joinPath
    (mockClient.mk "" "http://hostname" [] [] noExpectedRequests) "GET" "path"
  = Ok (mockClient.mk "" "http://hostname"
          [MockRequest.mk 0 (Some "GET") None "http://hostname/path" ∅ None
             true None]
          [] 0, 0).
Proof. reflexivity. Qed.

Example Expect_when_requests_already_made :
  exists e,
    mockClient.Expect joinPath (mockClient.mk "" "" [] [] 1) "any" "any"
    = Panic (panicError e)
    /\ Is e ErrCannotChangeExpectations = true.
Proof. eexists. split; reflexivity. Qed.

(** mockRequest_test.go *)
Example checkBodyExpectation_body_with_no_body :
  MockRequest.checkBodyExpectation
    (MockRequest.mk 0 None (Some (bytes "body")) "" ∅ None true None)
    (Request.mk "GET" "" ∅ (Some NoBody) 0)
  = Ok ["expected: 4 bytes"; "   got  : <no body>"].
Proof. reflexivity. Qed.

Example checkBodyExpectation_body_with_different_body :
  MockRequest.checkBodyExpectation
    (MockRequest.mk 0 None (Some (bytes "body")) "" ∅ None true None)
    (Request.mk "GET" "" ∅ (Some (Reader (bytes "other") None)) 5)
  = Ok ["request body differs from expected"; "   got   :_________";
        "         |other"; "   wanted:_________"; "         |body"].
Proof. reflexivity. Qed.

Example checkBodyExpectation_any_body_with_no_body :
  MockRequest.checkBodyExpectation
    (MockRequest.mk 0 None None "" ∅ None true None) (newRequest "GET" "")
  = Ok [].
Proof. reflexivity. Qed.


(** * Further properties of the code *)

(** ** client.do *)

Lemma Is_joinError (errs : list error) (e target : error) :
  In e errs -> Is e target = true -> Is (joinError errs) target = true.
Proof.
  intros Hin His. cbn [Is]. apply orb_true_iff. right.
  apply existsb_exists. by exists e.
Qed.

Lemma Join_In (errs : list (option error)) (e : error) :
  In (Some e) errs -> exists es, Join errs = Some (joinError es) /\ In e es.
Proof.
  intros Hin. unfold Join.
  assert (H : In e (omap id errs)).
  { apply list_elem_of_In, list_elem_of_omap. exists (Some e).
    split; [by apply list_elem_of_In | done]. }
  destruct (omap id errs) as [| x l]; [done |]. by eexists.
Qed.

Section DoProperties.

Context {T : Type}.
Implicit Types (c : client T) (st : T) (rq : Request.t) (log : list Request.t).

(** The loop entered with [n] retries left, on a wrapped client that fails
    [k] times, [k] no more than [n], and then answers. *)
Lemma do_loop_answer c rq retries accept (k n : nat) st log st' r :
  (k <= n)%nat ->
  (k = 0%nat \/ retries <> 0) ->
  (forall j, (j < k)%nat ->
     is_Some (snd (snd (wrapped c (after (wrapped c) rq j st) rq)))) ->
  wrapped c (after (wrapped c) rq k st) rq = (st', (Some r, None)) ->
  do_loop (observed c) rq retries accept n (st, log)
  = ((st', log ++ replicate (S k) rq),
     Ok (Some r,
         if existsb (fun sc => uint_of_int (Response.StatusCode r) =? sc)
                    (elements accept)
         then None
         else Some (errorcontext.Errorf "%w: %s"
                      [err ErrUnexpectedStatusCode; str (Response.Status r)]))).
Proof.
  revert n st log. induction k as [| k IH]; intros n st log Hkn Hretries Hfail Hok.
  - change (wrapped c st rq = (st', (Some r, None))) in Hok.
    destruct n; cbn [do_loop wrapped observed recording]; rewrite Hok;
      by destruct (existsb _ _).
  - destruct n as [| n]; [lia |].
    destruct Hretries as [? | Hretries]; [done |].
    apply Z.eqb_neq in Hretries.
    cbn [do_loop wrapped observed recording].
    pose proof (Hfail 0%nat ltac:(lia)) as [e He].
    change (snd (snd (wrapped c st rq)) = Some e) in He.
    destruct (wrapped c st rq) as [st1 [r1 e1]] eqn:Hw. cbn [snd] in He.
    subst e1. rewrite Hretries.
    rewrite (IH n st1 (log ++ [rq]) ltac:(lia)).
    + by rewrite <- app_assoc.
    + right. by apply Z.eqb_neq.
    + intros j Hj. specialize (Hfail (S j) ltac:(lia)).
      rewrite after_S in Hfail. by rewrite Hw in Hfail.
    + rewrite after_S in Hok. by rewrite Hw in Hok.
Qed.

(** X1. Without retries a failure of the wrapped client is final: one call,
    and the response and the error of that call are returned as they are,
    the error not wrapped in [ErrMaxRetriesExceeded]. *)
Theorem do_without_retries c rq accept st st' (r : option Response.t) (e : error) :
  wrapped c st rq = (st', (r, Some e)) ->
  do (observed c) rq 0 accept (st, []) = ((st', [rq]), Ok (r, Some e)).
Proof.
  intros Hw. unfold do. change (Z.to_nat 0) with 0%nat.
  cbn [do_loop wrapped observed recording]. by rewrite Hw.
Qed.

(** X2. Whatever the wrapped client does, [do] calls it at least once and
    at most [retries + 1] times, always with the same request. *)
Theorem do_call_bound c rq retries accept st :
  exists st' (k : nat) out,
    do (observed c) rq retries accept (st, [])
    = ((st', replicate k rq), out)
    /\ (1 <= k <= Z.to_nat retries + 1)%nat.
Proof.
  unfold do. generalize (Z.to_nat retries) as n. intros n.
  assert (H : forall log,
             exists st' (k : nat) out,
               do_loop (observed c) rq retries accept n (st, log)
               = ((st', log ++ replicate k rq), out)
               /\ (1 <= k <= n + 1)%nat).
  { revert st. induction n as [| n IH]; intros st log; cbn [do_loop];
      cbn [wrapped observed recording];
      destruct (wrapped c st rq) as [st' [r [e |]]].
    1, 3: destruct (retries =? 0);
      [exists st', 1%nat; eexists; split; [reflexivity | lia] |].
    - exists st', 1%nat. eexists. split; [reflexivity | lia].
    - destruct (IH st' (log ++ [rq])) as (st'' & k & out & -> & Hk).
      exists st'', (S k), out. rewrite <- app_assoc. split; [done | lia].
    - destruct r as [r |];
        [| exists st', 1%nat; eexists; split; [reflexivity | lia]].
      destruct (existsb _ _);
        exists st', 1%nat; eexists; (split; [reflexivity | lia]).
    - destruct r as [r |];
        [| exists st', 1%nat; eexists; split; [reflexivity | lia]].
      destruct (existsb _ _);
        exists st', 1%nat; eexists; (split; [reflexivity | lia]). }
  destruct (H []) as (st' & k & out & Hdo & Hk). by exists st', k, out.
Qed.

(** X3. When the wrapped client fails [k] times, [k] within the retries,
    and then answers with an accepted status code, [do] makes [k + 1] calls
    and returns that answer without error: the failures leave no trace in
    the result. *)
Theorem do_succeeds_after_failures c rq retries accept (k : nat) st st' r :
  (k <= Z.to_nat retries)%nat ->
  (forall j, (j < k)%nat ->
     is_Some (snd (snd (wrapped c (after (wrapped c) rq j st) rq)))) ->
  wrapped c (after (wrapped c) rq k st) rq = (st', (Some r, None)) ->
  uint_of_int (Response.StatusCode r) ∈ elements accept ->
  do (observed c) rq retries accept (st, [])
  = ((st', replicate (S k) rq), Ok (Some r, None)).
Proof.
  intros Hk Hfail Hok Hin. unfold do.
  rewrite (do_loop_answer c rq retries accept k (Z.to_nat retries) st [] st' r);
    try done.
  - assert (Hex : existsb (fun sc => uint_of_int (Response.StatusCode r) =? sc)
                    (elements accept) = true).
    { apply existsb_exists. exists (uint_of_int (Response.StatusCode r)).
      split; [by apply list_elem_of_In | apply Z.eqb_refl]. }
    by rewrite Hex.
  - destruct k; [by left | right; lia].
Qed.

(** X4. A status code that is not accepted is not retried: the answer ends
    the loop, and is returned with an error for which [errors.Is] holds of
    [ErrUnexpectedStatusCode]. *)
Theorem do_unexpected_status c rq retries accept st st' r :
  wrapped c st rq = (st', (Some r, None)) ->
  uint_of_int (Response.StatusCode r) ∉ elements accept ->
  exists e,
    do (observed c) rq retries accept (st, [])
    = ((st', [rq]), Ok (Some r, Some e))
    /\ Is e ErrUnexpectedStatusCode = true.
Proof.
  intros Hw Hnotin. unfold do.
  rewrite (do_loop_answer c rq retries accept 0 (Z.to_nat retries) st [] st' r);
    [| lia | by left | intros j Hj; lia | done].
  assert (Hex : existsb (fun sc => uint_of_int (Response.StatusCode r) =? sc)
                  (elements accept) = false).
  { apply not_true_is_false. intros Hex.
    apply existsb_exists in Hex as (sc & Hin & Heq).
    apply Z.eqb_eq in Heq. apply Hnotin. rewrite Heq. by apply list_elem_of_In. }
  rewrite Hex. eexists. split; [reflexivity |].
  apply Is_errorcontext_Errorf with ErrUnexpectedStatusCode;
    [simpl; tauto | apply Is_refl].
Qed.

End DoProperties.

(** ** client.parseRequestHeaders and client.Do *)

Section DoFurther.

Context {T : Type}.
Implicit Types (c : client T) (st : T) (rq : Request.t) (d : directives).

Lemma Do_parse_error c st rq rq' (e0 : error) :
  parseRequestHeaders c rq = (rq', Ok (inr e0)) ->
  exists e,
    Do (observed c) (st, []) rq = ((st, []), rq', Ok (None, Some e))
    /\ forall target, Is e0 target = true -> Is e target = true.
Proof.
  intros Hparse. unfold Do. rewrite parseRequestHeaders_observed, Hparse.
  eexists. split; [reflexivity |]. intros target His.
  apply Is_errorcontext_Errorf with e0; [simpl; tauto | done].
Qed.

(** X5. A max-retries header whose first value is not an integer makes [Do]
    fail before any call of the wrapped client: no response, the reserved
    headers deleted all the same, and an error for which [errors.Is] holds
    of [ErrInvalidRequestHeader] and of the error of [strconv.Atoi],
    whatever the other directive headers hold. *)
Theorem Do_invalid_max_retries c st rq (v : string) (vs : list string)
        (e0 : error) :
  Request.Header rq !! request.MaxRetriesHeader = Some (v :: vs) ->
  Atoi v = inr e0 ->
  valued (Request.Header rq) ->
  exists e,
    Do (observed c) (st, []) rq
    = ((st, []), Request.setHeader rq (strip (Request.Header rq)),
       Ok (None, Some e))
    /\ Is e ErrInvalidRequestHeader = true
    /\ Is e e0 = true.
Proof.
  intros Hheader Hatoi Hvalued.
  destruct (parseRequestHeaders_valued c rq Hvalued) as [x Hparse].
  assert (H : snd (parseRequestHeaders c rq) = Ok x) by by rewrite Hparse.
  rewrite parseRequestHeaders_outcome, Hheader in H.
  unfold directivesFrom in H. cbn [parsed first bind] in H.
  unfold parseMaxRetries in H. rewrite Hatoi in H. cbn [bind] in H.
  destruct (parsed _ request.AcceptStatusHeader _) as [[v2 e2] |];
    [| done]; cbn [bind] in H.
  destruct (parsed _ request.ResponseBodyRequiredHeader _) as [[v3 e3] |];
    [| done]; cbn [bind] in H.
  destruct (parsed _ request.StreamResponseHeader _) as [[v4 e4] |];
    [| done]; cbn [bind] in H.
  match type of H with
  | context [Join (Some ?e1 :: ?l)] =>
      destruct (Join_In (Some e1 :: l) e1 ltac:(by left)) as (es & HJ & Hin);
      rewrite HJ in H;
      assert (H1 : Is e1 ErrInvalidRequestHeader = true)
        by (apply Is_errorcontext_Errorf with ErrInvalidRequestHeader;
            [simpl; tauto | apply Is_refl]);
      assert (H2 : Is e1 e0 = true)
        by (apply Is_errorcontext_Errorf with e0;
            [simpl; tauto | apply Is_refl])
  end.
  injection H as <-.
  destruct (Do_parse_error c st rq _ _ Hparse) as (e & HDo & His).
  exists e. split; [done |].
  split; apply His; by (eapply Is_joinError; [exact Hin |]).
Qed.

(** An error of the accept-status directive reaches the caller of [Do],
    which makes no call of the wrapped client. *)
Lemma Do_accept_status_error c st rq (v : string) (vs : list string)
      (e1 : error) :
  Request.Header rq !! request.AcceptStatusHeader = Some (v :: vs) ->
  parseAcceptStatus v = inr e1 ->
  valued (Request.Header rq) ->
  exists e,
    Do (observed c) (st, []) rq
    = ((st, []), Request.setHeader rq (strip (Request.Header rq)),
       Ok (None, Some e))
    /\ Is e ErrInvalidRequestHeader = true
    /\ forall target, Is e1 target = true -> Is e target = true.
Proof.
  intros Hheader Hjson Hvalued.
  destruct (parseRequestHeaders_valued c rq Hvalued) as [x Hparse].
  assert (H : snd (parseRequestHeaders c rq) = Ok x) by by rewrite Hparse.
  rewrite parseRequestHeaders_outcome, Hheader in H.
  unfold directivesFrom in H.
  destruct (parsed _ request.MaxRetriesHeader _) as [[v1 e1'] |];
    [| done]; cbn [bind] in H.
  cbn [parsed first bind] in H. rewrite Hjson in H. cbn [bind] in H.
  destruct (parsed _ request.ResponseBodyRequiredHeader _) as [[v3 e3] |];
    [| done]; cbn [bind] in H.
  destruct (parsed _ request.StreamResponseHeader _) as [[v4 e4] |];
    [| done]; cbn [bind] in H.
  match type of H with
  | context [Join (e1' :: Some ?e2 :: ?l)] =>
      destruct (Join_In (e1' :: Some e2 :: l) e2 ltac:(by right; left))
        as (es & HJ & Hin);
      rewrite HJ in H;
      assert (H1 : Is e2 ErrInvalidRequestHeader = true)
        by (apply Is_errorcontext_Errorf with ErrInvalidRequestHeader;
            [simpl; tauto | apply Is_refl]);
      assert (H2 : forall target, Is e1 target = true -> Is e2 target = true)
        by (intros target Ht; apply Is_errorcontext_Errorf with e1;
            [simpl; tauto | done])
  end.
  injection H as <-.
  destruct (Do_parse_error c st rq _ _ Hparse) as (e & HDo & His).
  exists e. split; [done |]. split.
  - apply His. by (eapply Is_joinError; [exact Hin |]).
  - intros target Ht. apply His. eapply Is_joinError; [exact Hin |]. auto.
Qed.

(** X6. An accept-status header whose first value does not decode as a JSON
    array of unsigned integers makes [Do] fail before any call of the
    wrapped client, with an error for which [errors.Is] holds of
    [ErrInvalidRequestHeader], of [ErrInvalidJSON] and of the error of
    [json.Unmarshal], whatever the other directive headers hold. *)
Theorem Do_invalid_accept_status c st rq (v : string) (vs : list string)
        (e0 : error) :
  Request.Header rq !! request.AcceptStatusHeader = Some (v :: vs) ->
  Unmarshal convUint (Some [StatusOK]) v = inr e0 ->
  valued (Request.Header rq) ->
  exists e,
    Do (observed c) (st, []) rq
    = ((st, []), Request.setHeader rq (strip (Request.Header rq)),
       Ok (None, Some e))
    /\ Is e ErrInvalidRequestHeader = true
    /\ Is e ErrInvalidJSON = true
    /\ Is e e0 = true.
Proof.
  intros Hheader Hjson Hvalued.
  destruct (Do_accept_status_error c st rq v vs
              (Go.Errorf "%w: %w" [err ErrInvalidJSON; err e0]) Hheader)
    as (e & HDo & H1 & H2); [| done |].
  { unfold parseAcceptStatus. by rewrite Hjson. }
  exists e. split; [done |]. split; [done |]. split; apply H2.
  - apply Is_Errorf with ErrInvalidJSON; [simpl; tauto | apply Is_refl].
  - apply Is_Errorf with e0; [simpl; tauto | apply Is_refl].
Qed.

(** X7. With the body-required directive and without streaming, an
    accepted answer whose body reads as empty is returned together with an
    error for which [errors.Is] holds of [ErrNoResponseBody]; the response
    carries [http.NoBody] and content length 0. *)
Theorem Do_body_required_empty c st rq rq' d st' r :
  parseRequestHeaders c rq = (rq', Ok (inl d)) ->
  streamResponse d = false ->
  responseBodyRequired d = true ->
  do c rq' (retries d) (acceptableStatusCodes d) st = (st', Ok (Some r, None)) ->
  ioReadAll (Response.Body r) = Ok ([], None) ->
  exists r' e,
    Do c st rq = (st', rq', Ok (Some r', Some e))
    /\ Is e ErrNoResponseBody = true
    /\ Response.ContentLength r' = 0
    /\ Response.Body r' = Some NoBody
    /\ Response.StatusCode r' = Response.StatusCode r.
Proof.
  intros Hparse Hstream Hrequired Hdo Hread.
  rewrite (Do_parsed c st rq rq' d Hparse st' r Hdo), Hstream, Hread, Hrequired.
  cbn [bind length Z.of_nat Z.eqb andb]. eexists. eexists.
  split; [reflexivity |]. split; [| done].
  apply Is_errorcontext_Errorf with ErrNoResponseBody;
    [simpl; tauto | apply Is_refl].
Qed.

(** X8. Without streaming, when reading the body of an accepted answer
    fails, [Do] returns the response emptied ([http.NoBody], content length
    0), whatever had been read before the failure, and an error for which
    [errors.Is] holds of the read error. *)
Theorem Do_read_error c st rq rq' d st' r (B : list byte) (e0 : error) :
  parseRequestHeaders c rq = (rq', Ok (inl d)) ->
  streamResponse d = false ->
  do c rq' (retries d) (acceptableStatusCodes d) st = (st', Ok (Some r, None)) ->
  ioReadAll (Response.Body r) = Ok (B, Some e0) ->
  exists r' e,
    Do c st rq = (st', rq', Ok (Some r', Some e))
    /\ Is e e0 = true
    /\ Response.ContentLength r' = 0
    /\ Response.Body r' = Some NoBody
    /\ Response.StatusCode r' = Response.StatusCode r.
Proof.
  intros Hparse Hstream Hdo Hread.
  rewrite (Do_parsed c st rq rq' d Hparse st' r Hdo), Hstream, Hread.
  cbn [bind]. eexists. eexists. split; [reflexivity |]. split; [| done].
  apply Is_errorcontext_Errorf
    with (errorcontext.Errorf "response.Body: %w" [err e0]);
    [simpl; tauto |].
  apply Is_errorcontext_Errorf with e0; [simpl; tauto | apply Is_refl].
Qed.

(** X9. [parseRequestHeaders] touches the reserved headers and nothing
    else: method, url, body and content length of the request, and every
    header that is not reserved, are as before, whether it returns
    directives, returns an error or panics. *)
Theorem parseRequestHeaders_frame c rq :
  let rq' := fst (parseRequestHeaders c rq) in
  Request.Method rq' = Request.Method rq
  /\ Request.URL rq' = Request.URL rq
  /\ Request.Body rq' = Request.Body rq
  /\ Request.ContentLength rq' = Request.ContentLength rq
  /\ forall k, k ∉ reserved ->
       Request.Header rq' !! k = Request.Header rq !! k.
Proof.
  unfold parseRequestHeaders, parse. destruct rq as [m u h b n].
  cbn [Request.Header].
  assert (Hne : forall k, k ∉ reserved ->
            request.MaxRetriesHeader <> k /\ request.AcceptStatusHeader <> k
            /\ request.ResponseBodyRequiredHeader <> k
            /\ request.StreamResponseHeader <> k).
  { intros k Hk. unfold reserved in Hk.
    rewrite !elem_of_cons, elem_of_nil in Hk.
    repeat split; intros <-; tauto. }
  destruct (parsed _ request.MaxRetriesHeader _) as [[v1 e1] |];
    [| repeat split; intros k Hk; cbn; destruct (Hne k Hk) as (? & ? & ? & ?);
       by rewrite !lookup_delete_ne].
  destruct (parsed _ request.AcceptStatusHeader _) as [[v2 e2] |];
    [| repeat split; intros k Hk; cbn; destruct (Hne k Hk) as (? & ? & ? & ?);
       by rewrite !lookup_delete_ne].
  destruct (parsed _ request.ResponseBodyRequiredHeader _) as [[v3 e3] |];
    [| repeat split; intros k Hk; cbn; destruct (Hne k Hk) as (? & ? & ? & ?);
       by rewrite !lookup_delete_ne].
  destruct (parsed _ request.StreamResponseHeader _) as [[v4 e4] |];
    repeat split; intros k Hk; cbn; destruct (Hne k Hk) as (? & ? & ? & ?);
    by rewrite !lookup_delete_ne.
Qed.

(** X10. A request without reserved headers is left as it is, and gets the
    defaults: the retries of the client, status 200 alone accepted, no body
    required, no streaming. *)
Theorem parseRequestHeaders_defaults c rq :
  stripped rq ->
  parseRequestHeaders c rq
  = (rq, Ok (inl (mkDirectives (maxRetries c) (Some [StatusOK]) false false))).
Proof.
  unfold stripped, reserved. rewrite !Forall_cons.
  intros (H1 & H2 & H3 & H4 & _).
  destruct (parseRequestHeaders_valued c rq) as [x Hparse].
  { unfold valued, reserved. rewrite !Forall_cons, H1, H2, H3, H4.
    repeat split; done. }
  assert (H : snd (parseRequestHeaders c rq) = Ok x) by by rewrite Hparse.
  rewrite parseRequestHeaders_outcome, H1, H2, H3, H4 in H.
  injection H as <-. rewrite Hparse. f_equal.
  unfold strip.
  rewrite (delete_id (Request.Header rq) request.MaxRetriesHeader) by done.
  rewrite (delete_id (Request.Header rq) request.AcceptStatusHeader) by done.
  rewrite (delete_id (Request.Header rq) request.ResponseBodyRequiredHeader)
    by done.
  rewrite (delete_id (Request.Header rq) request.StreamResponseHeader) by done.
  by destruct rq.
Qed.

End DoFurther.

(** ** Decimal integers: strconv.Itoa against strconv.Atoi and the JSON
    scanner *)

Lemma digit_cases (d : Z) :
  0 <= d <= 9 ->
  d = 0 \/ d = 1 \/ d = 2 \/ d = 3 \/ d = 4 \/ d = 5 \/ d = 6 \/ d = 7
  \/ d = 8 \/ d = 9.
Proof. lia. Qed.

Lemma digit_isDigit (d : Z) :
  0 <= d <= 9 -> isDigit (digit d) = true /\ digitValue (digit d) = d.
Proof.
  intros Hd. destruct (digit_cases d Hd)
    as [-> | [-> | [-> | [-> | [-> | [-> | [-> | [-> | [-> | ->]]]]]]]]];
    by split.
Qed.

Lemma digits_digit (d : Z) (s : string) (a : Z) :
  0 <= d <= 9 -> digits (String (digit d) s) a = digits s (10 * a + d).
Proof.
  intros Hd. cbn [digits]. by destruct (digit_isDigit d Hd) as [-> ->].
Qed.

(** With fuel for its bits, [utoa] writes [n] in front of [acc]: a first
    digit, zero for zero alone, and digits whose value is [n]. *)
Lemma utoa_spec (f : nat) (n : Z) (acc : string) :
  0 <= n < 2 ^ Z.of_nat (S f) ->
  (exists d s, utoa (S f) n acc = String (digit d) s
               /\ 0 <= d <= 9 /\ (d = 0 -> n = 0 /\ s = acc))
  /\ exists p, forall a, digits (utoa (S f) n acc) a = digits acc (a * p + n).
Proof.
  revert n acc. induction f as [| f IH]; intros n acc Hn.
  - assert (Hsmall : n / 10 = 0) by (apply Z.div_small; simpl in Hn; lia).
    assert (Hmod : n mod 10 = n) by (apply Z.mod_small; simpl in Hn; lia).
    cbn [utoa]. rewrite Hsmall, Hmod. cbn [Z.eqb]. split.
    + exists n, acc. simpl in Hn. repeat split; lia.
    + exists 10. intros a. rewrite digits_digit by (simpl in Hn; lia).
      f_equal. lia.
  - change (utoa (S (S f)) n acc)
      with (let acc' := String (digit (n mod 10)) acc in
            if n / 10 =? 0 then acc' else utoa (S f) (n / 10) acc').
    cbv zeta.
    assert (Hmod : 0 <= n mod 10 <= 9) by (pose proof (Z.mod_pos_bound n 10); lia).
    destruct (n / 10 =? 0) eqn:Hdiv.
    + apply Z.eqb_eq in Hdiv.
      assert (Hn' : n mod 10 = n).
      { pose proof (Z.div_mod n 10 ltac:(lia)). lia. }
      split.
      * exists (n mod 10), acc. repeat split; lia.
      * exists 10. intros a. rewrite digits_digit by done. f_equal. lia.
    + apply Z.eqb_neq in Hdiv.
      assert (Hrange : 0 <= n / 10 < 2 ^ Z.of_nat (S f)).
      { split; [apply Z.div_pos; lia |].
        apply Z.div_lt_upper_bound; [lia |].
        rewrite (Nat2Z.inj_succ (S f)), Z.pow_succ_r in Hn by lia. lia. }
      destruct (IH (n / 10) (String (digit (n mod 10)) acc) Hrange)
        as [(d & s & Hs & Hd & Hzero) [p Hp]].
      split.
      * exists d, s. split; [done |]. split; [done |].
        intros Hd0. destruct (Hzero Hd0) as [? _]. lia.
      * exists (10 * p). intros a. rewrite Hp, digits_digit by done.
        f_equal. pose proof (Z.div_mod n 10 ltac:(lia)). lia.
Qed.

Lemma log2_fuel (n : Z) : 0 <= n -> n < 2 ^ Z.of_nat (S (Z.to_nat (Z.log2 n))).
Proof.
  intros Hn. rewrite Nat2Z.inj_succ, Z2Nat.id by apply Z.log2_nonneg.
  destruct (Z.eq_dec n 0) as [-> | Hne]; [done |].
  apply Z.log2_spec. lia.
Qed.

(** The form of [Itoa] on a natural number. *)
Lemma Itoa_nonneg (n : Z) :
  0 <= n ->
  exists d s, Itoa n = String (digit d) s
              /\ 0 <= d <= 9 /\ (d = 0 -> n = 0 /\ s = "")
              /\ digits s d = Some n.
Proof.
  intros Hn. unfold Itoa.
  assert (Hlt : (n <? 0) = false) by (apply Z.ltb_ge; lia). rewrite Hlt.
  destruct (utoa_spec (Z.to_nat (Z.log2 n)) n "")
    as [(d & s & Hs & Hd & Hzero) [p Hp]].
  { split; [done | by apply log2_fuel]. }
  exists d, s. split; [done |]. split; [done |]. split; [done |].
  specialize (Hp 0). rewrite Hs, digits_digit in Hp by done.
  transitivity (digits "" (0 * p + n)); [| cbn [digits]; f_equal; lia].
  by rewrite <- Hp.
Qed.

Lemma Itoa_neg (n : Z) :
  n < 0 -> Itoa n = String "-" (Itoa (- n)).
Proof.
  intros Hn. unfold Itoa.
  assert (H1 : (n <? 0) = true) by (apply Z.ltb_lt; lia).
  assert (H2 : (- n <? 0) = false) by (apply Z.ltb_ge; lia).
  by rewrite H1, H2.
Qed.

Lemma Atoi_digits (d : Z) (s : string) (n : Z) :
  0 <= d <= 9 -> digits s d = Some n ->
  Atoi (String (digit d) s)
  = (if (minInt <=? n) && (n <=? maxInt) then inl n else inr numError)
  /\ Atoi (String "-" (String (digit d) s))
     = (if (minInt <=? - n) && (- n <=? maxInt) then inl (- n)
        else inr numError).
Proof.
  intros Hd Hs.
  assert (H : digits (String (digit d) s) 0 = Some n).
  { by rewrite digits_digit. }
  destruct (digit_cases d Hd)
    as [-> | [-> | [-> | [-> | [-> | [-> | [-> | [-> | [-> | ->]]]]]]]]];
    unfold Atoi;
    match goal with
    | |- context [digit ?k] =>
        let c := eval vm_compute in (digit k) in
        change (digit k) with c in *
    end;
    cbv iota beta; rewrite H; by split.
Qed.

(** [strconv.Atoi] reads back what [strconv.Itoa] writes. *)
Lemma Atoi_Itoa (i : Z) : minInt <= i <= maxInt -> Atoi (Itoa i) = inl i.
Proof.
  intros Hi. destruct (Z_lt_le_dec i 0) as [Hneg | Hpos].
  - rewrite Itoa_neg by done.
    destruct (Itoa_nonneg (- i) ltac:(lia)) as (d & s & -> & Hd & _ & Hs).
    destruct (Atoi_digits d s (- i) Hd Hs) as [_ ->].
    rewrite Z.opp_involutive.
    assert (H : (minInt <=? i) && (i <=? maxInt) = true)
      by (apply andb_true_iff; split; apply Z.leb_le; lia).
    by rewrite H.
  - destruct (Itoa_nonneg i Hpos) as (d & s & -> & Hd & _ & Hs).
    destruct (Atoi_digits d s i Hd Hs) as [-> _].
    assert (H : (minInt <=? i) && (i <=? maxInt) = true)
      by (apply andb_true_iff; split; apply Z.leb_le; lia).
    by rewrite H.
Qed.

Lemma uint_int_uint (n : Z) :
  0 <= n <= maxUint ->
  minInt <= int_of_uint n <= maxInt /\ uint_of_int (int_of_uint n) = n.
Proof.
  unfold int_of_uint, uint_of_int, maxUint, minInt, maxInt, two64. intros Hn.
  destruct (n <=? 2 ^ 63 - 1) eqn:Hle.
  - apply Z.leb_le in Hle. split; [lia |]. apply Z.mod_small. lia.
  - apply Z.leb_gt in Hle. split; [lia |].
    replace (n - 2 ^ 64) with (n + (-1) * 2 ^ 64) by lia.
    rewrite Z.mod_add by lia. apply Z.mod_small. lia.
Qed.

Lemma append_assoc (a b c : string) : (a +++ b) +++ c = a +++ (b +++ c).
Proof.
  induction a as [| x a IH]; [done |].
  change (String x ((a +++ b) +++ c) = String x (a +++ (b +++ c))).
  by rewrite IH.
Qed.

Lemma scanAll_app (s1 s2 : string) (st : scan) (acc : list token) :
  scanAll (s1 +++ s2) st acc
  = scanAll s2 (fst (scanAll s1 st acc)) (snd (scanAll s1 st acc)).
Proof.
  revert st acc. induction s1 as [| c s1 IH]; intros st acc; [done |].
  change (String c s1 +++ s2) with (String c (s1 +++ s2)). cbn [scanAll].
  destruct (step st acc c) as [st' acc']. apply IH.
Qed.

Lemma digits_le (s : string) (a v : Z) : 0 <= a -> digits s a = Some v -> a <= v.
Proof.
  revert a. induction s as [| c s IH]; intros a Ha; cbn [digits].
  - intros [= <-]. lia.
  - unfold isDigit, digitValue. destruct (_ && _) eqn:Hc; [| done].
    apply andb_true_iff in Hc as [Hlo _]. apply Z.leb_le in Hlo.
    intros H. apply IH in H; lia.
Qed.

Lemma scan_digits (s : string) (a v : Z) (neg : bool) (acc : list token) :
  digits s a = Some v ->
  scanAll s (scanInt neg a) acc = (scanInt neg v, acc).
Proof.
  revert a. induction s as [| c s IH]; intros a; cbn [digits scanAll].
  - by intros [= <-].
  - destruct (isDigit c) eqn:Hc; [| done]. cbn [step]. rewrite Hc. apply IH.
Qed.

Lemma begin_digit (d : Z) (acc : list token) :
  1 <= d <= 9 ->
  step scanOpen acc (digit d) = (scanInt false d, acc)
  /\ step scanElem acc (digit d) = (scanInt false d, acc)
  /\ step scanNeg acc (digit d) = (scanInt true d, acc).
Proof.
  intros Hd. destruct (digit_cases d ltac:(lia))
    as [-> | [-> | [-> | [-> | [-> | [-> | [-> | [-> | [-> | ->]]]]]]]]];
    try lia; by repeat split.
Qed.

Lemma scan_Itoa (x : Z) (st : scan) (acc : list token) :
  st = scanOpen \/ st = scanElem ->
  scanAll (Itoa x) st acc = (afterLiteral x, acc).
Proof.
  intros Hst. unfold afterLiteral. destruct (Z_lt_le_dec x 0) as [Hneg | Hpos].
  - rewrite Itoa_neg by done.
    destruct (Itoa_nonneg (- x) ltac:(lia)) as (d & s & -> & Hd & Hzero & Hs).
    assert (Hd1 : 1 <= d <= 9).
    { destruct (Z.eq_dec d 0) as [H0 | ?]; [apply Hzero in H0 |]; lia. }
    destruct (begin_digit d acc Hd1) as (_ & _ & Hstep).
    assert (H0 : (x =? 0) = false) by (apply Z.eqb_neq; lia).
    assert (H1 : (x <? 0) = true) by (apply Z.ltb_lt; lia).
    rewrite H0, H1.
    cbn [scanAll].
    replace (step st acc "-") with (scanNeg, acc)
      by (by destruct Hst as [-> | ->]).
    rewrite Hstep. rewrite (scan_digits s d (- x)) by done.
    do 2 f_equal. lia.
  - destruct (Itoa_nonneg x Hpos) as (d & s & -> & Hd & Hzero & Hs).
    destruct (Z.eq_dec d 0) as [-> | Hd0].
    + destruct (Hzero eq_refl) as [-> ->]. by destruct Hst as [-> | ->].
    + assert (Hd1 : 1 <= d <= 9) by lia.
      destruct (begin_digit d acc Hd1) as (Hopen & Helem & _).
      pose proof (digits_le s d x ltac:(lia) Hs) as Hle.
      assert (H0 : (x =? 0) = false) by (apply Z.eqb_neq; lia).
      assert (H1 : (x <? 0) = false) by (apply Z.ltb_ge; lia).
      rewrite H0, H1. cbn [scanAll].
      replace (step st acc (digit d)) with (scanInt false d, acc)
        by (by destruct Hst as [-> | ->]).
      rewrite (scan_digits s d x) by done. do 2 f_equal. lia.
Qed.

Lemma end_literal (x : Z) (acc : list token) :
  step (afterLiteral x) acc "," = (scanElem, literal x :: acc)
  /\ step (afterLiteral x) acc "]" = (scanEndArray, literal x :: acc).
Proof.
  unfold afterLiteral, literal. destruct (x =? 0) eqn:H0.
  - apply Z.eqb_eq in H0. subst x. by split.
  - by split.
Qed.

(** The scanner on the elements that [json.Marshal] writes. *)
Lemma scan_elements (l : list Z) (st : scan) (acc : list token) :
  l <> [] -> st = scanOpen \/ st = scanElem ->
  scanAll (String.concat "," (List.map Itoa l) +++ "]") st acc
  = (scanEndArray, rev (List.map literal l) ++ acc).
Proof.
  revert st acc. induction l as [| x l IH]; intros st acc Hne Hst; [done |].
  destruct l as [| y l].
  - cbn [List.map String.concat]. rewrite scanAll_app, scan_Itoa by done.
    cbn [fst snd scanAll]. by destruct (end_literal x acc) as [_ ->].
  - change (String.concat "," (List.map Itoa (x :: y :: l)))
      with (Itoa x +++ "," +++ String.concat "," (List.map Itoa (y :: l))).
    rewrite !append_assoc, scanAll_app, scan_Itoa by done.
    cbn [fst snd]. change ("," +++ ?s) with (String "," s). cbn [scanAll].
    destruct (end_literal x acc) as [-> _].
    rewrite IH by (done || by right).
    change (List.map literal (x :: y :: l))
      with (literal x :: List.map literal (y :: l)).
    change (rev (literal x :: ?k)) with (rev k ++ [literal x]).
    by rewrite <- app_assoc.
Qed.

Lemma storeAll_literals (conv : bool -> Z -> option Z) (old l : list Z) :
  Forall (fun x => conv (x <? 0) (Z.abs x) = Some x) l ->
  storeAll conv old (List.map literal l) = Some l.
Proof.
  intros H. revert old. induction H as [| x l Hx _ IH]; intros old; [done |].
  cbn [List.map storeAll literal]. by rewrite Hx, IH.
Qed.

Lemma Unmarshal_Marshal_tokens (conv : bool -> Z -> option Z) (old : slice)
      (l : list Z) :
  Unmarshal conv old (Marshal (Some l))
  = match storeAll conv (elements old) (List.map literal l) with
    | Some l' => inl (Some l')
    | None => inr jsonError
    end.
Proof.
  unfold Unmarshal, Marshal.
  change ("[" +++ ?s) with (String "[" s).
  change (scanAll (String "[" ?s) scanBegin [])
    with (scanAll s scanOpen []).
  destruct l as [| x l]; [done |].
  rewrite scan_elements by (done || by left).
  by rewrite app_nil_r, rev_involutive.
Qed.

(** [json.Unmarshal] reads back what [json.Marshal] writes, into whatever
    slice it is given, when the element type holds the numbers. *)
Lemma Unmarshal_Marshal (conv : bool -> Z -> option Z) (old : slice)
      (l : list Z) :
  Forall (fun x => conv (x <? 0) (Z.abs x) = Some x) l ->
  Unmarshal conv old (Marshal (Some l)) = inl (Some l).
Proof.
  intros Hl. by rewrite Unmarshal_Marshal_tokens, storeAll_literals.
Qed.

Lemma storeAll_fails (conv : bool -> Z -> option Z) (old l : list Z) :
  Exists (fun x => conv (x <? 0) (Z.abs x) = None) l ->
  storeAll conv old (List.map literal l) = None.
Proof.
  intros H. revert old. induction H as [x l Hx | x l _ IH]; intros old;
    cbn [List.map storeAll literal].
  - by rewrite Hx.
  - rewrite IH. by destruct (conv _ _).
Qed.

Lemma convInt_literal (x : Z) :
  minInt <= x <= maxInt -> convInt (x <? 0) (Z.abs x) = Some x.
Proof.
  intros Hx. unfold convInt.
  assert (Hv : (if x <? 0 then - Z.abs x else Z.abs x) = x).
  { destruct (x <? 0) eqn:H; [apply Z.ltb_lt in H | apply Z.ltb_ge in H]; lia. }
  rewrite Hv.
  assert (H : (minInt <=? x) && (x <=? maxInt) = true)
    by (apply andb_true_iff; split; apply Z.leb_le; lia).
  by rewrite H.
Qed.

Lemma convUint_literal (x : Z) :
  0 <= x <= maxUint -> convUint (x <? 0) (Z.abs x) = Some x.
Proof.
  intros Hx. unfold convUint.
  assert (H1 : (x <? 0) = false) by (apply Z.ltb_ge; lia).
  assert (H2 : (Z.abs x <=? maxUint) = true) by (apply Z.leb_le; lia).
  rewrite H1, H2. f_equal. lia.
Qed.

Lemma convUint_negative (x : Z) : x < 0 -> convUint (x <? 0) (Z.abs x) = None.
Proof.
  intros Hx. unfold convUint.
  assert (H1 : (x <? 0) = true) by (apply Z.ltb_lt; lia). by rewrite H1.
Qed.


(** ** The request options against the engine that reads them *)

Lemma parsed_Ok_values {A} (o : option (list string)) (hdr : string)
      (fn : string -> A + error) x :
  parsed o hdr fn = Ok x -> o <> Some [].
Proof. by intros H ->. Qed.

Section OptionProperties.

Context {T : Type}.
Implicit Types (c : client T) (rq : Request.t) (d : directives).

(** When [parseRequestHeaders] returns, every reserved header that was set
    had a value. *)
Lemma parseRequestHeaders_Ok_valued c rq x :
  snd (parseRequestHeaders c rq) = Ok x -> valued (Request.Header rq).
Proof.
  rewrite parseRequestHeaders_outcome. unfold directivesFrom. intros H.
  destruct (parsed _ request.MaxRetriesHeader _) as [[v1 e1] |] eqn:E1;
    [| done]; cbn [bind] in H.
  destruct (parsed _ request.AcceptStatusHeader _) as [[v2 e2] |] eqn:E2;
    [| done]; cbn [bind] in H.
  destruct (parsed _ request.ResponseBodyRequiredHeader _)
    as [[v3 e3] |] eqn:E3; [| done]; cbn [bind] in H.
  destruct (parsed _ request.StreamResponseHeader _) as [[v4 e4] |] eqn:E4;
    [| done].
  unfold valued, reserved. rewrite !Forall_cons.
  repeat split; eauto using parsed_Ok_values.
Qed.

(** What [request.AcceptStatus] does with a header whose first value
    decodes. *)
Lemma AcceptStatus_decoded rq (v : string) (vs : list string) (acc : slice)
      (codes : list Z) :
  Request.Header rq !! request.AcceptStatusHeader = Some (v :: vs) ->
  Unmarshal convInt (Some [StatusOK]) v = inl acc ->
  request.AcceptStatus codes rq
  = Ok (Request.setHeader rq
          (<[request.AcceptStatusHeader := [Marshal (append acc codes)]]>
             (Request.Header rq)), None).
Proof.
  intros Hheader Hjson. unfold request.AcceptStatus.
  rewrite Hheader. cbn [first bind]. by rewrite Hjson.
Qed.

Lemma Forall_isInt_literal (l : list Z) :
  Forall isInt l ->
  Forall (fun x => convInt (x <? 0) (Z.abs x) = Some x) l.
Proof.
  intros Hl. eapply Forall_impl; [exact Hl |].
  intros x Hx. by apply convInt_literal.
Qed.

(** The outcome of [parseRequestHeaders] after one reserved header has
    been set to a value that parses. *)
Lemma parseRequestHeaders_set_max_retries c rq rq' d (s : string) (n : Z) :
  parseMaxRetries s = inl n ->
  parseRequestHeaders c
    (Request.setHeader rq
       (delete request.MaxRetriesHeader (Request.Header rq)))
  = (rq', Ok (inl d)) ->
  parseRequestHeaders c
    (Request.setHeader rq
       (<[request.MaxRetriesHeader := [s]]> (Request.Header rq)))
  = (rq', Ok (inl (setRetries d n))).
Proof.
  intros Hs Hparse. destruct rq as [m u h b len].
  unfold Request.setHeader in *.
  cbn [Request.Header Request.Method Request.URL Request.Body
       Request.ContentLength] in *.
  set (without := Request.mk m u (delete request.MaxRetriesHeader h) b len)
    in *.
  set (with_ := Request.mk m u (<[request.MaxRetriesHeader := [s]]> h) b len).
  assert (Hout : snd (parseRequestHeaders c without) = Ok (inl d))
    by by rewrite Hparse.
  pose proof (parseRequestHeaders_Ok_valued _ _ _ Hout) as Hvalued.
  pose proof (parseRequestHeaders_request _ _ _ Hout) as Hrq.
  rewrite Hparse in Hrq. cbn [fst] in Hrq.
  destruct (parseRequestHeaders_valued c with_) as [x Hwith].
  { unfold valued, reserved in *. rewrite !Forall_cons in *.
    subst with_ without. cbn [Request.Header] in *.
    rewrite lookup_insert_eq.
    rewrite !lookup_insert_ne by distinct_headers.
    destruct Hvalued as (_ & H2 & H3 & H4 & _).
    rewrite lookup_delete_ne in H2, H3, H4 by distinct_headers.
    repeat split; done. }
  rewrite Hwith. f_equal.
  - rewrite Hrq. subst with_ without.
    cbn [Request.Header Request.setHeader].
    rewrite strip_insert by (unfold reserved; set_solver).
    unfold strip. by rewrite delete_delete_eq.
  - assert (H : snd (parseRequestHeaders c with_) = Ok x) by by rewrite Hwith.
    rewrite parseRequestHeaders_outcome in H, Hout.
    subst with_ without. cbn [Request.Header] in *.
    rewrite lookup_insert_eq in H.
    rewrite !lookup_insert_ne in H by distinct_headers.
    rewrite lookup_delete_eq in Hout.
    rewrite !lookup_delete_ne in Hout by distinct_headers.
    unfold directivesFrom in *.
    cbn [parsed first bind] in H, Hout. rewrite Hs in H. cbn [bind] in H.
    destruct (parsed _ request.AcceptStatusHeader _) as [[v2 e2] |];
      [| done]; cbn [bind] in *.
    destruct (parsed _ request.ResponseBodyRequiredHeader _) as [[v3 e3] |];
      [| done]; cbn [bind] in *.
    destruct (parsed _ request.StreamResponseHeader _) as [[v4 e4] |];
      [| done]; cbn [bind] in *.
    rewrite <- H.
    destruct (Join [None; e2; e3; e4]); [done |].
    injection Hout as <-. done.
Qed.

(** X11. [request.MaxRetries] against [parseRequestHeaders]: for every
    [uint] value [n], also one above the largest [int], the header that
    the option writes is read back as [n]. The option replaces whatever
    the request had under the header, a value that does not parse
    included, and the retries of the client no longer count: when the
    request without the header gives directives, the request after the
    option gives the same directives with [n] retries. *)
Theorem MaxRetries_read_back c rq rq' d (n : Z) :
  0 <= n <= maxUint ->
  parseRequestHeaders c
    (Request.setHeader rq
       (delete request.MaxRetriesHeader (Request.Header rq)))
  = (rq', Ok (inl d)) ->
  exists rq1,
    request.MaxRetries n rq = Ok (rq1, None)
    /\ parseRequestHeaders c rq1 = (rq', Ok (inl (setRetries d n))).
Proof.
  intros Hn Hparse. eexists. split; [reflexivity |].
  apply parseRequestHeaders_set_max_retries; [| done].
  unfold parseMaxRetries.
  destruct (uint_int_uint n Hn) as [Hint Hback].
  by rewrite Atoi_Itoa, Hback.
Qed.

Lemma parseRequestHeaders_set_accept_status c rq rq' d (s : string)
      (acc : slice) :
  Request.Header rq !! request.AcceptStatusHeader = None ->
  parseAcceptStatus s = inl acc ->
  parseRequestHeaders c rq = (rq', Ok (inl d)) ->
  parseRequestHeaders c
    (Request.setHeader rq
       (<[request.AcceptStatusHeader := [s]]> (Request.Header rq)))
  = (rq', Ok (inl (setAccept d acc))).
Proof.
  intros Habsent Hs Hparse. destruct rq as [m u h b len].
  unfold Request.setHeader in *.
  cbn [Request.Header Request.Method Request.URL Request.Body
       Request.ContentLength] in *.
  set (without := Request.mk m u h b len) in *.
  set (with_ := Request.mk m u (<[request.AcceptStatusHeader := [s]]> h) b len).
  assert (Hout : snd (parseRequestHeaders c without) = Ok (inl d))
    by by rewrite Hparse.
  pose proof (parseRequestHeaders_Ok_valued _ _ _ Hout) as Hvalued.
  pose proof (parseRequestHeaders_request _ _ _ Hout) as Hrq.
  rewrite Hparse in Hrq. cbn [fst] in Hrq.
  destruct (parseRequestHeaders_valued c with_) as [x Hwith].
  { unfold valued, reserved in *. rewrite !Forall_cons in *.
    subst with_ without. cbn [Request.Header] in *.
    rewrite lookup_insert_eq.
    rewrite !lookup_insert_ne by distinct_headers.
    destruct Hvalued as (H1 & _ & H3 & H4 & _). repeat split; done. }
  rewrite Hwith. f_equal.
  - rewrite Hrq. subst with_ without.
    cbn [Request.Header Request.setHeader].
    by rewrite strip_insert by (unfold reserved; set_solver).
  - assert (H : snd (parseRequestHeaders c with_) = Ok x) by by rewrite Hwith.
    rewrite parseRequestHeaders_outcome in H, Hout.
    subst with_ without. cbn [Request.Header] in *.
    rewrite lookup_insert_eq in H.
    rewrite !lookup_insert_ne in H by distinct_headers.
    rewrite Habsent in Hout.
    unfold directivesFrom in *.
    destruct (parsed _ request.MaxRetriesHeader _) as [[v1 e1] |];
      [| done]; cbn [bind] in *.
    cbn [parsed first bind] in H, Hout. rewrite Hs in H. cbn [bind] in H.
    destruct (parsed _ request.ResponseBodyRequiredHeader _) as [[v3 e3] |];
      [| done]; cbn [bind] in *.
    destruct (parsed _ request.StreamResponseHeader _) as [[v4 e4] |];
      [| done]; cbn [bind] in *.
    rewrite <- H.
    destruct (Join [e1; None; e3; e4]); [done |].
    injection Hout as <-. done.
Qed.

Lemma append_elements (l codes : list Z) :
  append (Some l) codes = Some (l ++ codes).
Proof. by destruct codes. Qed.

(** X12. [request.AcceptStatus] against [parseRequestHeaders]: on a request
    without the accept-status header, for any status codes from 0 to the
    largest [int], the option succeeds and the header it writes is read
    back as 200 followed by the codes, in the order given and with
    repetitions kept; the other directives are those of the request
    before the option. *)
Theorem AcceptStatus_read_back c rq rq' d (codes : list Z) :
  Request.Header rq !! request.AcceptStatusHeader = None ->
  Forall (fun x => 0 <= x <= maxInt) codes ->
  parseRequestHeaders c rq = (rq', Ok (inl d)) ->
  exists rq1,
    request.AcceptStatus codes rq = Ok (rq1, None)
    /\ parseRequestHeaders c rq1
       = (rq', Ok (inl (setAccept d (Some (StatusOK :: codes))))).
Proof.
  intros Habsent Hcodes Hparse. eexists. split.
  { unfold request.AcceptStatus. rewrite Habsent. reflexivity. }
  apply parseRequestHeaders_set_accept_status; [done | | done].
  unfold parseAcceptStatus. rewrite append_elements.
  rewrite Unmarshal_Marshal; [done |].
  apply Forall_cons. split; [done |].
  eapply Forall_impl; [exact Hcodes |].
  intros x Hx. apply convUint_literal. unfold maxInt, maxUint in *. lia.
Qed.

(** X13. On a request whose accept-status header starts with the JSON of a
    list of [int] values, [request.AcceptStatus] appends the given codes
    to that list: 200 is not added again, the list is not deduplicated,
    and the further values of the header are dropped. *)
Theorem AcceptStatus_appends rq (l : list Z) (vs : list string)
        (codes : list Z) :
  Request.Header rq !! request.AcceptStatusHeader
  = Some (Marshal (Some l) :: vs) ->
  Forall isInt l ->
  request.AcceptStatus codes rq
  = Ok (Request.setHeader rq
          (<[request.AcceptStatusHeader := [Marshal (Some (l ++ codes))]]>
             (Request.Header rq)), None).
Proof.
  intros Hheader Hl.
  rewrite (AcceptStatus_decoded rq _ vs (Some l) codes Hheader).
  - by rewrite append_elements.
  - by apply Unmarshal_Marshal, Forall_isInt_literal.
Qed.

(** X14. Two calls of [request.AcceptStatus] on a request without the
    header amount to one call with the two lists of codes one after the
    other. *)
Theorem AcceptStatus_twice rq (codes1 codes2 : list Z) :
  Request.Header rq !! request.AcceptStatusHeader = None ->
  Forall isInt codes1 ->
  bind (request.AcceptStatus codes1 rq)
       (fun '(rq1, _) => request.AcceptStatus codes2 rq1)
  = request.AcceptStatus (codes1 ++ codes2) rq.
Proof.
  intros Habsent Hcodes.
  assert (Hint : Forall isInt (StatusOK :: codes1)).
  { apply Forall_cons. split; [| done]. unfold isInt, minInt, maxInt. done. }
  unfold request.AcceptStatus at 1 3. rewrite Habsent. cbn [bind].
  rewrite !append_elements. destruct rq as [m u h b len].
  unfold Request.setHeader.
  cbn [Request.Header Request.Method Request.URL Request.Body
       Request.ContentLength].
  rewrite (AcceptStatus_decoded _ (Marshal (Some ([StatusOK] ++ codes1))) []
             (Some ([StatusOK] ++ codes1))).
  - unfold Request.setHeader.
    cbn [Request.Header Request.Method Request.URL Request.Body
         Request.ContentLength].
    rewrite append_elements, insert_insert_eq. by rewrite <- app_assoc.
  - cbn [Request.Header]. apply lookup_insert_eq.
  - by apply Unmarshal_Marshal, Forall_isInt_literal.
Qed.

(** X15. [request.AcceptStatus] takes a negative status code without an
    error, and writes it to the header; [Do] then rejects the request
    before any call of the wrapped client, with an error for which
    [errors.Is] holds of [ErrInvalidRequestHeader] and of
    [ErrInvalidJSON]: the option decodes the header as [int]
    values, the engine as [uint] values. *)
Theorem AcceptStatus_negative c (st : T) rq (codes : list Z) :
  Request.Header rq !! request.AcceptStatusHeader = None ->
  valued (Request.Header rq) ->
  Forall isInt codes ->
  Exists (fun x => x < 0) codes ->
  exists rq1 e,
    request.AcceptStatus codes rq = Ok (rq1, None)
    /\ Do (observed c) (st, []) rq1
       = ((st, []), Request.setHeader rq (strip (Request.Header rq)),
          Ok (None, Some e))
    /\ Is e ErrInvalidRequestHeader = true
    /\ Is e ErrInvalidJSON = true.
Proof.
  intros Habsent Hvalued Hcodes Hneg.
  set (v := Marshal (Some (StatusOK :: codes))).
  set (rq1 := Request.setHeader rq
                (<[request.AcceptStatusHeader := [v]]> (Request.Header rq))).
  assert (Hjson : parseAcceptStatus v
                  = inr (Go.Errorf "%w: %w"
                           [err ErrInvalidJSON; err jsonError])).
  { unfold parseAcceptStatus, v. rewrite Unmarshal_Marshal_tokens.
    rewrite storeAll_fails; [done |].
    apply Exists_cons. right.
    eapply Exists_impl; [exact Hneg |].
    intros x Hx. by apply convUint_negative. }
  destruct (Do_accept_status_error c st rq1 v [] _
              ltac:(subst rq1; destruct rq; apply lookup_insert_eq) Hjson)
    as (e & HDo & H1 & H2).
  { subst rq1. destruct rq as [m u h b len].
    unfold valued, reserved in *. rewrite !Forall_cons in *.
    cbn [Request.Header Request.setHeader] in *.
    rewrite lookup_insert_eq.
    rewrite !lookup_insert_ne by distinct_headers.
    destruct Hvalued as (? & _ & ? & ? & _). repeat split; done. }
  exists rq1, e. split.
  { unfold request.AcceptStatus. rewrite Habsent.
    by rewrite append_elements. }
  split; [| split; [done |]].
  - subst rq1. destruct rq as [m u h b len].
    unfold Request.setHeader in *.
    cbn [Request.Header Request.Method Request.URL Request.Body
         Request.ContentLength] in *.
    rewrite HDo. by rewrite strip_insert by (unfold reserved; set_solver).
  - apply H2. apply Is_Errorf with ErrInvalidJSON;
      [simpl; tauto | apply Is_refl].
Qed.

End OptionProperties.

(** ** The mock client: requests in sequence *)

Lemma bytes_eqb_eq (a b : list byte) : bytes_eqb a b = true <-> a = b.
Proof.
  unfold bytes_eqb. rewrite String.eqb_eq. split; [| by intros ->].
  intros H. rewrite <- (list_byte_of_string_of_list_byte a),
                    <- (list_byte_of_string_of_list_byte b).
  by rewrite H.
Qed.

Section MockFurther.

Variable JoinPath : string -> string -> string + error.
Variable writeBody : list byte -> option error.
Variable recorded :
  gmap string string -> option Z -> list byte -> result Response.t.

Implicit Types (mock : mockClient.t) (rq : Request.t).

Local Abbreviation Do := (mockClient.Do writeBody recorded).
Local Abbreviation Expect := (mockClient.Expect JoinPath).
Local Abbreviation defaultResponse :=
  (mockClient.defaultResponse writeBody recorded).

(** A request that meets an expectation that is expected. *)
Lemma Do_expected mock rq (expected : MockRequest.t) :
  0 <= mockClient.next mock ->
  mockClient.expectations mock !! Z.to_nat (mockClient.next mock)
  = Some expected ->
  MockRequest.isExpected expected = true ->
  Do mock rq
  = (mockClient.mk (mockClient.name mock) (mockClient.hostname mock)
       (<[Z.to_nat (mockClient.next mock)
          := MockRequest.setActual expected rq]>
          (mockClient.expectations mock))
       (mockClient.unexpected mock) (mockClient.next mock + 1),
     defaultResponse (MockRequest.setActual expected rq)).
Proof.
  intros Hlo Hat Hexpected. unfold mockClient.Do, noExpectedRequests.
  pose proof (lookup_lt_Some _ _ _ Hat) as Hlt.
  assert (H1 : (mockClient.next mock =? -1) = false)
    by (apply Z.eqb_neq; lia).
  assert (H2 : (mockClient.next mock
                <? Z.of_nat (length (mockClient.expectations mock))) = true)
    by (apply Z.ltb_lt; lia).
  assert (H3 : (mockClient.next mock <? 0) = false) by (apply Z.ltb_ge; lia).
  rewrite H1, H2, H3, Hat. cbn [negb andb MockRequest.setActual
                                 MockRequest.isExpected].
  by rewrite Hexpected.
Qed.

(** A request that arrives when the cursor is past the last
    expectation. *)
Lemma Do_past_end mock rq :
  Z.of_nat (length (mockClient.expectations mock)) <= mockClient.next mock ->
  Do mock rq
  = (mockClient.mk (mockClient.name mock) (mockClient.hostname mock)
       (mockClient.expectations mock) (mockClient.unexpected mock ++ [rq])
       (mockClient.next mock),
     Ok (None, Some ErrUnexpectedRequest)).
Proof.
  intros Hhi. unfold mockClient.Do.
  assert (H : (mockClient.next mock
               <? Z.of_nat (length (mockClient.expectations mock))) = false)
    by (apply Z.ltb_ge; lia).
  rewrite H. by rewrite andb_false_r.
Qed.

Lemma served_expected (n h : string) (es : list MockRequest.t)
      (un rqs : list Request.t) (k : nat) :
  (k <= length es)%nat ->
  Forall (fun e => MockRequest.isExpected e = true) (drop k es) ->
  served writeBody recorded (mockClient.mk n h es un (Z.of_nat k)) rqs
  = mockClient.mk n h
      (take k es ++ zip_with MockRequest.setActual (drop k es) rqs
         ++ drop (k + length rqs) es)
      (un ++ drop (length es - k) rqs)
      (Z.of_nat (Nat.min (k + length rqs) (length es))).
Proof.
  revert es un k. induction rqs as [| rq rqs IH]; intros es un k Hk Hall.
  - cbn [served foldl length]. rewrite zip_with_nil_r, Nat.add_0_r.
    cbn [app]. rewrite take_drop, drop_nil, app_nil_r.
    by rewrite Nat.min_l by done.
  - change (served writeBody recorded ?m (rq :: rqs))
      with (served writeBody recorded (fst (Do m rq)) rqs).
    destruct (decide (k < length es)%nat) as [Hlt | Hge].
    + destruct (lookup_lt_is_Some_2 es k Hlt) as [e He].
      rewrite (drop_S es e k He) in Hall |- *.
      apply Forall_cons in Hall as [Hexpected Hall].
      rewrite (Do_expected _ rq e);
        cbn [mockClient.next mockClient.expectations]; rewrite ?Nat2Z.id;
        [| lia | done | done].
      cbn [fst mockClient.name mockClient.hostname mockClient.unexpected].
      replace (Z.of_nat k + 1) with (Z.of_nat (S k)) by lia.
      rewrite IH.
      * rewrite length_insert.
        rewrite (take_S_r _ k (MockRequest.setActual e rq))
          by (by apply list_lookup_insert_eq).
        rewrite take_insert_ge by done.
        rewrite !drop_insert_lt by lia.
        cbn [zip_with length]. rewrite <- app_assoc. cbn [app].
        replace (k + S (length rqs))%nat with (S k + length rqs)%nat by lia.
        replace (length es - k)%nat with (S (length es - S k)) by lia.
        done.
      * rewrite length_insert. lia.
      * by rewrite drop_insert_lt by lia.
    + assert (k = length es) as -> by lia.
      rewrite Do_past_end by (cbn; lia).
      cbn [fst mockClient.name mockClient.hostname mockClient.unexpected
           mockClient.expectations mockClient.next].
      rewrite IH by done.
      rewrite !drop_all, Nat.sub_diag. cbn [zip_with drop app length].
      rewrite !(drop_ge es) by lia. rewrite <- app_assoc.
      rewrite !Nat.min_r by lia. done.
Qed.

(** X16. What a request leaves alone: [mockClient.Do] keeps the name and
    the hostname, the number of expectations and, in every expectation,
    everything but the actual request, which it sets in the expectation
    at the cursor and in no other; the cursor stays or moves up by one;
    the list of unexpected requests stays or grows by the request. *)
Theorem Do_frame mock rq :
  let mock' := fst (Do mock rq) in
  mockClient.name mock' = mockClient.name mock
  /\ mockClient.hostname mock' = mockClient.hostname mock
  /\ length (mockClient.expectations mock')
     = length (mockClient.expectations mock)
  /\ (forall i e',
        mockClient.expectations mock' !! i = Some e' ->
        exists e,
          mockClient.expectations mock !! i = Some e
          /\ (e' = e
              \/ Z.of_nat i = mockClient.next mock
                 /\ e' = MockRequest.setActual e rq))
  /\ (mockClient.next mock' = mockClient.next mock
      \/ mockClient.next mock' = mockClient.next mock + 1)
  /\ (mockClient.unexpected mock' = mockClient.unexpected mock
      \/ mockClient.unexpected mock'
         = mockClient.unexpected mock ++ [rq]).
Proof.
  cbv zeta. unfold mockClient.Do.
  destruct (negb _ && _); [| cbn; repeat split; by eauto].
  destruct (mockClient.next mock <? 0) eqn:Hneg; [cbn; repeat split; by eauto |].
  apply Z.ltb_ge in Hneg.
  destruct (mockClient.expectations mock !! Z.to_nat (mockClient.next mock))
    as [expected |] eqn:Hat; [| cbn; repeat split; by eauto].
  assert (Hframe : forall i e',
            <[Z.to_nat (mockClient.next mock)
              := MockRequest.setActual expected rq]>
              (mockClient.expectations mock) !! i = Some e' ->
            exists e,
              mockClient.expectations mock !! i = Some e
              /\ (e' = e
                  \/ Z.of_nat i = mockClient.next mock
                     /\ e' = MockRequest.setActual e rq)).
  { intros i e' Hi.
    destruct (decide (Z.to_nat (mockClient.next mock) = i)) as [<- | Hne].
    - rewrite list_lookup_insert_eq in Hi by by eapply lookup_lt_Some.
      injection Hi as <-. exists expected. split; [done |]. right.
      split; [lia | done].
    - rewrite list_lookup_insert_ne in Hi by done. eauto. }
  destruct (negb _); cbn; rewrite length_insert; repeat split; by eauto.
Qed.

(** X17. Requests are matched to the expectations in the order in which
    they arrive. With the cursor at an expectation, or past the last, and
    all the expectations from the cursor on expected: after the requests
    [rqs], each expectation from the cursor on holds the request of the
    same rank as its actual request, the expectations before the cursor
    and those beyond the requests are untouched, the cursor has moved by
    the number of requests, up to the end, and the requests that found no
    expectation left are the new unexpected requests, in order. *)
Theorem Do_in_order mock (rqs : list Request.t) :
  0 <= mockClient.next mock
    <= Z.of_nat (length (mockClient.expectations mock)) ->
  Forall (fun e => MockRequest.isExpected e = true)
         (drop (Z.to_nat (mockClient.next mock))
               (mockClient.expectations mock)) ->
  let k := Z.to_nat (mockClient.next mock) in
  let es := mockClient.expectations mock in
  let mock' := served writeBody recorded mock rqs in
  mockClient.expectations mock'
  = take k es ++ zip_with MockRequest.setActual (drop k es) rqs
      ++ drop (k + length rqs) es
  /\ mockClient.next mock'
     = Z.min (mockClient.next mock + Z.of_nat (length rqs))
             (Z.of_nat (length es))
  /\ mockClient.unexpected mock'
     = mockClient.unexpected mock ++ drop (length es - k) rqs.
Proof.
  destruct mock as [n h es un next].
  cbn [mockClient.next mockClient.expectations mockClient.unexpected].
  intros Hnext Hall. cbv zeta.
  remember (Z.to_nat next) as k eqn:Hk.
  assert (next = Z.of_nat k) as -> by lia. clear Hk.
  rewrite served_expected by (done || lia).
  cbn [mockClient.next mockClient.expectations mockClient.unexpected].
  split; [done |]. split; [lia | done].
Qed.

(** X18. [WillReturnError]: a request that meets an expectation configured
    to return an error gets that error from the mock client, and with it
    a response that is not nil, the result of the recorder with an empty
    body; whatever response had been configured before is discarded. *)
Theorem Do_returns_configured_error mock rq (expected : MockRequest.t)
        (e : error) (resp : Response.t) :
  0 <= mockClient.next mock ->
  mockClient.expectations mock !! Z.to_nat (mockClient.next mock)
  = Some expected ->
  MockRequest.isExpected expected = true ->
  recorded ∅ None [] = Ok resp ->
  snd (Do (mockClient.configure (mockClient.next mock)
             (MockRequest.WillReturnError e) mock) rq)
  = Ok (Some (Response.setBody resp NoBody), Some e).
Proof.
  intros Hlo Hat Hexpected Hrecorded.
  rewrite (Do_expected _ rq (MockRequest.WillReturnError e expected));
    cbn [mockClient.configure mockClient.next mockClient.expectations].
  - cbn [snd]. unfold mockClient.defaultResponse.
    cbn [MockRequest.WillReturnError MockRequest.setResponse
         MockRequest.setActual MockRequest.Response mockResponse.headers
         mockResponse.statusCode mockResponse.body mockResponse.Err
         default length].
    by rewrite Hrecorded.
  - done.
  - by rewrite list_lookup_alter_eq, Hat.
  - done.
Qed.

(** X19. [Reset] gives a mock client that is as new: its expectations
    were met, and a call of [Expect], whatever requests the mock client
    had received, returns the first expectation, with the cursor at
    it. *)
Theorem Reset_as_new mock (method path fqu : string) :
  JoinPath (mockClient.hostname mock) path = inl fqu ->
  mockClient.ExpectationsWereMet (mockClient.Reset mock) = Ok None
  /\ Expect (mockClient.Reset mock) method path
     = Ok (mockClient.mk (mockClient.name mock) (mockClient.hostname mock)
             [MockRequest.mk 0 (Some method) None fqu ∅ None true None]
             [] firstExpectedRequest,
           0).
Proof.
  intros Hjoin. split; [done |].
  unfold mockClient.Expect, mockClient.Reset.
  cbn [mockClient.next mockClient.hostname mockClient.expectations
       mockClient.name mockClient.unexpected].
  by rewrite Hjoin.
Qed.

End MockFurther.

(** ** The checks of an expectation *)

Lemma checkHeader_met (a : Request.t) (k : string) (v : option string) :
  MockRequest.checkHeader a k v = Ok []
  <-> exists av0 avs,
        Request.Header a !! k = Some (av0 :: avs)
        /\ forall x, v = Some x -> av0 = x.
Proof.
  unfold MockRequest.checkHeader.
  destruct (Request.Header a !! k) as [[| av0 avs] |].
  - split; [done | by intros (? & ? & ? & _)].
  - cbn [first bind]. destruct v as [x |].
    + destruct (String.eqb av0 x) eqn:E; cbn [negb].
      * apply String.eqb_eq in E as ->. split; [| done].
        intros _. exists x, avs. split; [done |]. by intros ? [= <-].
      * apply String.eqb_neq in E. split; [done |].
        intros (? & ? & [= <- <-] & H). by destruct E; apply H.
    + split; [| done]. intros _. by exists av0, avs.
  - cbn [bind]. split; [| by intros (? & ? & ? & _)].
    destruct (MockRequest.dumpHeaders _); destruct v; done.
Qed.

Lemma checkHeaders_met (a : Request.t) (hs : list (string * option string)) :
  MockRequest.checkHeaders a hs = Ok []
  <-> Forall (fun kv => MockRequest.checkHeader a kv.1 kv.2 = Ok []) hs.
Proof.
  induction hs as [| [k v] hs IH]; [by split |].
  rewrite Forall_cons, <- IH. cbn [MockRequest.checkHeaders fst snd].
  destruct (MockRequest.checkHeader a k v) as [rpt |]; cbn [bind];
    [| split; [done | by intros [? _]]].
  destruct (MockRequest.checkHeaders a hs) as [rpt' |]; cbn [bind];
    [| split; [done | by intros [_ ?]]].
  split.
  - intros [= H]. apply app_eq_nil in H as [-> ->]. done.
  - by intros [[= ->] [= ->]].
Qed.

(** X20. The headers of an expectation are met exactly when every header
    it names is set on the actual request with at least one value, and,
    where the expectation gives a value, the first value of the header
    is that value; the further values of the header are not looked
    at. *)
Theorem checkHeadersExpectation_met (rq : MockRequest.t) (a : Request.t) :
  MockRequest.checkHeadersExpectation rq a = Ok []
  <-> forall k v,
        MockRequest.headers rq !! k = Some v ->
        exists av0 avs,
          Request.Header a !! k = Some (av0 :: avs)
          /\ forall x, v = Some x -> av0 = x.
Proof.
  unfold MockRequest.checkHeadersExpectation.
  rewrite checkHeaders_met, Forall_forall. split.
  - intros H k v Hk. apply checkHeader_met.
    apply (H (k, v)). by apply elem_of_map_to_list.
  - intros H [k v] Hk. apply checkHeader_met, H.
    by apply elem_of_map_to_list.
Qed.

(** X21. The body of an expectation is met exactly when no body is
    expected, or the bytes read from the body of the actual request are
    the expected bytes; an error of the read does not count. *)
Theorem checkBodyExpectation_met (rq : MockRequest.t) (a : Request.t) :
  MockRequest.checkBodyExpectation rq a = Ok []
  <-> MockRequest.body rq = None
      \/ exists e,
           ioReadAll (Request.Body a) = Ok (default [] (MockRequest.body rq), e).
Proof.
  unfold MockRequest.checkBodyExpectation.
  destruct (MockRequest.body rq) as [expected |]; [| by split; [left |]].
  cbn [default].
  destruct (ioReadAll (Request.Body a)) as [[actual e] |]; cbn [bind].
  - destruct (bytes_eqb expected actual) eqn:E.
    + apply bytes_eqb_eq in E as ->. split; [| done]. right. by exists e.
    + assert (Hne : expected <> actual).
      { intros H. apply bytes_eqb_eq in H. congruence. }
      split; [| by intros [? | [? [= <- _]]]].
      destruct (_ =? 0); [done |]. destruct (_ =? 0); done.
  - split; [done | by intros [? | [? ?]]].
Qed.

(** X22. An expectation without header or body constraints, as [Expect]
    makes it, is met by its actual request exactly when the method is
    the expected one, if one is expected, and the url is the expected
    url: the url is compared always, and an empty expected url stands
    for the empty url, not for any. The check returns in any case. *)
Theorem checkExpectations_method_url (rq : MockRequest.t) (a : Request.t) :
  MockRequest.isExpected rq = true ->
  MockRequest.actual rq = Some a ->
  MockRequest.headers rq = ∅ ->
  MockRequest.body rq = None ->
  (exists rpt, MockRequest.checkExpectations rq = Ok rpt)
  /\ (MockRequest.checkExpectations rq = Ok []
      <-> (forall m, MockRequest.method rq = Some m -> m = Request.Method a)
          /\ MockRequest.url rq = Request.URL a).
Proof.
  intros Hexpected Hactual Hheaders Hbody.
  unfold MockRequest.checkExpectations,
    MockRequest.checkHeadersExpectation, MockRequest.checkBodyExpectation,
    MockRequest.checkMethodExpectation, MockRequest.checkURLExpectation.
  rewrite Hexpected, Hactual, Hheaders, Hbody, map_to_list_empty.
  cbn [MockRequest.checkHeaders bind]. split; [by eexists |].
  rewrite !app_nil_r.
  destruct (MockRequest.method rq) as [m |].
  - destruct (String.eqb m (Request.Method a)) eqn:Em; cbn [negb].
    + apply String.eqb_eq in Em as ->.
      destruct (String.eqb (MockRequest.url rq) (Request.URL a)) eqn:Eu;
        cbn [negb app].
      * apply String.eqb_eq in Eu. split; [| done].
        intros _. split; [by intros ? [= <-] | done].
      * apply String.eqb_neq in Eu. split; [done | by intros [_ ?]].
    + apply String.eqb_neq in Em. split; [done |].
      intros [H _]. by destruct Em; apply H.
  - cbn [app].
    destruct (String.eqb (MockRequest.url rq) (Request.URL a)) eqn:Eu;
      cbn [negb].
    + apply String.eqb_eq in Eu. split; [| done]. by intros _.
    + apply String.eqb_neq in Eu. split; [done | by intros [_ ?]].
Qed.

(** ** The verdict of the mock client *)

Lemma failed_nil (rqs : list MockRequest.t) :
  mockClient.failed rqs = Ok []
  <-> Forall (fun rq => MockRequest.checkExpectations rq = Ok []) rqs.
Proof.
  induction rqs as [| rq rqs IH]; [by split |].
  rewrite Forall_cons, <- IH. cbn [mockClient.failed].
  destruct (MockRequest.checkExpectations rq) as [rpt |]; cbn [bind];
    [| split; [done | by intros [? _]]].
  destruct (mockClient.failed rqs) as [errs |]; cbn [bind];
    [| split; [done | by intros [_ ?]]].
  destruct rpt as [| s rpt]; cbn.
  - split; [by intros [= ->] | by intros [_ [= ->]]].
  - split; [done | by intros [? _]].
Qed.

(** X23. [ExpectationsWereMet] returns nil exactly when no request was
    unexpected and the check of every expectation returns an empty
    report. *)
Theorem ExpectationsWereMet_nil (mock : mockClient.t) :
  mockClient.ExpectationsWereMet mock = Ok None
  <-> mockClient.unexpected mock = []
      /\ Forall (fun rq => MockRequest.checkExpectations rq = Ok [])
                (mockClient.expectations mock).
Proof.
  rewrite <- failed_nil. unfold mockClient.ExpectationsWereMet.
  destruct (mockClient.failed _) as [errs |]; cbn [bind];
    [| split; [done | by intros [_ ?]]].
  destruct errs as [| e errs].
  - cbn [app]. destruct (mockClient.unexpected mock) as [| rq rqs]; cbn.
    + by split.
    + split; [done | by intros [? _]].
  - cbn. split; [done | by intros [_ ?]].
Qed.

Lemma readable_reports (rqs : list MockRequest.t) :
  Forall readable rqs ->
  exists rpts,
    Forall2 (fun rq rpt => MockRequest.checkExpectations rq = Ok rpt) rqs rpts.
Proof.
  induction 1 as [| rq rqs Hrq _ [rpts IH]]; [by exists [] |].
  destruct (checkExpectations_readable rq Hrq) as [rpt Hrpt].
  exists (rpt :: rpts). by constructor.
Qed.

(** What [ExpectationsWereMet] says of an expectation whose check gives a
    report that is not empty. *)
Lemma ExpectationsWereMet_failed (mock : mockClient.t) (i : nat)
      (rq : MockRequest.t) (rpt : list string) :
  Forall readable (mockClient.expectations mock) ->
  mockClient.expectations mock !! i = Some rq ->
  MockRequest.checkExpectations rq = Ok rpt ->
  rpt <> [] ->
  exists errs,
    mockClient.ExpectationsWereMet mock
    = Ok (Some (MockExpectationsError (mockClient.name mock) errs))
    /\ mockClient.expecting rq ∈ errs
    /\ (forall s, s ∈ rpt -> mockClient.detail s ∈ errs)
    /\ forall ix a,
         mockClient.unexpected mock !! ix = Some a ->
         mockClient.notExpected
           (Z.of_nat (length (mockClient.expectations mock)))
           (Z.of_nat ix) a ∈ errs.
Proof.
  intros Hreadable Hi Hrpt Hne.
  destruct (readable_reports _ Hreadable) as [rpts Hrpts].
  destruct (ExpectationsWereMet_reports mock rpts Hrpts)
    as (out & Hout & Hnone & Hsome).
  destruct (Forall2_lookup_l _ _ _ _ _ Hrpts Hi) as (rpt' & Hi' & Hrpt').
  assert (rpt' = rpt) as -> by congruence.
  destruct out as [e |].
  - destruct (Hsome e eq_refl) as (errs & -> & Hfailed & Hsurplus).
    exists errs. split; [done |].
    destruct (Hfailed i rq rpt Hi Hi' Hne) as [? ?]. by repeat split.
  - exfalso. destruct Hnone as [Hnone _].
    destruct (Hnone eq_refl) as [Hall _].
    rewrite Forall_forall in Hall. apply Hne, Hall.
    by eapply list_elem_of_lookup_2.
Qed.

Section MockVerdict.

Variable writeBody : list byte -> option error.
Variable recorded :
  gmap string string -> option Z -> list byte -> result Response.t.

Local Abbreviation Do := (mockClient.Do writeBody recorded).

(** X24. A request that arrives at an expectation marked by
    [WillNotBeCalled] is reported twice by [ExpectationsWereMet]: as the
    failure of that expectation, with the method and url of the request,
    and once more as an unexpected request, numbered after the
    expectations. *)
Theorem refused_request_reported_twice (mock : mockClient.t)
        (rq : Request.t) (expected : MockRequest.t) :
  0 <= mockClient.next mock ->
  mockClient.expectations mock !! Z.to_nat (mockClient.next mock)
  = Some expected ->
  MockRequest.isExpected expected = false ->
  Forall readable (mockClient.expectations (fst (Do mock rq))) ->
  exists errs,
    mockClient.ExpectationsWereMet (fst (Do mock rq))
    = Ok (Some (MockExpectationsError (mockClient.name mock) errs))
    /\ mockClient.expecting expected ∈ errs
    /\ mockClient.detail
         (Sprintf "  got: %s %s"
            [str (Request.Method rq); str (Request.URL rq)]) ∈ errs
    /\ mockClient.notExpected
         (Z.of_nat (length (mockClient.expectations mock)))
         (Z.of_nat (length (mockClient.unexpected mock))) rq ∈ errs.
Proof.
  intros Hlo Hat Hrefused.
  pose proof (lookup_lt_Some _ _ _ Hat) as Hlt.
  assert (HDo : fst (Do mock rq)
                = mockClient.mk (mockClient.name mock)
                    (mockClient.hostname mock)
                    (<[Z.to_nat (mockClient.next mock)
                       := MockRequest.setActual expected rq]>
                       (mockClient.expectations mock))
                    (mockClient.unexpected mock ++ [rq])
                    (mockClient.next mock + 1)).
  { unfold mockClient.Do, noExpectedRequests.
    assert (H1 : (mockClient.next mock =? -1) = false)
      by (apply Z.eqb_neq; lia).
    assert (H2 : (mockClient.next mock
                  <? Z.of_nat (length (mockClient.expectations mock)))
                 = true) by (apply Z.ltb_lt; lia).
    assert (H3 : (mockClient.next mock <? 0) = false)
      by (apply Z.ltb_ge; lia).
    rewrite H1, H2, H3, Hat.
    cbn [negb andb MockRequest.setActual MockRequest.isExpected].
    by rewrite Hrefused. }
  rewrite HDo. intros Hreadable.
  destruct (ExpectationsWereMet_failed _
              (Z.to_nat (mockClient.next mock))
              (MockRequest.setActual expected rq)
              [Sprintf "  got: %s %s"
                 [str (Request.Method rq); str (Request.URL rq)]]
              Hreadable)
    as (errs & HE & Hexpecting & Hdetail & Hsurplus).
  - cbn [mockClient.expectations]. by apply list_lookup_insert_eq.
  - unfold MockRequest.checkExpectations.
    cbn [MockRequest.setActual MockRequest.isExpected MockRequest.actual].
    by rewrite Hrefused.
  - done.
  - exists errs. cbn [mockClient.name] in HE. split; [done |].
    split; [done |]. split.
    + apply Hdetail, list_elem_of_here.
    + specialize (Hsurplus (length (mockClient.unexpected mock)) rq).
      cbn [mockClient.unexpected mockClient.expectations] in Hsurplus.
      rewrite length_insert in Hsurplus. apply Hsurplus.
      by rewrite lookup_app_r, Nat.sub_diag by done.
Qed.

End MockVerdict.

(** X25. An expectation that is expected and has received no request
    makes [ExpectationsWereMet] fail: the error names the expectation,
    followed by the line that no request was got. *)
Theorem unmet_expectation_reported (mock : mockClient.t) (i : nat)
        (rq : MockRequest.t) :
  Forall readable (mockClient.expectations mock) ->
  mockClient.expectations mock !! i = Some rq ->
  MockRequest.isExpected rq = true ->
  MockRequest.actual rq = None ->
  exists errs,
    mockClient.ExpectationsWereMet mock
    = Ok (Some (MockExpectationsError (mockClient.name mock) errs))
    /\ mockClient.expecting rq ∈ errs
    /\ mockClient.detail "  got: <no request>" ∈ errs.
Proof.
  intros Hreadable Hi Hexpected Hactual.
  destruct (ExpectationsWereMet_failed mock i rq ["  got: <no request>"]
              Hreadable Hi)
    as (errs & HE & Hexpecting & Hdetail & _).
  - unfold MockRequest.checkExpectations. by rewrite Hexpected, Hactual.
  - done.
  - exists errs. split; [done |]. split; [done |].
    apply Hdetail, list_elem_of_here.
Qed.

(** ** Making clients and requests *)

Section URLProperties.

Context {T : Type}.

Variable urlParse : string -> netURL + error.

Implicit Types (c : client T).

(** X26. The option [URL] sets the url of the client when its argument is
    a [*url.URL] that is absolute, or a string that [url.Parse] parses to
    one, and only then: the url becomes the text of that very URL, and
    the rest of the client is left alone. When it returns an error the
    client is as before, [errors.Is] holds of [ErrInvalidURL], and the
    argument is of another type, or a string that does not parse (the
    error of [url.Parse] is wrapped), or a URL that is not absolute. It
    panics on a nil [*url.URL] and on nothing else. *)
Theorem URL_absolute (u : anyURL) c :
  match URL urlParse u c with
  | Ok (c', None) =>
      exists v,
        (u = ofURL (Some v) \/ exists s, u = ofString s /\ urlParse s = inl v)
        /\ IsAbs v = true
        /\ c' = mkClient (name c) (URLString v) (wrapped c) (maxRetries c)
  | Ok (c', Some e) =>
      c' = c
      /\ Is e ErrInvalidURL = true
      /\ (u = ofOther
          \/ (exists s e0,
                u = ofString s /\ urlParse s = inr e0 /\ Is e e0 = true)
          \/ exists v,
               (u = ofURL (Some v)
                \/ exists s, u = ofString s /\ urlParse s = inl v)
               /\ IsAbs v = false)
  | Panic _ => u = ofURL None
  end.
Proof.
  assert (His : forall format args e,
            In (err e) args -> Is (Go.Errorf format args) e = true).
  { intros format args e Hin.
    apply Is_Errorf with e; [done | apply Is_refl]. }
  unfold URL. destruct u as [s | [v |] |].
  - destruct (urlParse s) as [v | e0] eqn:Hparse.
    + destruct (IsAbs v) eqn:Habs; cbn [negb].
      * exists v. split; [right; by exists s |]. done.
      * split; [done |]. split; [apply His; simpl; tauto |].
        right. right. exists v. split; [right; by exists s | done].
    + split; [done |]. split; [apply His; simpl; tauto |].
      right. left. exists s, e0. split; [done |]. split; [done |].
      apply His. simpl. tauto.
  - destruct (IsAbs v) eqn:Habs; cbn [negb].
    + exists v. split; [by left | done].
    + split; [done |]. split; [apply His; simpl; tauto |].
      right. right. exists v. split; [by left | done].
  - done.
  - split; [done |]. split; [apply His; simpl; tauto |]. by left.
Qed.

End URLProperties.

Section NewClientProperties.

Context {T : Type}.

Variable DefaultClient : T -> Request.t -> T * response_error.

Implicit Types (w : client T) (opts : list (@ClientOption T)).

(** The loop of [NewClient] keeps the errors it has and adds the error of
    every option that fails. *)
Lemma applied_errors opts w (errs : list error) :
  (forall opt w, opt ∈ opts -> exists x, opt w = Ok x) ->
  exists w' errs',
    applied opts w errs = Ok (w', errs')
    /\ (forall e, e ∈ errs -> e ∈ errs')
    /\ forall opt e,
         opt ∈ opts ->
         (forall w, exists w', opt w = Ok (w', Some e)) ->
         e ∈ errs'.
Proof.
  revert w errs. induction opts as [| opt opts IH]; intros w errs Hreturn.
  - exists w, errs. split; [done |]. split; [done |].
    intros opt e Hin. by apply elem_of_nil in Hin.
  - cbn [applied].
    destruct (Hreturn opt w ltac:(left)) as [[w1 e1] Hopt].
    rewrite Hopt. cbn [bind].
    destruct (IH w1 (match e1 with
                     | Some e => errs ++ [e]
                     | None => errs
                     end))
      as (w' & errs' & Happlied & Hkeeps & Hadds).
    { intros opt' w2 Hin. apply Hreturn. by right. }
    exists w', errs'. split; [done |]. split.
    + intros e He. apply Hkeeps. destruct e1; [| done].
      apply elem_of_app. by left.
    + intros opt' e Hin Hfails.
      apply elem_of_cons in Hin as [-> | Hin]; [| by eapply Hadds].
      destruct (Hfails w) as [w2 Hopt']. rewrite Hopt in Hopt'.
      injection Hopt' as _ ->. apply Hkeeps, elem_of_app. right.
      apply list_elem_of_here.
Qed.

(** X27. [NewClient] applies every option, also after one has failed: an
    option that fails, wherever it stands among the options, makes
    [NewClient] return an error and no client, and [errors.Is] holds
    between that error and [ErrInitialisingClient], and between it and
    the error of the option. *)
Theorem NewClient_option_error (name : string) opts
        (opt : @ClientOption T) (e : error) :
  (forall opt w, opt ∈ opts -> exists x, opt w = Ok x) ->
  opt ∈ opts ->
  (forall w, exists w', opt w = Ok (w', Some e)) ->
  exists e',
    NewClient DefaultClient name opts = Ok (inr e')
    /\ Is e' ErrInitialisingClient = true
    /\ Is e' e = true.
Proof.
  intros Hreturn Hin Hfails. unfold NewClient.
  destruct (applied_errors opts (mkClient name "" DefaultClient 0) []
              Hreturn)
    as (w' & errs' & -> & _ & Hadds).
  cbn [bind]. specialize (Hadds opt e Hin Hfails).
  destruct errs' as [| e0 errs']; [by apply elem_of_nil in Hadds |].
  eexists. split; [reflexivity |]. split.
  - apply Is_Errorf with ErrInitialisingClient;
      [simpl; tauto | apply Is_refl].
  - apply Is_Errorf with (joinError (e0 :: errs')); [simpl; tauto |].
    apply Is_joinError with e; [| apply Is_refl].
    by apply list_elem_of_In.
Qed.

End NewClientProperties.

Section NewRequestProperties.

Context {T : Type}.

Variable JoinPath : string -> string -> string + error.
Variable NewRequestWithContext : string -> string -> Request.t + error.

Implicit Types (c : client T).

(** X28. [NewRequest] is left at the first option that returns an error:
    the request is dropped, [errors.Is] holds between the error returned
    and the error of the option, and the options after it are not
    called, whatever they are. *)
Theorem NewRequest_first_error c (method path u : string)
        (pre post : list RequestOption) (opt : RequestOption)
        (rq0 rq1 rq2 : Request.t) (e : error) :
  JoinPath (url c) path = inl u ->
  NewRequestWithContext method u = inl rq0 ->
  configured pre rq0 = Ok (inl rq1) ->
  opt rq1 = Ok (rq2, Some e) ->
  exists e',
    NewRequest JoinPath NewRequestWithContext c method path
      (pre ++ opt :: post)
    = Ok (inr e')
    /\ Is e' e = true.
Proof.
  intros Hjoin Hnew Hpre Hopt. unfold NewRequest. rewrite Hjoin, Hnew.
  clear Hjoin Hnew. revert rq0 Hpre.
  induction pre as [| opt0 pre IH]; intros rq0 Hpre.
  - injection Hpre as ->. cbn [app configured]. rewrite Hopt. cbn [bind].
    eexists. split; [reflexivity |].
    apply Is_errorcontext_Errorf with e; [simpl; tauto | apply Is_refl].
  - cbn [app configured] in *.
    destruct (opt0 rq0) as [[rq' [e0 |]] |]; cbn [bind] in *; try done.
    by apply IH.
Qed.

(** X29. When [NewRequest] fails, [execute] makes no call of the wrapped
    client and returns no response; every target that [errors.Is] finds
    in the error of [NewRequest] it finds in the error returned. *)
Theorem execute_no_request c (st : T) (method path : string)
        (opts : list RequestOption) (e : error) :
  NewRequest JoinPath NewRequestWithContext c method path opts
  = Ok (inr e) ->
  exists e',
    execute JoinPath NewRequestWithContext (observed c) (st, [])
            method path opts
    = ((st, []), Ok (None, Some e'))
    /\ forall target, Is e target = true -> Is e' target = true.
Proof.
  intros Hnew. unfold execute.
  change (NewRequest JoinPath NewRequestWithContext (observed c) method
            path opts)
    with (NewRequest JoinPath NewRequestWithContext c method path opts).
  rewrite Hnew. eexists. split; [reflexivity |].
  intros target Ht.
  apply Is_errorcontext_Errorf with e; [simpl; tauto | done].
Qed.

End NewRequestProperties.

(** ** The flag options against the engine *)

Section FlagProperties.

Context {T : Type}.
Implicit Types (c : client T) (rq : Request.t) (d : directives).

(** [parseRequestHeaders] after a reserved header has been set to one
    value. *)
Lemma parseRequestHeaders_insert c rq (k s : string) :
  k ∈ reserved ->
  valued (Request.Header rq) ->
  let h := <[k := [s]]> (Request.Header rq) in
  parseRequestHeaders c (Request.setHeader rq h)
  = (Request.setHeader rq (strip (Request.Header rq)),
     directivesFrom (maxRetries c)
       (h !! request.MaxRetriesHeader) (h !! request.AcceptStatusHeader)
       (h !! request.ResponseBodyRequiredHeader)
       (h !! request.StreamResponseHeader)).
Proof.
  intros Hk Hvalued h. destruct rq as [m u h0 b len].
  unfold Request.setHeader in *.
  cbn [Request.Header Request.Method Request.URL Request.Body
       Request.ContentLength] in *.
  set (with_ := Request.mk m u h b len).
  destruct (parseRequestHeaders_valued c with_) as [x Hwith].
  { unfold valued in *. rewrite Forall_forall in *. intros k' Hk'.
    subst with_ h. cbn [Request.Header].
    destruct (decide (k = k')) as [<- | Hne].
    - by rewrite lookup_insert_eq.
    - rewrite lookup_insert_ne by done. by apply Hvalued. }
  assert (H : snd (parseRequestHeaders c with_) = Ok x) by by rewrite Hwith.
  rewrite parseRequestHeaders_outcome in H.
  rewrite Hwith. subst with_ h. unfold Request.setHeader.
  cbn [Request.Header Request.Method Request.URL Request.Body
       Request.ContentLength] in *.
  rewrite H. by rewrite strip_insert.
Qed.

(** The flags never fail to parse. *)
Lemma parsed_flag (o : option (list string)) (hdr : string)
      (v : option bool) (e : option error) :
  parsed o hdr parseFlag = Ok (v, e) -> e = None.
Proof.
  destruct o as [[| s l] |]; cbn [parsed first bind parseFlag]; congruence.
Qed.

(** X30. [request.ResponseBodyRequired] and [request.StreamResponse]
    against [parseRequestHeaders]: each option sets its flag, whatever
    the request had under the header, and leaves the other directives as
    they were. *)
Theorem flags_read_back c rq rq' d :
  parseRequestHeaders c rq = (rq', Ok (inl d)) ->
  (exists rq1,
     request.ResponseBodyRequired rq = Ok (rq1, None)
     /\ parseRequestHeaders c rq1
        = (rq', Ok (inl (mkDirectives (retries d) (acceptableStatusCodes d)
                           true (streamResponse d)))))
  /\ parseRequestHeaders c (request.StreamResponse rq)
     = (rq', Ok (inl (mkDirectives (retries d) (acceptableStatusCodes d)
                        (responseBodyRequired d) true))).
Proof.
  intros Hparse.
  assert (Hout : snd (parseRequestHeaders c rq) = Ok (inl d))
    by by rewrite Hparse.
  pose proof (parseRequestHeaders_Ok_valued _ _ _ Hout) as Hvalued.
  pose proof (parseRequestHeaders_request _ _ _ Hout) as Hrq.
  rewrite Hparse in Hrq. cbn [fst] in Hrq. subst rq'.
  rewrite parseRequestHeaders_outcome in Hout. unfold directivesFrom in Hout.
  destruct (parsed _ request.MaxRetriesHeader _) as [[v1 e1] |] eqn:E1;
    [| done]; cbn [bind] in Hout.
  destruct (parsed _ request.AcceptStatusHeader _) as [[v2 e2] |] eqn:E2;
    [| done]; cbn [bind] in Hout.
  destruct (parsed _ request.ResponseBodyRequiredHeader _)
    as [[v3 e3] |] eqn:E3; [| done]; cbn [bind] in Hout.
  destruct (parsed _ request.StreamResponseHeader _) as [[v4 e4] |] eqn:E4;
    [| done]; cbn [bind] in Hout.
  pose proof (parsed_flag _ _ _ _ E3) as ->.
  pose proof (parsed_flag _ _ _ _ E4) as ->.
  destruct (Join [e1; e2; None; None]) eqn:EJ; [done |].
  injection Hout as <-. split.
  - eexists. split; [reflexivity |].
    rewrite parseRequestHeaders_insert
      by (done || unfold reserved; set_solver).
    cbv zeta. rewrite lookup_insert_eq.
    rewrite !lookup_insert_ne by distinct_headers.
    unfold directivesFrom. rewrite E1, E2, E4.
    cbn [bind parsed first parseFlag]. by rewrite EJ.
  - unfold request.StreamResponse.
    rewrite parseRequestHeaders_insert
      by (done || unfold reserved; set_solver).
    cbv zeta. rewrite lookup_insert_eq.
    rewrite !lookup_insert_ne by distinct_headers.
    unfold directivesFrom. rewrite E1, E2, E3.
    cbn [bind parsed first parseFlag]. by rewrite EJ.
Qed.

End FlagProperties.

(** ** The further properties, on the examples *)

Lemma do_without_retries_witness :
  do (observed retryClient) bareRequest 0 (Some [StatusOK]) (0%nat, [])
  = ((1%nat, [bareRequest]), Ok (None, Some permanentFailure)).
Proof.
  apply (do_without_retries retryClient bareRequest (Some [StatusOK])
           0%nat 1%nat None permanentFailure).
  reflexivity.
Defined.

Lemma do_succeeds_after_failures_witness :
  do (observed flakyClient) bareRequest 2 (Some [200; 404]) (0%nat, [])
  = ((3%nat, replicate 3 bareRequest), Ok (Some notFound, None)).
Proof.
  apply (do_succeeds_after_failures flakyClient bareRequest 2
           (Some [200; 404]) 2 0%nat 3%nat notFound).
  - simpl. lia.
  - intros [| [| j]] Hj; [by eexists | by eexists | lia].
  - reflexivity.
  - vm_compute. apply list_elem_of_further, list_elem_of_here.
Defined.

Lemma do_unexpected_status_witness :
  exists e,
    do (observed flakyClient) bareRequest 2 (Some [StatusOK]) (2%nat, [])
    = ((3%nat, [bareRequest]), Ok (Some notFound, Some e))
    /\ Is e ErrUnexpectedStatusCode = true.
Proof.
  apply (do_unexpected_status flakyClient bareRequest 2 (Some [StatusOK])
           2%nat 3%nat notFound).
  - reflexivity.
  - intros H%list_elem_of_singleton. vm_compute in H. discriminate.
Defined.

Lemma Do_invalid_max_retries_witness :
  exists e,
    Do (observed fakeClientOf) (mkFake None 0 None, [])
       (withHeader request.MaxRetriesHeader "invalid")
    = ((mkFake None 0 None, []),
       Request.setHeader (withHeader request.MaxRetriesHeader "invalid")
         (strip (Request.Header
                   (withHeader request.MaxRetriesHeader "invalid"))),
       Ok (None, Some e))
    /\ Is e ErrInvalidRequestHeader = true
    /\ Is e numError = true.
Proof.
  apply (Do_invalid_max_retries fakeClientOf (mkFake None 0 None)
           (withHeader request.MaxRetriesHeader "invalid") "invalid" []).
  - vm_compute. reflexivity.
  - reflexivity.
  - repeat (apply List.Forall_cons; [vm_compute; discriminate |]).
    apply List.Forall_nil.
Defined.

Lemma Do_invalid_accept_status_witness :
  exists e,
    Do (observed fakeClientOf) (mkFake None 0 None, [])
       (withHeader request.AcceptStatusHeader "invalid")
    = ((mkFake None 0 None, []),
       Request.setHeader (withHeader request.AcceptStatusHeader "invalid")
         (strip (Request.Header
                   (withHeader request.AcceptStatusHeader "invalid"))),
       Ok (None, Some e))
    /\ Is e ErrInvalidRequestHeader = true
    /\ Is e ErrInvalidJSON = true
    /\ Is e jsonError = true.
Proof.
  apply (Do_invalid_accept_status fakeClientOf (mkFake None 0 None)
           (withHeader request.AcceptStatusHeader "invalid") "invalid" []).
  - vm_compute. reflexivity.
  - reflexivity.
  - repeat (apply List.Forall_cons; [vm_compute; discriminate |]).
    apply List.Forall_nil.
Defined.

Lemma Do_body_required_empty_witness :
  exists r' e,
    Do fakeClientOf (mkFake (Some []) 0 None)
       (withHeader request.ResponseBodyRequiredHeader "true")
    = (mkFake (Some []) 0 None, newRequest "" "", Ok (Some r', Some e))
    /\ Is e ErrNoResponseBody = true
    /\ Response.ContentLength r' = 0
    /\ Response.Body r' = Some NoBody
    /\ Response.StatusCode r' = Response.StatusCode (fakeResponse []).
Proof.
  apply (Do_body_required_empty fakeClientOf (mkFake (Some []) 0 None)
           (withHeader request.ResponseBodyRequiredHeader "true")
           (newRequest "" "")
           (mkDirectives 0 (Some [StatusOK]) true false)).
  - vm_compute. reflexivity.
  - reflexivity.
  - reflexivity.
  - vm_compute. reflexivity.
  - reflexivity.
Defined.

Lemma Do_read_error_witness :
  exists r' e,
    Do brokenClient 0%nat bareRequest
    = (1%nat, bareRequest, Ok (Some r', Some e))
    /\ Is e readFailure = true
    /\ Response.ContentLength r' = 0
    /\ Response.Body r' = Some NoBody
    /\ Response.StatusCode r' = Response.StatusCode brokenResponse.
Proof.
  apply (Do_read_error brokenClient 0%nat bareRequest bareRequest
           (mkDirectives 0 (Some [StatusOK]) false false) 1%nat
           brokenResponse (bytes "partial")).
  - vm_compute. reflexivity.
  - reflexivity.
  - vm_compute. reflexivity.
  - reflexivity.
Defined.

Lemma parseRequestHeaders_defaults_witness :
  parseRequestHeaders retryClient bareRequest
  = (bareRequest, Ok (inl (mkDirectives 2 (Some [StatusOK]) false false))).
Proof.
  apply (parseRequestHeaders_defaults retryClient bareRequest).
  repeat (apply List.Forall_cons; [reflexivity |]). apply List.Forall_nil.
Defined.

Lemma MaxRetries_read_back_witness :
  exists rq1,
    request.MaxRetries 3 retryRequest = Ok (rq1, None)
    /\ parseRequestHeaders fakeClientOf rq1
       = (bareRequest,
          Ok (inl (setRetries (mkDirectives 0 (Some [StatusOK]) false false)
                     3))).
Proof.
  apply (MaxRetries_read_back fakeClientOf retryRequest bareRequest
           (mkDirectives 0 (Some [StatusOK]) false false) 3).
  - unfold maxUint. lia.
  - vm_compute. reflexivity.
Defined.

Lemma AcceptStatus_read_back_witness :
  exists rq1,
    request.AcceptStatus [404; 401] bareRequest = Ok (rq1, None)
    /\ parseRequestHeaders fakeClientOf rq1
       = (bareRequest,
          Ok (inl (setAccept (mkDirectives 0 (Some [StatusOK]) false false)
                     (Some [StatusOK; 404; 401])))).
Proof.
  apply (AcceptStatus_read_back fakeClientOf bareRequest bareRequest
           (mkDirectives 0 (Some [StatusOK]) false false) [404; 401]).
  - reflexivity.
  - repeat (apply List.Forall_cons; [unfold maxInt; lia |]).
    apply List.Forall_nil.
  - vm_compute. reflexivity.
Defined.

Lemma AcceptStatus_appends_witness :
  request.AcceptStatus [401] acceptingRequest
  = Ok (Request.setHeader acceptingRequest
          (<[request.AcceptStatusHeader := [Marshal (Some ([200; 404] ++ [401]))]]>
             (Request.Header acceptingRequest)), None).
Proof.
  apply (AcceptStatus_appends acceptingRequest [200; 404] ["[500]"] [401]).
  - vm_compute. reflexivity.
  - repeat (apply List.Forall_cons; [unfold isInt, minInt, maxInt; lia |]).
    apply List.Forall_nil.
Defined.

Lemma AcceptStatus_twice_witness :
  bind (request.AcceptStatus [404] bareRequest)
       (fun '(rq1, _) => request.AcceptStatus [401] rq1)
  = request.AcceptStatus ([404] ++ [401]) bareRequest.
Proof.
  apply (AcceptStatus_twice bareRequest [404] [401]).
  - reflexivity.
  - repeat (apply List.Forall_cons; [unfold isInt, minInt, maxInt; lia |]).
    apply List.Forall_nil.
Defined.

Lemma AcceptStatus_negative_witness :
  exists rq1 e,
    request.AcceptStatus [-1] bareRequest = Ok (rq1, None)
    /\ Do (observed fakeClientOf) (mkFake None 0 None, []) rq1
       = ((mkFake None 0 None, []),
          Request.setHeader bareRequest (strip (Request.Header bareRequest)),
          Ok (None, Some e))
    /\ Is e ErrInvalidRequestHeader = true
    /\ Is e ErrInvalidJSON = true.
Proof.
  apply (AcceptStatus_negative fakeClientOf (mkFake None 0 None)
           bareRequest [-1]).
  - reflexivity.
  - repeat (apply List.Forall_cons; [vm_compute; discriminate |]).
    apply List.Forall_nil.
  - repeat (apply List.Forall_cons; [unfold isInt, minInt, maxInt; lia |]).
    apply List.Forall_nil.
  - apply List.Exists_cons_hd. lia.
Defined.

Lemma Do_in_order_witness :
  mockClient.expectations
    (served rwWrite recorder twoExpectations
       [getRequest "a"; getRequest "b"; getRequest "c"])
  = [ MockRequest.setActual (expectedGet 0 "a") (getRequest "a");
      MockRequest.setActual (expectedGet 1 "b") (getRequest "b") ]
  /\ mockClient.next
       (served rwWrite recorder twoExpectations
          [getRequest "a"; getRequest "b"; getRequest "c"])
     = 2
  /\ mockClient.unexpected
       (served rwWrite recorder twoExpectations
          [getRequest "a"; getRequest "b"; getRequest "c"])
     = [getRequest "c"].
Proof.
  apply (Do_in_order rwWrite recorder twoExpectations
           [getRequest "a"; getRequest "b"; getRequest "c"]).
  - simpl. lia.
  - repeat (apply List.Forall_cons; [reflexivity |]). apply List.Forall_nil.
Defined.

Lemma Do_returns_configured_error_witness :
  snd (mockClient.Do rwWrite recorder
         (mockClient.configure 0 (MockRequest.WillReturnError permanentFailure)
            twoExpectations)
         (getRequest "a"))
  = Ok (Some (Response.setBody emptyResponse NoBody), Some permanentFailure).
Proof.
  apply (Do_returns_configured_error rwWrite recorder twoExpectations
           (getRequest "a") (expectedGet 0 "a") permanentFailure
           emptyResponse).
  - simpl. lia.
  - reflexivity.
  - reflexivity.
  - vm_compute. reflexivity.
Defined.

Lemma Reset_as_new_witness :
  mockClient.ExpectationsWereMet (mockClient.Reset refusingMock) = Ok None
  /\ mockClient.Expect joinPath (mockClient.Reset refusingMock) "GET" "a"
     = Ok (mockClient.mk "mock" "mock://hostname" [expectedGet 0 "a"] []
             firstExpectedRequest,
           0).
Proof.
  apply (Reset_as_new joinPath refusingMock "GET" "a" "mock://hostname/a").
  reflexivity.
Defined.

Lemma checkExpectations_method_url_witness :
  (exists rpt,
     MockRequest.checkExpectations
       (MockRequest.setActual (expectedGet 0 "a") (getRequest "a"))
     = Ok rpt)
  /\ (MockRequest.checkExpectations
        (MockRequest.setActual (expectedGet 0 "a") (getRequest "a"))
      = Ok []
      <-> (forall m, Some "GET" = Some m -> m = "GET")
          /\ "mock://hostname/a" = "mock://hostname/a").
Proof.
  apply (checkExpectations_method_url
           (MockRequest.setActual (expectedGet 0 "a") (getRequest "a"))
           (getRequest "a"));
    reflexivity.
Defined.

Lemma refused_request_reported_twice_witness :
  exists errs,
    mockClient.ExpectationsWereMet
      (fst (mockClient.Do rwWrite recorder refusingMock (getRequest "path")))
    = Ok (Some (MockExpectationsError "mock" errs))
    /\ mockClient.expecting (expectedGet 0 "path") ∈ errs
    /\ mockClient.detail "  got: GET mock://hostname/path" ∈ errs
    /\ mockClient.notExpected 1 0 (getRequest "path") ∈ errs.
Proof.
  apply (refused_request_reported_twice rwWrite recorder refusingMock
           (getRequest "path")
           (MockRequest.WillNotBeCalled (expectedGet 0 "path"))).
  - simpl. lia.
  - reflexivity.
  - reflexivity.
  - apply List.Forall_cons; [| apply List.Forall_nil].
    split; [by left |]. intros k vs.
    change (Request.Header (getRequest "path") !! k)
      with ((∅ : header) !! k).
    by rewrite lookup_empty.
Defined.

Lemma unmet_expectation_reported_witness :
  exists errs,
    mockClient.ExpectationsWereMet twoExpectations
    = Ok (Some (MockExpectationsError "mock" errs))
    /\ mockClient.expecting (expectedGet 1 "b") ∈ errs
    /\ mockClient.detail "  got: <no request>" ∈ errs.
Proof.
  apply (unmet_expectation_reported twoExpectations 1 (expectedGet 1 "b")).
  - repeat (apply List.Forall_cons; [exact I |]). apply List.Forall_nil.
  - reflexivity.
  - reflexivity.
  - reflexivity.
Defined.

Lemma NewClient_option_error_witness :
  exists e',
    NewClient (failWith permanentFailure) "api"
      [ MaxRetries 3; URL parseAbsolute ofOther;
        Using (failWith permanentFailure) ]
    = Ok (inr e')
    /\ Is e' ErrInitialisingClient = true
    /\ Is e' notAURL = true.
Proof.
  apply (NewClient_option_error (failWith permanentFailure) "api"
           [ MaxRetries 3; URL parseAbsolute ofOther;
             Using (failWith permanentFailure) ]
           (URL parseAbsolute ofOther) notAURL).
  - intros opt w Hin.
    repeat (apply elem_of_cons in Hin as [-> | Hin]; [by eexists |]).
    by apply elem_of_nil in Hin.
  - apply list_elem_of_further, list_elem_of_here.
  - intros w. by eexists.
Defined.

Lemma NewRequest_first_error_witness :
  exists e',
    NewRequest joinPath newRequestWithContext fakeClientOf "GET" "path"
      ([request.MaxRetries 3] ++ failingOption permanentFailure
         :: [request.ResponseBodyRequired])
    = Ok (inr e')
    /\ Is e' permanentFailure = true.
Proof.
  apply (NewRequest_first_error joinPath newRequestWithContext fakeClientOf
           "GET" "path" "http://host/path" [request.MaxRetries 3]
           [request.ResponseBodyRequired] (failingOption permanentFailure)
           bareRequest
           (Request.setHeader bareRequest
              {[ request.MaxRetriesHeader := ["3"] ]})
           (Request.setHeader bareRequest
              {[ request.MaxRetriesHeader := ["3"] ]})
           permanentFailure).
  - reflexivity.
  - reflexivity.
  - vm_compute. reflexivity.
  - reflexivity.
Defined.

Lemma execute_no_request_witness :
  exists e',
    execute joinPath newRequestWithContext (observed fakeClientOf)
            (mkFake None 0 None, []) "GET" "path"
            [failingOption permanentFailure]
    = ((mkFake None 0 None, []), Ok (None, Some e'))
    /\ forall target,
         Is (errorcontext.Errorf "NewRequest: %w" [err permanentFailure])
            target = true ->
         Is e' target = true.
Proof.
  apply (execute_no_request joinPath newRequestWithContext fakeClientOf
           (mkFake None 0 None) "GET" "path"
           [failingOption permanentFailure]
           (errorcontext.Errorf "NewRequest: %w" [err permanentFailure])).
  reflexivity.
Defined.

Lemma flags_read_back_witness :
  (exists rq1,
     request.ResponseBodyRequired bareRequest = Ok (rq1, None)
     /\ parseRequestHeaders fakeClientOf rq1
        = (bareRequest,
           Ok (inl (mkDirectives 0 (Some [StatusOK]) true false))))
  /\ parseRequestHeaders fakeClientOf (request.StreamResponse bareRequest)
     = (bareRequest, Ok (inl (mkDirectives 0 (Some [StatusOK]) false true))).
Proof.
  apply (flags_read_back fakeClientOf bareRequest bareRequest
           (mkDirectives 0 (Some [StatusOK]) false false)).
  vm_compute. reflexivity.
Defined.

(** ** The first value of a reserved header *)

Section FirstValue.

Context {T : Type}.
Implicit Types (c : client T) (rq : Request.t) (d : directives) (h : header).

Lemma strip_delete h k : k ∈ reserved -> strip (delete k h) = strip h.
Proof.
  intros Hk. apply map_eq. intros i.
  destruct (decide (i ∈ reserved)) as [Hi | Hi].
  - by rewrite !strip_reserved.
  - assert (Hne : k <> i) by (intros ->; contradiction).
    unfold reserved in Hi. rewrite !elem_of_cons, elem_of_nil in Hi.
    unfold strip. rewrite !lookup_delete_ne by (intros <-; tauto).
    done.
Qed.

(** [parseRequestHeaders] on a request in which a reserved header has
    values, and the other reserved headers that are set have values. *)
Lemma parseRequestHeaders_values c rq (k : string) (vs : list string) :
  k ∈ reserved ->
  vs <> [] ->
  valued (delete k (Request.Header rq)) ->
  let h := <[k := vs]> (Request.Header rq) in
  parseRequestHeaders c (Request.setHeader rq h)
  = (Request.setHeader rq (strip (Request.Header rq)),
     directivesFrom (maxRetries c)
       (h !! request.MaxRetriesHeader) (h !! request.AcceptStatusHeader)
       (h !! request.ResponseBodyRequiredHeader)
       (h !! request.StreamResponseHeader)).
Proof.
  intros Hk Hvs Hvalued h. destruct rq as [m u h0 b len].
  unfold Request.setHeader in *.
  cbn [Request.Header Request.Method Request.URL Request.Body
       Request.ContentLength] in *.
  set (with_ := Request.mk m u h b len).
  destruct (parseRequestHeaders_valued c with_) as [x Hwith].
  { unfold valued in *. rewrite Forall_forall in *. intros k' Hk'.
    subst with_ h. cbn [Request.Header].
    destruct (decide (k = k')) as [<- | Hne].
    - rewrite lookup_insert_eq. congruence.
    - rewrite lookup_insert_ne by done.
      rewrite <- (lookup_delete_ne h0 k k') by done. by apply Hvalued. }
  assert (H : snd (parseRequestHeaders c with_) = Ok x) by by rewrite Hwith.
  rewrite parseRequestHeaders_outcome in H.
  rewrite Hwith. subst with_ h. unfold Request.setHeader.
  cbn [Request.Header Request.Method Request.URL Request.Body
       Request.ContentLength] in *.
  rewrite H. by rewrite strip_insert.
Qed.

(** The error of a directive whose first value does not parse. *)
Lemma Join_one (e : error) (e2 e3 e4 : option error) :
  Join [None; e2; e3; e4] = None ->
  Join [Some e; e2; e3; e4] = Some (joinError [e])
  /\ Join [e2; Some e; e3; e4] = Some (joinError [e]).
Proof. destruct e2, e3, e4; done. Qed.

Lemma directivesFrom_max_retries (mr : Z) (v : string) (rest : list string)
      (o2 o3 o4 : option (list string)) d :
  directivesFrom mr None o2 o3 o4 = Ok (inl d) ->
  directivesFrom mr (Some (v :: rest)) o2 o3 o4
  = Ok match parseMaxRetries v with
       | inl n => inl (setRetries d n)
       | inr e0 =>
           inr (joinError
                  [errorcontext.Errorf "%w: %s: %w"
                     [err ErrInvalidRequestHeader;
                      str request.MaxRetriesHeader; err e0]])
       end.
Proof.
  unfold directivesFrom. cbn [parsed first bind].
  destruct (parsed o2 _ _) as [[v2 e2] |]; [| done]; cbn [bind].
  destruct (parsed o3 _ _) as [[v3 e3] |]; [| done]; cbn [bind].
  destruct (parsed o4 _ _) as [[v4 e4] |]; [| done]; cbn [bind].
  destruct (Join [None; e2; e3; e4]) eqn:EJ; [done |]. intros [= <-].
  destruct (parseMaxRetries v) as [n | e0]; cbn [bind].
  - by rewrite EJ.
  - by destruct (Join_one (errorcontext.Errorf "%w: %s: %w"
                            [err ErrInvalidRequestHeader;
                             str request.MaxRetriesHeader; err e0])
                   e2 e3 e4 EJ) as [-> _].
Qed.

Lemma directivesFrom_accept_status (mr : Z) (v : string) (rest : list string)
      (o1 o3 o4 : option (list string)) d :
  directivesFrom mr o1 None o3 o4 = Ok (inl d) ->
  directivesFrom mr o1 (Some (v :: rest)) o3 o4
  = Ok match parseAcceptStatus v with
       | inl codes => inl (setAccept d codes)
       | inr e0 =>
           inr (joinError
                  [errorcontext.Errorf "%w: %s: %w"
                     [err ErrInvalidRequestHeader;
                      str request.AcceptStatusHeader; err e0]])
       end.
Proof.
  unfold directivesFrom. cbn [parsed first bind].
  destruct (parsed o1 _ _) as [[v1 e1] |]; [| done]; cbn [bind].
  destruct (parsed o3 _ _) as [[v3 e3] |]; [| done]; cbn [bind].
  destruct (parsed o4 _ _) as [[v4 e4] |]; [| done]; cbn [bind].
  destruct (Join [e1; None; e3; e4]) eqn:EJ; [done |]. intros [= <-].
  destruct e1 as [e1 |]; [by destruct e3, e4 |].
  destruct (parseAcceptStatus v) as [codes | e0]; cbn [bind].
  - by rewrite EJ.
  - by destruct (Join_one (errorcontext.Errorf "%w: %s: %w"
                            [err ErrInvalidRequestHeader;
                             str request.AcceptStatusHeader; err e0])
                   None e3 e4 EJ) as [_ ->].
Qed.

Lemma directivesFrom_body_required (mr : Z) (v : string) (rest : list string)
      (o1 o2 o4 : option (list string)) d :
  directivesFrom mr o1 o2 None o4 = Ok (inl d) ->
  directivesFrom mr o1 o2 (Some (v :: rest)) o4
  = Ok (inl (mkDirectives (retries d) (acceptableStatusCodes d)
               (String.eqb v "true") (streamResponse d))).
Proof.
  unfold directivesFrom. cbn [parsed first bind parseFlag].
  destruct (parsed o1 _ _) as [[v1 e1] |]; [| done]; cbn [bind].
  destruct (parsed o2 _ _) as [[v2 e2] |]; [| done]; cbn [bind].
  destruct (parsed o4 _ _) as [[v4 e4] |]; [| done]; cbn [bind].
  destruct (Join [e1; e2; None; e4]) eqn:EJ; [done |]. by intros [= <-].
Qed.

Lemma directivesFrom_stream (mr : Z) (v : string) (rest : list string)
      (o1 o2 o3 : option (list string)) d :
  directivesFrom mr o1 o2 o3 None = Ok (inl d) ->
  directivesFrom mr o1 o2 o3 (Some (v :: rest))
  = Ok (inl (mkDirectives (retries d) (acceptableStatusCodes d)
               (responseBodyRequired d) (String.eqb v "true"))).
Proof.
  unfold directivesFrom. cbn [parsed first bind parseFlag].
  destruct (parsed o1 _ _) as [[v1 e1] |]; [| done]; cbn [bind].
  destruct (parsed o2 _ _) as [[v2 e2] |]; [| done]; cbn [bind].
  destruct (parsed o3 _ _) as [[v3 e3] |]; [| done]; cbn [bind].
  destruct (Join [e1; e2; e3; None]) eqn:EJ; [done |]. by intros [= <-].
Qed.

(** C10. Of a reserved header with several values, parsing reads the
    first value, and that value alone. On a request that the engine
    reads as the directives [d] when the header is taken away: with the
    values [v :: rest] under the header, the max-retries directive is the
    integer that [v] parses to, the accepted codes are those that [v]
    decodes to, a flag is whether [v] is the text true, and the other
    directives are those of [d]; when [v] does not parse, the error is
    the one of the header, over the error of [v]. The values [rest] bear
    on nothing and raise nothing: the result is that for [v] alone. The
    request left behind has lost the header with all its values. *)
Theorem parse_reads_first_value c rq rq' d (k v : string)
        (rest : list string) :
  k ∈ reserved ->
  parseRequestHeaders c
    (Request.setHeader rq (delete k (Request.Header rq)))
  = (rq', Ok (inl d)) ->
  exists out,
    parseRequestHeaders c
      (Request.setHeader rq (<[k := v :: rest]> (Request.Header rq)))
    = (rq', out)
    /\ parseRequestHeaders c
         (Request.setHeader rq (<[k := [v]]> (Request.Header rq)))
       = (rq', out)
    /\ Request.Header rq' !! k = None
    /\ (k = request.MaxRetriesHeader ->
        match Atoi v with
        | inl i => out = Ok (inl (setRetries d (uint_of_int i)))
        | inr e0 =>
            exists e, out = Ok (inr e)
                      /\ Is e ErrInvalidRequestHeader = true
                      /\ Is e e0 = true
        end)
    /\ (k = request.AcceptStatusHeader ->
        match Unmarshal convUint (Some [StatusOK]) v with
        | inl codes => out = Ok (inl (setAccept d codes))
        | inr e0 =>
            exists e, out = Ok (inr e)
                      /\ Is e ErrInvalidRequestHeader = true
                      /\ Is e ErrInvalidJSON = true
                      /\ Is e e0 = true
        end)
    /\ (k = request.ResponseBodyRequiredHeader ->
        out = Ok (inl (mkDirectives (retries d) (acceptableStatusCodes d)
                         (String.eqb v "true") (streamResponse d))))
    /\ (k = request.StreamResponseHeader ->
        out = Ok (inl (mkDirectives (retries d) (acceptableStatusCodes d)
                         (responseBodyRequired d) (String.eqb v "true")))).
Proof.
  intros Hk Hparse.
  assert (Hout : snd (parseRequestHeaders c
                        (Request.setHeader rq
                           (delete k (Request.Header rq))))
                 = Ok (inl d)) by by rewrite Hparse.
  pose proof (parseRequestHeaders_Ok_valued _ _ _ Hout) as Hvalued.
  pose proof (parseRequestHeaders_request _ _ _ Hout) as Hrq.
  rewrite Hparse in Hrq. cbn [fst] in Hrq.
  rewrite parseRequestHeaders_outcome in Hout.
  destruct rq as [m u h b len]. unfold Request.setHeader in *.
  cbn [Request.Header Request.Method Request.URL Request.Body
       Request.ContentLength] in *.
  rewrite strip_delete in Hrq by done. subst rq'.
  pose proof (parseRequestHeaders_values c (Request.mk m u h b len) k
                (v :: rest) Hk ltac:(done) Hvalued) as Hmulti.
  pose proof (parseRequestHeaders_values c (Request.mk m u h b len) k
                [v] Hk ltac:(done) Hvalued) as Hsingle.
  unfold Request.setHeader in Hmulti, Hsingle.
  cbn [Request.Header Request.Method Request.URL Request.Body
       Request.ContentLength] in Hmulti, Hsingle.
  cbv zeta in Hmulti, Hsingle. rewrite Hmulti, Hsingle.
  clear Hmulti Hsingle Hparse Hvalued.
  assert (Hwrapped : forall hdr e0,
            Is (joinError
                  [errorcontext.Errorf "%w: %s: %w"
                     [err ErrInvalidRequestHeader; str hdr; err e0]])
               ErrInvalidRequestHeader = true
            /\ forall target,
                 Is e0 target = true ->
                 Is (joinError
                       [errorcontext.Errorf "%w: %s: %w"
                          [err ErrInvalidRequestHeader; str hdr; err e0]])
                    target = true).
  { intros hdr e0. split; [| intros target Ht];
      (eapply Is_joinError; [by left |]).
    - apply Is_errorcontext_Errorf with ErrInvalidRequestHeader;
        [simpl; tauto | apply Is_refl].
    - apply Is_errorcontext_Errorf with e0; [simpl; tauto | done]. }
  eexists. split; [reflexivity |]. split.
  { pose proof Hk as Hk'. unfold reserved in Hk'.
    rewrite !elem_of_cons, elem_of_nil in Hk'.
    destruct Hk' as [-> | [-> | [-> | [-> | []]]]];
      rewrite !lookup_insert_eq;
      rewrite !lookup_insert_ne by distinct_headers; reflexivity. }
  split; [by apply strip_reserved |].
  split; [| split; [| split]]; intros ->.
  - rewrite lookup_delete_eq in Hout.
    rewrite !lookup_delete_ne in Hout by distinct_headers.
    rewrite lookup_insert_eq.
    rewrite !lookup_insert_ne by distinct_headers.
    rewrite (directivesFrom_max_retries _ v rest _ _ _ d Hout).
    unfold parseMaxRetries. destruct (Atoi v) as [i | e0]; [done |].
    destruct (Hwrapped request.MaxRetriesHeader e0) as [H1 H2].
    eexists. split; [reflexivity |].
    split; [exact H1 | apply H2, Is_refl].
  - rewrite lookup_delete_eq in Hout.
    rewrite !lookup_delete_ne in Hout by distinct_headers.
    rewrite lookup_insert_eq.
    rewrite !lookup_insert_ne by distinct_headers.
    rewrite (directivesFrom_accept_status _ v rest _ _ _ d Hout).
    unfold parseAcceptStatus.
    destruct (Unmarshal convUint (Some [StatusOK]) v) as [codes | e0];
      [done |].
    destruct (Hwrapped request.AcceptStatusHeader
                (Go.Errorf "%w: %w" [err ErrInvalidJSON; err e0]))
      as [H1 H2].
    eexists. split; [reflexivity |]. split; [exact H1 |].
    split; apply H2.
    + apply Is_Errorf with ErrInvalidJSON; [simpl; tauto | apply Is_refl].
    + apply Is_Errorf with e0; [simpl; tauto | apply Is_refl].
  - rewrite lookup_delete_eq in Hout.
    rewrite !lookup_delete_ne in Hout by distinct_headers.
    rewrite lookup_insert_eq.
    rewrite !lookup_insert_ne by distinct_headers.
    by rewrite (directivesFrom_body_required _ v rest _ _ _ d Hout).
  - rewrite lookup_delete_eq in Hout.
    rewrite !lookup_delete_ne in Hout by distinct_headers.
    rewrite lookup_insert_eq.
    rewrite !lookup_insert_ne by distinct_headers.
    by rewrite (directivesFrom_stream _ v rest _ _ _ d Hout).
Qed.

End FirstValue.

Lemma parse_reads_first_value_witness :
  parseRequestHeaders fakeClientOf
    (Request.setHeader bareRequest
       (<[request.MaxRetriesHeader := ["3"; "many"]]>
          (Request.Header bareRequest)))
  = (bareRequest, Ok (inl (mkDirectives 3 (Some [StatusOK]) false false)))
  /\ parseRequestHeaders fakeClientOf
       (Request.setHeader bareRequest
          (<[request.MaxRetriesHeader := ["3"]]>
             (Request.Header bareRequest)))
     = (bareRequest, Ok (inl (mkDirectives 3 (Some [StatusOK]) false false)))
  /\ Request.Header bareRequest !! request.MaxRetriesHeader = None.
Proof.
  destruct (parse_reads_first_value fakeClientOf bareRequest bareRequest
              (mkDirectives 0 (Some [StatusOK]) false false)
              request.MaxRetriesHeader "3" ["many"])
    as (out & Hmulti & Hsingle & Hgone & Hretries & _).
  - unfold reserved. apply list_elem_of_here.
  - vm_compute. reflexivity.
  - specialize (Hretries eq_refl). vm_compute in Hretries. subst out.
    split; [exact Hmulti |]. split; [exact Hsingle | exact Hgone].
Defined.
